(** * Ax: generator runs and report utilities

    A shallow embedding of [ax/core/generator_run.py] and
    [ax/service/utils/report_utils.py], and the properties of the
    specification proved (or refuted) on it.

    Layout: the Python values the two files compute with (exceptions,
    floats, strings, insertion-ordered dictionaries, a store of mutable
    objects); the two source files, each followed by the notions of the
    specification it is compared with; inputs for the examples; the
    proofs. *)

From Stdlib Require Import ZArith Lia SpecFloat DecimalString.
From stdpp Require Import base option list strings.

Set Warnings "-clear-no-such-hyp".
Local Open Scope Z_scope.

(** ** Python values *)

Module Py.

(** The exceptions the two files raise, by their Python class. *)
Inductive exn : Type :=
  | ValueError (msg : string)
  | AssertionError
  | KeyError (key : string)
  | IndexError
  | NotImplementedError.

(** A computation that returns a value or raises. *)
Inductive result (A : Type) : Type :=
  | Ok (a : A)
  | Raise (e : exn).
Global Arguments Ok {A} a.
Global Arguments Raise {A} e.

Definition bind {A B} (r : result A) (k : A → result B) : result B :=
  match r with
  | Ok a => k a
  | Raise e => Raise e
  end.

(** *** Floats: IEEE 754 binary64, as [SpecFloat] specifies it. *)
Definition float : Type := spec_float.
Definition float_prec : Z := 53.
Definition float_emax : Z := 1024.
Definition float_add : float → float → float := SFadd float_prec float_emax.
Definition float_of_Z (z : Z) : float :=
  binary_normalize float_prec float_emax z 0 false.
Definition float_nan : float := S754_nan.
Definition float_is_nan (x : float) : bool :=
  match x with S754_nan => true | _ => false end.
(** Python's [==] and [<] on floats. *)
Definition float_eqb : float → float → bool := SFeqb.
Definition float_ltb : float → float → bool := SFltb.

(** *** Integers: [str(i)]. *)
Definition str_of_int (i : Z) : string :=
  NilZero.string_of_int (Z.to_int i).

(** *** Lists: the slice [l[start:]]. *)
Definition slice_from {A} (start : Z) (l : list A) : list A :=
  let len := Z.of_nat (length l) in
  let first := if start <? 0 then Z.max (len + start) 0 else Z.min start len in
  drop (Z.to_nat first) l.

(** *** Strings: [sep.join(l)] and [s.split(sep)]. *)
Definition str_join (sep : string) (l : list string) : string :=
  String.concat sep l.

(** [strip_prefix p s] is the rest of [s] after the prefix [p], if [s]
    starts with [p]. *)
Fixpoint strip_prefix (p s : string) : option string :=
  match p, s with
  | EmptyString, _ => Some s
  | String a p', String b s' =>
      if Ascii.eqb a b then strip_prefix p' s' else None
  | String _ _, EmptyString => None
  end.

(** [str_cut sep s] cuts [s] at the leftmost occurrence of [sep]: the
    text before it and the text after it. *)
Fixpoint str_cut (sep s : string) : option (string * string) :=
  match strip_prefix sep s with
  | Some rest => Some (EmptyString, rest)
  | None =>
      match s with
      | EmptyString => None
      | String c s' =>
          match str_cut sep s' with
          | Some (before, after) => Some (String c before, after)
          | None => None
          end
      end
  end.

(** [s.split(sep)] for a non-empty [sep] (Python raises [ValueError] for
    an empty one, see [_get_suffix]): cut at the leftmost occurrence and
    go on after it.  Every cut consumes at least one character, so the
    length of [s] is enough fuel. *)
Fixpoint split_fuel (fuel : nat) (sep s : string) : list string :=
  match fuel with
  | O => [s]
  | S fuel' =>
      match str_cut sep s with
      | None => [s]
      | Some (before, after) => before :: split_fuel fuel' sep after
      end
  end.

Definition str_split (sep s : string) : list string :=
  split_fuel (String.length s) sep s.

(** *** Dictionaries: keys in insertion order. *)
Section odict.
Context {K V : Type} `{EqDecision K}.

Fixpoint od_get (k : K) (d : list (K * V)) : option V :=
  match d with
  | [] => None
  | (k', v) :: d' => if decide (k' = k) then Some v else od_get k d'
  end.

(** [d[k] = v]: an existing key keeps its position, a new one goes last. *)
Fixpoint od_set (k : K) (v : V) (d : list (K * V)) : list (K * V) :=
  match d with
  | [] => [(k, v)]
  | (k', v') :: d' =>
      if decide (k' = k) then (k, v) :: d' else (k', v') :: od_set k v d'
  end.

Definition od_keys (d : list (K * V)) : list K := d.*1.
Definition od_values (d : list (K * V)) : list V := d.*2.
End odict.

(** [d[k].append(x)] on a [defaultdict(list)]. *)
Definition dd_append {K A} `{EqDecision K} (k : K) (x : A)
    (d : list (K * list A)) : list (K * list A) :=
  od_set k (default [] (od_get k d) ++ [x]) d.

(** [len(set(l))]. *)
Definition count_distinct {A} `{EqDecision A} (l : list A) : nat :=
  length (remove_dups l).

(** *** Mutable objects

    Dictionaries and the other containers a generator run holds are
    objects in a store; a field holds a reference [loc].  Two fields with
    the same reference see each other's updates. *)
Definition loc : Type := nat.

(** A value of type [Any]. *)
Inductive pyval : Type :=
  | VNone
  | VBool (b : bool)
  | VInt (z : Z)
  | VFloat (f : float)
  | VStr (s : string)
  | VRef (l : loc).

(** A scalar: a parameter value ([TParamValue]) or the cell of a table. *)
Inductive cell : Type :=
  | CNone
  | CBool (b : bool)
  | CInt (z : Z)
  | CFloat (f : float)
  | CStr (s : string).

(** [bool(c)] *)
Definition cell_truthy (c : cell) : bool :=
  match c with
  | CNone => false
  | CBool b => b
  | CInt z => negb (z =? 0)
  | CFloat f => negb (float_eqb f (S754_zero false))
  | CStr s => negb (bool_decide (s = ""))
  end.

(** [TModelPredict] and [TModelPredictArm] of [ax.core.types]: means per
    metric, covariances per pair of metrics; per arm in a list, or for
    one arm. *)
Definition TModelPredict : Type :=
  list (string * list float) * list (string * list (string * list float)).
Definition TModelPredictArm : Type :=
  list (string * float) * list (string * list (string * float)).

Inductive pyobj (Arm : Type) : Type :=
  | ODict (d : list (string * pyval))
  | OPredictions (p : TModelPredict)
  | OBestArm (best : Arm * option TModelPredictArm)
  | OOpaque (payload : Z).
Global Arguments ODict {Arm} d.
Global Arguments OPredictions {Arm} p.
Global Arguments OBestArm {Arm} best.
Global Arguments OOpaque {Arm} payload.

Definition heap (Arm : Type) : Type := list (pyobj Arm).

Definition alloc {Arm} (h : heap Arm) (o : pyobj Arm) : heap Arm * loc :=
  (h ++ [o], length h).

(** The dictionary behind a reference typed [Dict[str, ...]]. *)
Definition heap_dict {Arm} (h : heap Arm) (l : loc) : list (string * pyval) :=
  match h !! l with
  | Some (ODict d) => d
  | _ => []
  end.

(** [d[k] = v] through a reference. *)
Definition dict_setitem {Arm} (h : heap Arm) (l : loc) (k : string)
    (v : pyval) : heap Arm :=
  <[l := ODict (od_set k v (heap_dict h l))]> h.

(** [d.copy()]: a new dictionary with the same items; values that are
    references stay shared. *)
Definition dict_copy {Arm} (h : heap Arm) (l : loc) : heap Arm * loc :=
  alloc h (ODict (heap_dict h l)).

(** [copy.deepcopy(x)] of a prediction structure: a new object with the
    same content, sharing nothing. *)
Definition deepcopy {Arm} (h : heap Arm) (l : loc) : heap Arm * loc :=
  match h !! l with
  | Some o => alloc h o
  | None => (h, l)
  end.

(** Modelled from the spec: [clone()] of an optimization config or of a
    search space, two classes that are not part of the two files.  They
    are "cloned via their own clone contracts", into "new nested
    config/search-space objects": a new object with the same content. *)
Definition object_clone {Arm} (h : heap Arm) (l : loc) : heap Arm * loc :=
  deepcopy h l.

Definition copy_opt {Arm} (copy : heap Arm → loc → heap Arm * loc)
    (h : heap Arm) (r : option loc) : heap Arm * option loc :=
  match r with
  | None => (h, None)
  | Some l => let '(h', l') := copy h l in (h', Some l')
  end.

End Py.
Import Py.

#[global] Instance result_ret : MRet result := @Ok.
#[global] Instance result_bind : MBind result := λ A B k r, Py.bind r k.

(** ** ax/core/generator_run.py *)

Module generator_run.

(** [ax.core.arm.Arm], as this file uses it.  The class itself is not part
    of the two files. *)
Class ArmClass : Type := {
  Arm : Type;
  Arm_eq_dec :: EqDecision Arm;
  signature : Arm → string;
  name_or_short_signature : Arm → string;
  parameters : Arm → list (string * cell);
  Arm_clone : Arm → Arm;
}.

Section generator_run.
Context `{ArmClass}.

Definition datetime : Type := Z.

Inductive GeneratorRunType : Type := STATUS_QUO | MANUAL.

Definition GeneratorRunType_value (t : GeneratorRunType) : Z :=
  match t with STATUS_QUO => 0 | MANUAL => 1 end.

Record ArmWeight : Type := { arm : Arm; weight : float }.

(** [xs[i]], raising [IndexError] out of range (negative indices count
    from the end). *)
Definition list_getitem {A} (xs : list A) (i : Z) : result A :=
  let len := Z.of_nat (length xs) in
  let j := if i <? 0 then len + i else i in
  if (j <? 0) || (len <=? j) then Raise IndexError
  else match xs !! Z.to_nat j with
       | Some x => Ok x
       | None => Raise IndexError
       end.

Fixpoint map_result {A B} (f : A → result B) (l : list A) : result (list B) :=
  match l with
  | [] => Ok []
  | x :: l' => y ← f x; ys ← map_result f l'; Ok (y :: ys)
  end.

Definition extract_arm_predictions (model_predictions : TModelPredict)
    (arm_idx : Z) : result TModelPredictArm :=
  let means := model_predictions.1 in
  let covariances := model_predictions.2 in
  means_per_arm ←
    map_result (λ '(metric, vals), v ← list_getitem vals arm_idx;
                                   Ok (metric, v)) means;
  covar_per_arm ←
    map_result (λ '(metric, row),
      r ← map_result (λ '(other_metric, vals),
             v ← list_getitem vals arm_idx; Ok (other_metric, v)) row;
      Ok (metric, r)) covariances;
  Ok (means_per_arm, covar_per_arm).

Record GeneratorRun : Type := {
  _arm_weight_table : list (string * ArmWeight);
  _generator_run_type : option string;
  _time_created : datetime;
  _optimization_config : option loc;
  _search_space : option loc;
  _model_predictions : option loc;
  _best_arm_predictions : option loc;
  _index : option Z;
  _fit_time : option float;
  _gen_time : option float;
  _model_key : option string;
  _model_kwargs : option loc;
  _bridge_kwargs : option loc;
  _gen_metadata : option loc;
  _model_state_after_gen : option loc;
  _candidate_metadata_by_arm_signature : option loc;
  _generation_step_index : option Z;
}.

(** The arguments of [GeneratorRun.__init__]. *)
Record InitArgs : Type := {
  arg_arms : list Arm;
  arg_weights : option (list float);
  arg_optimization_config : option loc;
  arg_search_space : option loc;
  arg_model_predictions : option loc;
  arg_best_arm_predictions : option loc;
  arg_type : option string;
  arg_fit_time : option float;
  arg_gen_time : option float;
  arg_model_key : option string;
  arg_model_kwargs : option loc;
  arg_bridge_kwargs : option loc;
  arg_gen_metadata : option loc;
  arg_model_state_after_gen : option loc;
  arg_generation_step_index : option Z;
  arg_candidate_metadata_by_arm_signature : option loc;
}.

(** [GeneratorRun(arms, weights)], every other argument left at [None]. *)
Definition args_of (arms : list Arm) (weights : option (list float))
    : InitArgs :=
  {| arg_arms := arms; arg_weights := weights;
     arg_optimization_config := None; arg_search_space := None;
     arg_model_predictions := None; arg_best_arm_predictions := None;
     arg_type := None; arg_fit_time := None; arg_gen_time := None;
     arg_model_key := None; arg_model_kwargs := None;
     arg_bridge_kwargs := None; arg_gen_metadata := None;
     arg_model_state_after_gen := None;
     arg_generation_step_index := None;
     arg_candidate_metadata_by_arm_signature := None |}.

(** The body of the loop [for arm, weight in zip(arms, weights)].  An
    [ArmWeight] is a two-field tuple, so [if existing_cw:] asks whether
    the signature is in the table. *)
Definition add_arm (table : list (string * ArmWeight))
    (aw : Arm * float) : list (string * ArmWeight) :=
  let '(a, w) := aw in
  match od_get (signature a) table with
  | Some existing_cw =>
      od_set (signature a)
        {| arm := a; weight := float_add (weight existing_cw) w |} table
  | None => od_set (signature a) {| arm := a; weight := w |} table
  end.

Definition build_table (arms : list Arm) (weights : list float)
    : list (string * ArmWeight) :=
  foldl add_arm [] (zip arms weights).

Definition default_weights (arms : list Arm) (weights : option (list float))
    : list float :=
  match weights with
  | None => (λ _, float_of_Z 1) <$> arms
  | Some ws => ws
  end.

(** [{cw.arm.signature for cw in table.values()}] *)
Definition table_signatures (table : list (string * ArmWeight))
    : list string :=
  remove_dups ((λ cw, signature (arm cw)) <$> od_values table).

(** [if cond: raise e] and [assert cond] *)
Definition raise_if (cond : bool) (e : exn) : result unit :=
  if cond then Raise e else Ok ().
Definition py_assert (cond : bool) : result unit :=
  if cond then Ok () else Raise AssertionError.

Definition is_none {A} (x : option A) : bool :=
  match x with None => true | Some _ => false end.

(** [GeneratorRun.__init__]; [now] is what [datetime.now()] returns.  The
    message of the candidate-metadata error is kept without the set it
    interpolates. *)
Definition __init__ (h : heap Arm) (now : datetime) (a : InitArgs)
    : result GeneratorRun :=
  let weights := default_weights (arg_arms a) (arg_weights a) in
  _ ← raise_if (negb (length (arg_arms a) =? length weights)%nat)
        (ValueError "Weights and arms must have the same length.");
  _ ← (if negb (is_none (arg_bridge_kwargs a))
          || negb (is_none (arg_model_kwargs a))
       then
         _ ← raise_if (is_none (arg_model_key a))
               (ValueError
                  "Model key is required if model or bridge kwargs are provided.");
         raise_if (is_none (arg_bridge_kwargs a)
                   || is_none (arg_model_kwargs a))
           (ValueError
              "Both model kwargs and bridge kwargs are required if either one is provided.")
       else Ok ());
  let table := build_table (arg_arms a) weights in
  _ ← (match arg_candidate_metadata_by_arm_signature a with
       | None => Ok ()
       | Some l =>
           let unknown_arms_in_cand_metadata :=
             filter (λ k, k ∉ table_signatures table)
               (od_keys (heap_dict h l)) in
           raise_if (negb (bool_decide (unknown_arms_in_cand_metadata = [])))
             (ValueError
                "Arms appear in candidate metadata, but not among the arms on this GeneratorRun.")
       end);
  _ ← py_assert (match arg_generation_step_index a with
                 | None => true
                 | Some i => 0 <=? i
                 end);
  Ok {| _arm_weight_table := table;
        _generator_run_type := arg_type a;
        _time_created := now;
        _optimization_config := arg_optimization_config a;
        _search_space := arg_search_space a;
        _model_predictions := arg_model_predictions a;
        _best_arm_predictions := arg_best_arm_predictions a;
        _index := None;
        _fit_time := arg_fit_time a;
        _gen_time := arg_gen_time a;
        _model_key := arg_model_key a;
        _model_kwargs := arg_model_kwargs a;
        _bridge_kwargs := arg_bridge_kwargs a;
        _gen_metadata := arg_gen_metadata a;
        _model_state_after_gen := arg_model_state_after_gen a;
        _candidate_metadata_by_arm_signature :=
          arg_candidate_metadata_by_arm_signature a;
        _generation_step_index := arg_generation_step_index a |}.

(** *** Read accessors *)

Definition arms (self : GeneratorRun) : list Arm :=
  arm <$> od_values (_arm_weight_table self).

Definition arm_signatures (self : GeneratorRun) : list string :=
  table_signatures (_arm_weight_table self).

Definition weights (self : GeneratorRun) : list float :=
  weight <$> od_values (_arm_weight_table self).

(** [OrderedDict(zip(self.arms, self.weights))] *)
Definition arm_weights (self : GeneratorRun) : list (Arm * float) :=
  foldl (λ d '(a, w), od_set a w d) [] (zip (arms self) (weights self)).

Definition generator_run_type (self : GeneratorRun) : option string :=
  _generator_run_type self.
Definition time_created (self : GeneratorRun) : datetime :=
  _time_created self.
Definition index (self : GeneratorRun) : option Z := _index self.
Definition optimization_config (self : GeneratorRun) : option loc :=
  _optimization_config self.
Definition search_space (self : GeneratorRun) : option loc :=
  _search_space self.
Definition model_predictions (self : GeneratorRun) : option loc :=
  _model_predictions self.
Definition fit_time (self : GeneratorRun) : option float := _fit_time self.
Definition gen_time (self : GeneratorRun) : option float := _gen_time self.
Definition best_arm_predictions (self : GeneratorRun) : option loc :=
  _best_arm_predictions self.
Definition gen_metadata (self : GeneratorRun) : option loc :=
  _gen_metadata self.
Definition candidate_metadata_by_arm_signature (self : GeneratorRun)
    : option loc :=
  _candidate_metadata_by_arm_signature self.

Definition heap_predictions (h : heap Arm) (l : loc) : TModelPredict :=
  match h !! l with
  | Some (OPredictions p) => p
  | _ => ([], [])
  end.

Definition model_predictions_by_arm (h : heap Arm) (self : GeneratorRun)
    : result (option (list (string * TModelPredictArm))) :=
  match _model_predictions self with
  | None => Ok None
  | Some l =>
      predictions ←
        foldl (λ acc '(idx, cond),
                 predictions ← acc;
                 p ← extract_arm_predictions (heap_predictions h l)
                       (Z.of_nat idx);
                 Ok (od_set (signature cond) p predictions))
          (Ok []) (imap (λ idx cond, (idx, cond)) (arms self));
      Ok (Some predictions)
  end.

(** The dictionary [param_df] hands to [pd.DataFrame.from_dict]. *)
Definition param_df (self : GeneratorRun)
    : list (string * list (string * cell)) :=
  foldl (λ d a, od_set (name_or_short_signature a) (parameters a) d)
    [] (arms self).

(** *** The [index] setter

    It returns the object after the call and whether the call raised. *)
Definition set_index (self : GeneratorRun) (index : Z)
    : GeneratorRun * result unit :=
  if bool_decide (_index self ≠ None) && bool_decide (_index self ≠ Some index)
  then
    (self,
     Raise (ValueError "Cannot change the index of a generator run once set."))
  else
    ({| _arm_weight_table := _arm_weight_table self;
        _generator_run_type := _generator_run_type self;
        _time_created := _time_created self;
        _optimization_config := _optimization_config self;
        _search_space := _search_space self;
        _model_predictions := _model_predictions self;
        _best_arm_predictions := _best_arm_predictions self;
        _index := Some index;
        _fit_time := _fit_time self;
        _gen_time := _gen_time self;
        _model_key := _model_key self;
        _model_kwargs := _model_kwargs self;
        _bridge_kwargs := _bridge_kwargs self;
        _gen_metadata := _gen_metadata self;
        _model_state_after_gen := _model_state_after_gen self;
        _candidate_metadata_by_arm_signature :=
          _candidate_metadata_by_arm_signature self;
        _generation_step_index := _generation_step_index self |},
     Ok ()).

(** *** [clone]

    The arguments of the constructor call are evaluated first, in order;
    then the fields assigned after it.  [self.weights[:]] is never [None]. *)
Definition clone (h : heap Arm) (now : datetime) (self : GeneratorRun)
    : heap Arm * result GeneratorRun :=
  let cand_metadata := candidate_metadata_by_arm_signature self in
  let '(h1, oc) := copy_opt object_clone h (optimization_config self) in
  let '(h2, ss) := copy_opt object_clone h1 (search_space self) in
  let '(h3, mp) := copy_opt deepcopy h2 (model_predictions self) in
  let '(h4, bp) := copy_opt deepcopy h3 (best_arm_predictions self) in
  match __init__ h4 now
          {| arg_arms := Arm_clone <$> arms self;
             arg_weights := Some (weights self);
             arg_optimization_config := oc;
             arg_search_space := ss;
             arg_model_predictions := mp;
             arg_best_arm_predictions := bp;
             arg_type := generator_run_type self;
             arg_fit_time := fit_time self;
             arg_gen_time := gen_time self;
             arg_model_key := _model_key self;
             arg_model_kwargs := _model_kwargs self;
             arg_bridge_kwargs := _bridge_kwargs self;
             arg_gen_metadata := _gen_metadata self;
             arg_model_state_after_gen := _model_state_after_gen self;
             arg_generation_step_index := _generation_step_index self;
             arg_candidate_metadata_by_arm_signature := cand_metadata |} with
  | Raise e => (h4, Raise e)
  | Ok generator_run =>
      let '(h5, mk) := copy_opt dict_copy h4 (_model_kwargs self) in
      let '(h6, bk) := copy_opt dict_copy h5 (_bridge_kwargs self) in
      let '(h7, ms) := copy_opt dict_copy h6 (_model_state_after_gen self) in
      (h7,
       Ok {| _arm_weight_table := _arm_weight_table generator_run;
             _generator_run_type := _generator_run_type generator_run;
             _time_created := _time_created self;
             _optimization_config := _optimization_config generator_run;
             _search_space := _search_space generator_run;
             _model_predictions := _model_predictions generator_run;
             _best_arm_predictions := _best_arm_predictions generator_run;
             _index := _index self;
             _fit_time := _fit_time generator_run;
             _gen_time := _gen_time generator_run;
             _model_key := _model_key self;
             _model_kwargs := mk;
             _bridge_kwargs := bk;
             _gen_metadata := _gen_metadata generator_run;
             _model_state_after_gen := ms;
             _candidate_metadata_by_arm_signature :=
               _candidate_metadata_by_arm_signature generator_run;
             _generation_step_index :=
               _generation_step_index generator_run |})
  end.

Definition _unique_id (self : GeneratorRun) : result string :=
  match index self with
  | Some i => Ok (str_of_int i)
  | None =>
      match _generation_step_index self with
      | Some i => Ok (str_of_int i)
      | None =>
          Raise (ValueError
            "GeneratorRuns only have a unique id if attached to a Trial or GenerationStrategy.")
      end
  end.

(** *** The public operations, one call at a time

    A call runs on the store and the object and leaves both as the body
    of the operation leaves them: a property reads, [clone] allocates the
    copies, the [index] setter assigns [_index]. *)
Inductive call : Type :=
  | get_arms | get_arm_signatures | get_weights | get_arm_weights
  | get_generator_run_type | get_time_created | get_index
  | get_optimization_config | get_search_space | get_model_predictions
  | get_fit_time | get_gen_time | get_model_predictions_by_arm
  | get_best_arm_predictions | get_gen_metadata
  | get_candidate_metadata_by_arm_signature | get_param_df
  | get_unique_id
  | call_clone (now : datetime)
  | assign_index (i : Z).

Inductive returned : Type :=
  | RArms (l : list Arm)
  | RSignatures (l : list string)
  | RWeights (l : list float)
  | RArmWeights (d : list (Arm * float))
  | ROptStr (s : option string)
  | RTime (t : datetime)
  | ROptInt (i : option Z)
  | ROptRef (r : option loc)
  | ROptFloat (f : option float)
  | RPredictionsByArm (r : result (option (list (string * TModelPredictArm))))
  | RParamDf (d : list (string * list (string * cell)))
  | RUniqueId (r : result string)
  | RClone (r : result GeneratorRun)
  | RAssigned (r : result unit).

Definition exec (c : call) (st : heap Arm * GeneratorRun)
    : (heap Arm * GeneratorRun) * returned :=
  let '(h, self) := st in
  match c with
  | get_arms => (st, RArms (arms self))
  | get_arm_signatures => (st, RSignatures (arm_signatures self))
  | get_weights => (st, RWeights (weights self))
  | get_arm_weights => (st, RArmWeights (arm_weights self))
  | get_generator_run_type => (st, ROptStr (generator_run_type self))
  | get_time_created => (st, RTime (time_created self))
  | get_index => (st, ROptInt (index self))
  | get_optimization_config => (st, ROptRef (optimization_config self))
  | get_search_space => (st, ROptRef (search_space self))
  | get_model_predictions => (st, ROptRef (model_predictions self))
  | get_fit_time => (st, ROptFloat (fit_time self))
  | get_gen_time => (st, ROptFloat (gen_time self))
  | get_model_predictions_by_arm =>
      (st, RPredictionsByArm (model_predictions_by_arm h self))
  | get_best_arm_predictions => (st, ROptRef (best_arm_predictions self))
  | get_gen_metadata => (st, ROptRef (gen_metadata self))
  | get_candidate_metadata_by_arm_signature =>
      (st, ROptRef (candidate_metadata_by_arm_signature self))
  | get_param_df => (st, RParamDf (param_df self))
  | get_unique_id => (st, RUniqueId (_unique_id self))
  | call_clone now =>
      let '(h', r) := clone h now self in ((h', self), RClone r)
  | assign_index i =>
      let '(self', r) := set_index self i in ((h, self'), RAssigned r)
  end.

Definition run (cs : list call) (st : heap Arm * GeneratorRun)
    : heap Arm * GeneratorRun :=
  foldl (λ st c, (exec c st).1) st cs.

(** [self] with the index [idx]: what a public call can make of a run. *)
Definition with_index (self : GeneratorRun) (idx : option Z) : GeneratorRun :=
  {| _arm_weight_table := _arm_weight_table self;
     _generator_run_type := _generator_run_type self;
     _time_created := _time_created self;
     _optimization_config := _optimization_config self;
     _search_space := _search_space self;
     _model_predictions := _model_predictions self;
     _best_arm_predictions := _best_arm_predictions self;
     _index := idx;
     _fit_time := _fit_time self;
     _gen_time := _gen_time self;
     _model_key := _model_key self;
     _model_kwargs := _model_kwargs self;
     _bridge_kwargs := _bridge_kwargs self;
     _gen_metadata := _gen_metadata self;
     _model_state_after_gen := _model_state_after_gen self;
     _candidate_metadata_by_arm_signature :=
       _candidate_metadata_by_arm_signature self;
     _generation_step_index := _generation_step_index self |}.

(** *** The arm table as the specification words it *)

(** The distinct elements in the order of their first occurrence. *)
Fixpoint first_occurrences (l : list string) : list string :=
  match l with
  | [] => []
  | x :: l' => x :: filter (λ y, y ≠ x) (first_occurrences l')
  end.

(** The input weights of the arms with signature [s], in input order. *)
Definition weights_of (s : string) (aws : list (Arm * float)) : list float :=
  (filter (λ aw, signature aw.1 = s) aws).*2.

(** Their sum, added up from the left as the constructor does. *)
Definition float_sum (ws : list float) : float :=
  match ws with
  | [] => float_of_Z 0
  | w :: ws' => foldl float_add w ws'
  end.

(** What the specification lists as the reasons for [__init__] to fail:
    the first four, and the fifth. *)
Definition invalid_argument (h : heap Arm) (a : InitArgs) : Prop :=
  length (default_weights (arg_arms a) (arg_weights a)) ≠ length (arg_arms a)
  ∨ (arg_model_kwargs a = None ∧ arg_bridge_kwargs a ≠ None
     ∨ arg_model_kwargs a ≠ None ∧ arg_bridge_kwargs a = None)
  ∨ ((arg_model_kwargs a ≠ None ∨ arg_bridge_kwargs a ≠ None)
     ∧ arg_model_key a = None)
  ∨ (∃ l k, arg_candidate_metadata_by_arm_signature a = Some l
            ∧ k ∈ od_keys (heap_dict h l)
            ∧ k ∉ signature <$> arg_arms a).

Definition negative_step_index (a : InitArgs) : Prop :=
  ∃ i, arg_generation_step_index a = Some i ∧ i < 0.

(** The table after the arms [aws]: its keys are the signatures in
    order of first occurrence, and the entry of a signature holds an arm
    with that signature and the sum of its weights. *)
Definition table_of (aws : list (Arm * float))
    (T : list (string * ArmWeight)) : Prop :=
  od_keys T = first_occurrences (signature <$> aws.*1) ∧
  ∀ k cw, (k, cw) ∈ T →
    signature (arm cw) = k ∧ weight cw = float_sum (weights_of k aws).

(** How a call of [__init__] ends. *)
Inductive ending : Type := Built | RaisedValueError | RaisedAssertionError
  | RaisedOther.

Definition init_ending (r : result GeneratorRun) : ending :=
  match r with
  | Ok _ => Built
  | Raise (ValueError _) => RaisedValueError
  | Raise AssertionError => RaisedAssertionError
  | Raise _ => RaisedOther
  end.

Definition unknown_candidate_keys (h : heap Arm) (a : InitArgs) : bool :=
  match arg_candidate_metadata_by_arm_signature a with
  | None => false
  | Some l =>
      negb (bool_decide
        (filter (λ k, k ∉ table_signatures
                          (build_table (arg_arms a)
                             (default_weights (arg_arms a) (arg_weights a))))
           (od_keys (heap_dict h l)) = []))
  end.

Definition init_checks (h : heap Arm) (a : InitArgs) : ending :=
  if negb (length (arg_arms a)
           =? length (default_weights (arg_arms a) (arg_weights a)))%nat
  then RaisedValueError
  else if (negb (is_none (arg_bridge_kwargs a))
           || negb (is_none (arg_model_kwargs a)))
          && (is_none (arg_model_key a) || is_none (arg_bridge_kwargs a)
              || is_none (arg_model_kwargs a))
  then RaisedValueError
  else if unknown_candidate_keys h a then RaisedValueError
  else match arg_generation_step_index a with
       | Some i => if 0 <=? i then Built else RaisedAssertionError
       | None => Built
       end.

End generator_run.
End generator_run.

(** ** ax/service/utils/report_utils.py: the suffix resolver *)

Module report_utils.

(** [delim.join(input_str.split(delim)[-n_chunks:])], for a non-empty
    [delim]. *)
Definition suffix_chunks (input_str delim : string) (n_chunks : Z) : string :=
  str_join delim (slice_from (- n_chunks) (str_split delim input_str)).

Definition _get_suffix (input_str delim : string) (n_chunks : Z)
    : result string :=
  if decide (delim = "") then Raise (ValueError "empty separator")
  else Ok (suffix_chunks input_str delim n_chunks).

(** One pass of the inner [for suffix, suffix_str_list in
    suffix_dict.items()] loop: the state is [(new_dict, all_unique)].
    [new_dict[suffix] = suffix_str_list] makes the two dictionaries share
    the list; taking it as a value loses nothing, for a list is appended
    to only through [new_dict], after its entry of [suffix_dict] has
    been read. *)
Definition regroup_entry (delim : string) (i : Z)
    (st : list (string * list string) * bool)
    (entry : string * list string) : list (string * list string) * bool :=
  let '(new_dict, all_unique) := st in
  let '(suffix, suffix_str_list) := entry in
  if (1 <? length suffix_str_list)%nat then
    (foldl (λ nd istr, dd_append (suffix_chunks istr delim i) istr nd)
       new_dict suffix_str_list,
     false)
  else (od_set suffix suffix_str_list new_dict, all_unique).

(** The dict comprehension [{suffix_str_list[0]: suffix for ...}]. *)
Fixpoint invert_singletons (items : list (string * list string))
    (acc : list (string * string)) : result (list (string * string)) :=
  match items with
  | [] => Ok acc
  | (suffix, suffix_str_list) :: items' =>
      match suffix_str_list with
      | [] => Raise IndexError
      | istr :: _ => invert_singletons items' (od_set istr suffix acc)
      end
  end.

(** The outer [for i in range(2, max_chunks + 2)] loop over the values of
    [i] still to come.  [None] means the loop was left without a
    [return] (exhausted, or by [break]). *)
Fixpoint resolve_loop (input_str_list : list string) (delim : string)
    (rounds : list Z) (suffix_dict : list (string * list string))
    : option (result (list (string * string))) :=
  match rounds with
  | [] => None
  | i :: rounds' =>
      let '(new_dict, all_unique) :=
        foldl (regroup_entry delim i) ([], true) suffix_dict in
      if all_unique then
        if negb (count_distinct input_str_list =? length (od_keys suffix_dict))%nat
        then None
        else Some (invert_singletons suffix_dict [])
      else resolve_loop input_str_list delim rounds' new_dict
  end.

(** [range(lo, hi)]. *)
Definition py_range (lo hi : Z) : list Z :=
  (λ k : nat, lo + Z.of_nat k) <$> seq 0 (Z.to_nat (hi - lo)).

(** [max(...)] of a generator of ints; empty raises [ValueError]. *)
Definition py_max (l : list Z) : result Z :=
  match l with
  | [] => Raise (ValueError "max() arg is an empty sequence")
  | x :: l' => Ok (foldl Z.max x l')
  end.

Definition identity_dict (input_str_list : list string) : list (string * string) :=
  foldl (λ acc istr, od_set istr istr acc) [] input_str_list.

Definition _get_shortest_unique_suffix_dict (input_str_list : list string)
    (delim : string) : result (list (string * string)) :=
  if negb (length input_str_list =? count_distinct input_str_list)%nat
  then Raise AssertionError
  else if decide (delim = "")
  then Raise (ValueError "delim must be a non-empty string.")
  else
    let suffix_dict :=
      foldl (λ d istr, dd_append (suffix_chunks istr delim 1) istr d)
        [] input_str_list in
    max_chunks ← py_max ((λ istr, Z.of_nat (length (str_split delim istr)))
                            <$> input_str_list);
    if max_chunks =? 1 then Ok (identity_dict input_str_list)
    else
      match resolve_loop input_str_list delim (py_range 2 (max_chunks + 2))
              suffix_dict with
      | Some r => r
      | None => Ok (identity_dict input_str_list)
      end.

(** *** Tables, experiments and their collaborators

    A [pd.DataFrame] is its column names and its rows; a row maps column
    names to cells, and a cell it lacks reads as [NaN].  Index labels and
    the logger are not modelled. *)

Record DataFrame : Type := {
  df_columns : list string;
  df_rows : list (list (string * cell));
}.

Definition df_len (df : DataFrame) : nat := length (df_rows df).

(** [df.empty]: no rows or no columns. *)
Definition df_empty (df : DataFrame) : bool :=
  (df_len df =? 0)%nat || (length (df_columns df) =? 0)%nat.

(** [df[name]], one cell per row. *)
Definition df_getitem (df : DataFrame) (name : string) : result (list cell) :=
  if bool_decide (name ∈ df_columns df) then
    Ok ((λ row, default (CFloat float_nan) (od_get name row)) <$> df_rows df)
  else Raise (KeyError name).

(** [df[name] = values] *)
Definition df_setitem (df : DataFrame) (name : string) (values : list cell)
    : DataFrame :=
  {| df_columns := if bool_decide (name ∈ df_columns df) then df_columns df
                   else df_columns df ++ [name];
     df_rows := zip_with (λ row v, od_set name v row) (df_rows df) values |}.

(** [df[mask].head(1)] *)
Definition df_first_where (df : DataFrame) (mask : list bool) : DataFrame :=
  {| df_columns := df_columns df;
     df_rows := take 1 (fst <$> filter (λ rm, snd rm = true)
                                  (zip (df_rows df) mask)) |}.

(** A float column: the pivot of [mean] is one.  A cell that is no
    number reads as missing. *)
Definition cell_float (c : cell) : float :=
  match c with
  | CFloat f => f
  | CInt z => float_of_Z z
  | _ => float_nan
  end.

(** [Series.min()] and [Series.max()]: [NaN] entries are skipped, and
    the result is [NaN] when nothing is left. *)
Definition series_extremum (better : float → float → bool)
    (values : list float) : float :=
  match filter (λ x, float_is_nan x = false) values with
  | [] => float_nan
  | x :: xs => foldl (λ best y, if better y best then y else best) x xs
  end.
Definition series_min : list float → float := series_extremum float_ltb.
Definition series_max : list float → float :=
  series_extremum (λ y best, float_ltb best y).

Record Metric : Type := { metric_name : string; lower_is_better : option bool }.

#[global] Instance Metric_eq_dec : EqDecision Metric.
Proof. solve_decision. Defined.

(** [Objective] and its two subclasses. *)
Inductive objective_t : Type :=
  | Objective (metric : Metric) (minimize : bool)
  | MultiObjective (metrics : list Metric) (minimize : bool)
  | ScalarizedObjective (metrics : list Metric) (weights : list float)
      (minimize : bool).

Record OptimizationConfig : Type := { objective : objective_t }.

(** What the two files take from [ax.utils.common.typeutils], pandas and
    the plotting modules, none of which is part of them: [not_none] and
    [checked_cast] raise on a [None] or on a value of another class; the
    pandas operations of [exp_to_df]; the plot constructors. *)
Class Collaborators : Type := {
  not_none_error : exn;
  checked_cast_error : exn;
  (* pandas *)
  series_astype_str : DataFrame → string → result (list string);
  df_pivot_reset_index : DataFrame → string → string → string → result DataFrame;
  df_select_drop_duplicates : DataFrame → list string → result DataFrame;
  pd_merge : DataFrame → DataFrame → string → result DataFrame;
  pd_DataFrame : list (list (string * cell)) → DataFrame;
  df_drop : DataFrame → string → result DataFrame;
  df_sort_values : DataFrame → list string → result DataFrame;
  (* plotly and the model bridge *)
  Figure : Type;
  ModelBridge : Type;
  optimization_trace_single_method_plotly :
    list (list cell) → string → string → list Z → option string → bool → Figure;
  plot_slice_plotly :
    ModelBridge → string → string → list string → result Figure;
  interact_contour_plotly : ModelBridge → string → result Figure;
}.

Section experiments.
  Import generator_run.
Context `{ArmClass} `{Collaborators}.

Definition not_none {A} (x : option A) : result A :=
  match x with
  | Some a => Ok a
  | None => Raise not_none_error
  end.

Record SearchSpace : Type := { range_parameters : list (string * (float * float)) }.

(** A trial; [is_Trial] is [isinstance(t, Trial)], and [has_generator_run]
    whether [t.generator_run] is set. *)
Record BaseTrial : Type := {
  trial_index : Z;
  status_name : string;
  run_metadata : list (string * cell);
  is_Trial : bool;
  has_generator_run : bool;
}.

Record Experiment : Type := {
  is_MultiTypeExperiment : bool;
  optimization_config : option OptimizationConfig;
(** [exp.fetch_data(metrics, **kwargs).df] *)
  fetch_data : option (list Metric) → DataFrame;
  search_space : SearchSpace;
  trials : list (Z * BaseTrial);
  arms_by_name : list (string * Arm);
}.

Record GenerationStrategy : Type := {
  model_transitions : list Z;
  model : option ModelBridge;
}.

Definition _get_objective_trace_plot (experiment : Experiment)
    (metric_name : string) (model_transitions : list Z)
    (optimization_direction : option string) : result (option Figure) :=
  mean ← df_getitem (fetch_data experiment None) "mean";
  Ok (Some (optimization_trace_single_method_plotly [mean]
              "Best objective found vs. # of iterations" metric_name
              model_transitions optimization_direction true)).

(** The keys of [generator_runs_dict]: [str(t.index)] for every trial,
    after the cast to [Trial] and the check that it has a generator run. *)
Definition generator_run_keys (trials : list (Z * BaseTrial))
    : result (list string) :=
  map_result (λ '(_, t),
      _ ← raise_if (negb (is_Trial t)) checked_cast_error;
      _ ← raise_if (negb (has_generator_run t)) not_none_error;
      Ok (str_of_int (trial_index t))) trials.

Definition _get_objective_v_param_plot (search_space : SearchSpace)
    (model : ModelBridge) (metric_name : string)
    (trials : list (Z * BaseTrial)) : result (option Figure) :=
  let range_params := od_keys (range_parameters search_space) in
  match range_params with
  | [param_name] =>
      keys ← generator_run_keys trials;
      fig ← plot_slice_plotly model param_name metric_name keys;
      Ok (Some fig)
  | _ :: _ :: _ =>
      fig ← interact_contour_plotly model metric_name;
      Ok (Some fig)
  | [] => Ok None
  end.

Definition objective_metric (o : objective_t) : option Metric :=
  match o with
  | Objective metric _ => Some metric
  | _ => None
  end.

Definition objective_minimize (o : objective_t) : bool :=
  match o with
  | Objective _ minimize => minimize
  | MultiObjective _ minimize => minimize
  | ScalarizedObjective _ _ minimize => minimize
  end.

(** [[x for x in l if x is not None]] *)
Definition not_none_items {A} (l : list (option A)) : list A :=
  omap (M := list) id l.

Definition get_standard_plots (experiment : Experiment)
    (generation_strategy : GenerationStrategy) : result (list Figure) :=
  oc ← not_none (optimization_config experiment);
  match objective oc with
  | MultiObjective _ _ => Ok []
  | ScalarizedObjective _ _ _ => Ok []
  | Objective metric minimize =>
      if df_empty (fetch_data experiment None) then Ok []
      else
        trace ← _get_objective_trace_plot experiment (metric_name metric)
                  (model_transitions generation_strategy)
                  (Some (if minimize then "minimize" else "maximize"));
        let output_plot_list : list (option Figure) := [trace] in
        let after_try : result (list (option Figure)) :=
          match (m ← not_none (model generation_strategy);
                 _get_objective_v_param_plot (search_space experiment) m
                   (metric_name metric) (trials experiment)) with
          | Ok plot => Ok (output_plot_list ++ [plot])
          | Raise NotImplementedError => Ok output_plot_list
          | Raise e => Raise e
          end in
        output_plot_list ← after_try;
        Ok (not_none_items output_plot_list)
  end.

(** [prep_return] of [exp_to_df] *)
Definition prep_return (df : DataFrame) (drop_col : string)
    (sort_by : list string) : result DataFrame :=
  dropped ← df_drop df drop_col;
  df_sort_values dropped sort_by.

(** [[d[key] for key in exp_df.trial_index]] for a dictionary keyed by
    trial index. *)
Definition by_trial_index {A} (d : list (Z * A)) (wrap : A → cell)
    (exp_df : DataFrame) : result (list cell) :=
  idx ← df_getitem exp_df "trial_index";
  map_result (λ key,
      match key with
      | CInt z =>
          match od_get z d with
          | Some v => Ok (wrap v)
          | None => Raise (KeyError (str_of_int z))
          end
      | _ => Raise (KeyError "trial_index")
      end) idx.

(** One round of [for field in run_metadata_fields]. *)
Definition add_run_metadata_field (trials : list (Z * BaseTrial))
    (exp_df : DataFrame) (field : string) : result DataFrame :=
  let trial_to_metadata_field :=
    foldl (λ d '(index, trial),
             od_set index (default CNone (od_get field (run_metadata trial))) d)
      [] trials in
  if existsb cell_truthy (od_values trial_to_metadata_field) then
    col ← by_trial_index trial_to_metadata_field id exp_df;
    Ok (df_setitem exp_df field col)
  else Ok exp_df.

(** [exp_to_df].  [run_metadata_fields] has its annotated type, so the
    check that it is a list cannot fail. *)
Definition exp_to_df (exp : Experiment) (metrics : option (list Metric))
    (key_components : option (list string))
    (run_metadata_fields : option (list string)) : result DataFrame :=
  let key_components :=
    match key_components with
    | Some (k :: ks) => k :: ks
    | _ => ["trial_index"; "arm_name"]
    end in
  _ ← raise_if (is_MultiTypeExperiment exp)
        (ValueError "Cannot transform MultiTypeExperiments to DataFrames.");
  let results := fetch_data exp metrics in
  if (df_len results =? 0)%nat then Ok results
  else
    let key_col := str_join "-" key_components in
    first ← list_getitem key_components 0;
    key_vals ← series_astype_str results first;
    key_vals ←
      foldl (λ acc key,
               key_vals ← acc;
               col ← series_astype_str results key;
               Ok (zip_with String.append key_vals col))
        (Ok key_vals) (drop 1 key_components);
    let results := df_setitem results key_col (CStr <$> key_vals) in
    metric_vals ← df_pivot_reset_index results key_col "metric_name" "mean";
    metadata ← df_select_drop_duplicates results (key_components ++ [key_col]);
    metric_and_metadata ← pd_merge metric_vals metadata key_col;
    let arm_names_and_params :=
      pd_DataFrame ((λ '(name, arm), ("arm_name", CStr name) :: parameters arm)
                      <$> arms_by_name exp) in
    exp_df ← pd_merge metric_and_metadata arm_names_and_params "arm_name";
    let trial_to_status :=
      foldl (λ d '(index, trial), od_set index (status_name trial) d)
        [] (trials exp) in
    statuses ← by_trial_index trial_to_status CStr exp_df;
    let exp_df := df_setitem exp_df "trial_status" statuses in
    match run_metadata_fields with
    | None => prep_return exp_df key_col key_components
    | Some fields =>
        exp_df ←
          foldl (λ acc field,
                   exp_df ← acc;
                   add_run_metadata_field (trials exp) exp_df field)
            (Ok exp_df) fields;
        prep_return exp_df key_col key_components
    end.

(** The last lines of [get_best_trial]: the row of [trials_df] picked for
    the objective. *)
Definition best_row (trials_df : DataFrame) (metric_name : string)
    (minimize : bool) : result DataFrame :=
  column ← df_getitem trials_df metric_name;
  let values := cell_float <$> column in
  let metric_optimum :=
    if minimize then series_min values else series_max values in
  Ok (df_first_where trials_df ((λ v, float_eqb v metric_optimum) <$> values)).

(** [get_best_trial].  [additional_metrics] is the caller's list, which
    the function may append to: the first component of the result is that
    list after the call. *)
Definition get_best_trial (exp : Experiment)
    (additional_metrics : option (list Metric))
    (key_components : option (list string))
    (run_metadata_fields : option (list string))
    : option (list Metric) * result (option DataFrame) :=
  match not_none (optimization_config exp) with
  | Raise e => (additional_metrics, Raise e)
  | Ok oc =>
      match objective oc with
      | MultiObjective _ _ => (additional_metrics, Ok None)
      | ScalarizedObjective _ _ _ => (additional_metrics, Ok None)
      | Objective metric minimize =>
          let additional_metrics :=
            match additional_metrics with
            | Some l =>
                if bool_decide (metric ∉ l) then Some (l ++ [metric])
                else Some l
            | None => None
            end in
          (additional_metrics,
           trials_df ← exp_to_df exp additional_metrics key_components
                         run_metadata_fields;
           if (df_len trials_df =? 0)%nat then Ok None
           else
             best ← best_row trials_df (metric_name metric) minimize;
             Ok (Some best))
      end
  end.

End experiments.

(** *** The resolver as the specification words it

    "the shortest trailing suffix (counted in delimiter-separated chunks,
    minimum 1 chunk) that uniquely identifies it among all inputs, using
    the number of chunks in the longest input string as an upper bound,
    falling back to the full original string". *)

(** The [n]-chunk suffix of [s] identifies [s]: no other input has it as
    its own [n]-chunk suffix. *)
Definition identifies (input_str_list : list string) (delim : string)
    (n : Z) (s : string) : bool :=
  forallb (λ t, bool_decide (suffix_chunks t delim n = suffix_chunks s delim n
                             → t = s))
    input_str_list.

(** The least [n] in [a, a + fuel) at which [s] is identified. *)
Fixpoint find_level (input_str_list : list string) (delim : string)
    (s : string) (fuel : nat) (a : Z) : option Z :=
  match fuel with
  | O => None
  | S fuel' =>
      if identifies input_str_list delim a s then Some a
      else find_level input_str_list delim s fuel' (a + 1)
  end.

Definition longest_chunk_count (input_str_list : list string)
    (delim : string) : Z :=
  foldr Z.max 0 ((λ istr, Z.of_nat (length (str_split delim istr)))
                   <$> input_str_list).

Definition shortest_unique_suffix (input_str_list : list string)
    (delim : string) (s : string) : string :=
  match find_level input_str_list delim s
          (Z.to_nat (longest_chunk_count input_str_list delim)) 1 with
  | Some n => suffix_chunks s delim n
  | None => s
  end.

(** The table of round [j] keeps [s] under its [level_at j]-chunk
    suffix: the first level below [j] that identifies it, else [j]. *)
Definition level_at (input_str_list : list string) (delim : string)
    (j : Z) (s : string) : Z :=
  default j (find_level input_str_list delim s (Z.to_nat (j - 1)) 1).

Definition label_at (input_str_list : list string) (delim : string)
    (j : Z) (s : string) : string :=
  suffix_chunks s delim (level_at input_str_list delim j s).

(** A table groups the strings [P] by the label [g]. *)
Definition groups_of (g : string → string) (P : list string)
    (d : list (string * list string)) : Prop :=
  (∀ k L, od_get k d = Some L →
     L ≠ [] ∧ NoDup L ∧ ∀ t, t ∈ L ↔ t ∈ P ∧ g t = k)
  ∧ (∀ t, t ∈ P → is_Some (od_get (g t) d)).

(** The table the loop holds in round [j]: the inputs grouped by their
    labels of that round, one key per label. *)
Definition table_at (input_str_list : list string) (delim : string)
    (j : Z) (d : list (string * list string)) : Prop :=
  groups_of (label_at input_str_list delim j) input_str_list d
  ∧ NoDup (od_keys d).

End report_utils.

(** ** Inputs for the examples *)

Module examples.
Import generator_run report_utils.

(** An arm with one integer parameter [x]; its signature is a rendering
    of the parameter, so arms with equal parameters share it whatever
    their names. *)
Record TestArm : Type := { ta_name : string; ta_x : Z }.

#[global] Instance TestArm_eq_dec : EqDecision TestArm.
Proof. solve_decision. Defined.

#[global] Instance test_arms : ArmClass := {|
  Arm := TestArm;
  signature := λ a, "x=" +:+ str_of_int (ta_x a);
  name_or_short_signature := ta_name;
  parameters := λ a, [("x", CInt (ta_x a))];
  Arm_clone := λ a, {| ta_name := ta_name a; ta_x := ta_x a |};
|}.

Definition arm_a : TestArm := {| ta_name := "0_0"; ta_x := 1 |}.
Definition arm_b : TestArm := {| ta_name := "0_1"; ta_x := 2 |}.
Definition arm_a' : TestArm := {| ta_name := "1_0"; ta_x := 1 |}.

(** [GeneratorRun(arms=[a, b, a'], weights=[1.0, 2.0, 3.0])] *)
Definition three_arms : InitArgs :=
  args_of [arm_a; arm_b; arm_a']
    (Some [float_of_Z 1; float_of_Z 2; float_of_Z 3]).

(** [GeneratorRun(arms=[a], generation_step_index=-1)] *)
Definition negative_step : InitArgs :=
  {| arg_arms := [arm_a]; arg_weights := None;
     arg_optimization_config := None; arg_search_space := None;
     arg_model_predictions := None; arg_best_arm_predictions := None;
     arg_type := None; arg_fit_time := None; arg_gen_time := None;
     arg_model_key := None; arg_model_kwargs := None;
     arg_bridge_kwargs := None; arg_gen_metadata := None;
     arg_model_state_after_gen := None;
     arg_generation_step_index := Some (-1);
     arg_candidate_metadata_by_arm_signature := None |}.

(** A store with one dictionary, [{"seed": 7}], and a run that has it as
    its [gen_metadata]:
    [GeneratorRun(arms=[a], gen_metadata=meta, generation_step_index=0)] *)
Definition meta_store : heap Arm := [ODict [("seed", VInt 7)]].
Definition with_gen_metadata : InitArgs :=
  {| arg_arms := [arm_a]; arg_weights := None;
     arg_optimization_config := None; arg_search_space := None;
     arg_model_predictions := None; arg_best_arm_predictions := None;
     arg_type := None; arg_fit_time := None; arg_gen_time := None;
     arg_model_key := None; arg_model_kwargs := None;
     arg_bridge_kwargs := None; arg_gen_metadata := Some 0%nat;
     arg_model_state_after_gen := None;
     arg_generation_step_index := Some 0;
     arg_candidate_metadata_by_arm_signature := None |}.

(** A store with a nested dictionary: [options = {"tol": 1}],
    [model_kwargs = {"depth": 2, "options": options}] and
    [bridge_kwargs = {}], and a run with these kwargs. *)
Definition kwargs_store : heap Arm :=
  [ODict [("tol", VInt 1)];
   ODict [("depth", VInt 2); ("options", VRef 0%nat)];
   ODict []].
Definition with_kwargs : InitArgs :=
  {| arg_arms := [arm_a]; arg_weights := None;
     arg_optimization_config := None; arg_search_space := None;
     arg_model_predictions := None; arg_best_arm_predictions := None;
     arg_type := None; arg_fit_time := None; arg_gen_time := None;
     arg_model_key := Some "Sobol"; arg_model_kwargs := Some 1%nat;
     arg_bridge_kwargs := Some 2%nat; arg_gen_metadata := None;
     arg_model_state_after_gen := None;
     arg_generation_step_index := None;
     arg_candidate_metadata_by_arm_signature := None |}.

(** Stand-ins for pandas and the plotting modules, to run the examples:
    the pivot, the merges, the drop and the sort hand their table on
    unchanged, so the table fetched is the table [exp_to_df] works on. *)
#[global] Instance stand_ins : Collaborators := {|
  not_none_error := ValueError "Argument to `not_none` was None.";
  checked_cast_error := ValueError "Value was not of the expected type.";
  series_astype_str := λ df _, Ok ((λ _, "") <$> df_rows df);
  df_pivot_reset_index := λ df _ _ _, Ok df;
  df_select_drop_duplicates := λ df _, Ok df;
  pd_merge := λ left _ _, Ok left;
  pd_DataFrame := λ rows, {| df_columns := []; df_rows := rows |};
  df_drop := λ df _, Ok df;
  df_sort_values := λ df _, Ok df;
  Figure := string;
  ModelBridge := unit;
  optimization_trace_single_method_plotly := λ _ _ _ _ _ _, "trace";
  plot_slice_plotly := λ _ _ _ _, Ok "slice";
  interact_contour_plotly := λ _ _, Ok "contour";
|}.

Definition loss : Metric := {| metric_name := "loss"; lower_is_better := None |}.
Definition accuracy : Metric :=
  {| metric_name := "accuracy"; lower_is_better := None |}.

Definition trial (i : Z) : BaseTrial :=
  {| trial_index := i; status_name := "COMPLETED"; run_metadata := [];
     is_Trial := true; has_generator_run := true |}.

(** An experiment that minimizes [loss] and whose table has the given
    losses, one trial each. *)
Definition loss_row (i : Z) (v : float) : list (string * cell) :=
  [("trial_index", CInt i); ("arm_name", CStr (str_of_int i +:+ "_0"));
   ("loss", CFloat v)].

Definition loss_table (values : list float) : DataFrame :=
  {| df_columns := ["trial_index"; "arm_name"; "loss"];
     df_rows := imap (λ i v, loss_row (Z.of_nat i) v) values |}.

Definition experiment_with (o : objective_t) (values : list float)
    : Experiment :=
  {| is_MultiTypeExperiment := false;
     optimization_config := Some {| objective := o |};
     fetch_data := λ _, loss_table values;
     search_space := {| range_parameters := [] |};
     trials := imap (λ i _, (Z.of_nat i, trial (Z.of_nat i))) values;
     arms_by_name := [] |}.

Definition no_strategy : GenerationStrategy :=
  {| model_transitions := []; model := None |}.

(** [GeneratorRun(arms=[a, b])] *)
Definition two_arms : InitArgs := args_of [arm_a; arm_b] None.

(** Predictions for two arms: the means of [loss] and its variances. *)
Definition loss_predictions : TModelPredict :=
  ([("loss", [float_of_Z 5; float_of_Z 2])],
   [("loss", [("loss", [float_of_Z 1; float_of_Z 1])])]).

(** A store with these predictions, and a run that has them:
    [GeneratorRun(arms=[a, b], model_predictions=predictions)] *)
Definition predictions_store : heap Arm := [OPredictions loss_predictions].
Definition with_predictions : InitArgs :=
  {| arg_arms := [arm_a; arm_b]; arg_weights := None;
     arg_optimization_config := None; arg_search_space := None;
     arg_model_predictions := Some 0%nat; arg_best_arm_predictions := None;
     arg_type := None; arg_fit_time := None; arg_gen_time := None;
     arg_model_key := None; arg_model_kwargs := None;
     arg_bridge_kwargs := None; arg_gen_metadata := None;
     arg_model_state_after_gen := None;
     arg_generation_step_index := None;
     arg_candidate_metadata_by_arm_signature := None |}.

(** A store with the candidate metadata [{"x=1": None}], and a run that
    has it:
    [GeneratorRun(arms=[a], candidate_metadata_by_arm_signature=meta)] *)
Definition candidate_store : heap Arm := [ODict [("x=1", VNone)]].
Definition with_candidate_metadata : InitArgs :=
  {| arg_arms := [arm_a]; arg_weights := None;
     arg_optimization_config := None; arg_search_space := None;
     arg_model_predictions := None; arg_best_arm_predictions := None;
     arg_type := None; arg_fit_time := None; arg_gen_time := None;
     arg_model_key := None; arg_model_kwargs := None;
     arg_bridge_kwargs := None; arg_gen_metadata := None;
     arg_model_state_after_gen := None;
     arg_generation_step_index := None;
     arg_candidate_metadata_by_arm_signature := Some 0%nat |}.

(** Data as [fetch_data] returns it, one row per trial, and an
    experiment over one range parameter with these data. *)
Definition mean_table (values : list float) : DataFrame :=
  {| df_columns := ["arm_name"; "metric_name"; "mean"; "sem"; "trial_index"];
     df_rows :=
       imap (λ i v, [("arm_name", CStr (str_of_int (Z.of_nat i) +:+ "_0"));
                     ("metric_name", CStr "loss"); ("mean", CFloat v);
                     ("sem", CFloat (float_of_Z 0));
                     ("trial_index", CInt (Z.of_nat i))]) values |}.

Definition plotted_experiment : Experiment :=
  {| is_MultiTypeExperiment := false;
     optimization_config := Some {| objective := Objective loss true |};
     fetch_data := λ _, mean_table [float_of_Z 5; float_of_Z 2];
     search_space :=
       {| range_parameters := [("x", (float_of_Z 0, float_of_Z 1))] |};
     trials := [(0, trial 0); (1, trial 1)];
     arms_by_name := [] |}.

Definition fitted_strategy : GenerationStrategy :=
  {| model_transitions := [1]; model := Some () |}.

(** An experiment whose trials record [retries = 0] in their
    [run_metadata]. *)
Definition retried_trial (i : Z) : BaseTrial :=
  {| trial_index := i; status_name := "COMPLETED";
     run_metadata := [("retries", CInt 0)];
     is_Trial := true; has_generator_run := true |}.

Definition retried_experiment : Experiment :=
  {| is_MultiTypeExperiment := false;
     optimization_config := Some {| objective := Objective loss true |};
     fetch_data := λ _, loss_table [float_of_Z 5; float_of_Z 2];
     search_space := {| range_parameters := [] |};
     trials := [(0, retried_trial 0); (1, retried_trial 1)];
     arms_by_name := [] |}.

End examples.

(** * Proofs *)

(** ** Strings *)

Section strings.
Implicit Types s p sep : string.

Lemma str_app_nil_l s : "" +:+ s = s.
Proof. reflexivity. Qed.

Lemma str_app_cons c s1 s2 : String c s1 +:+ s2 = String c (s1 +:+ s2).
Proof. reflexivity. Qed.

Lemma str_length_app s1 s2 :
  String.length (s1 +:+ s2) = (String.length s1 + String.length s2)%nat.
Proof.
  induction s1 as [|c s1 IH]; [done|].
  rewrite str_app_cons. simpl. by rewrite IH.
Qed.

Lemma strip_prefix_Some p s rest :
  strip_prefix p s = Some rest → s = p +:+ rest.
Proof.
  revert s; induction p as [|a p IH]; intros s; simpl.
  { by intros [= ->]. }
  destruct s as [|b s]; [done|].
  destruct (Ascii.eqb_spec a b) as [->|]; [|done].
  intros H. by rewrite str_app_cons, <-(IH _ H).
Qed.

Lemma str_cut_Some sep s before after :
  str_cut sep s = Some (before, after) → s = before +:+ sep +:+ after.
Proof.
  revert before; induction s as [|c s IH]; intros before; simpl.
  - destruct (strip_prefix sep "") eqn:E; [|done].
    intros [= <- <-]. rewrite str_app_nil_l. by apply strip_prefix_Some.
  - destruct (strip_prefix sep (String c s)) eqn:E.
    + intros [= <- <-]. rewrite str_app_nil_l. by apply strip_prefix_Some.
    + destruct (str_cut sep s) as [[b a]|]; [|done].
      intros [= <- <-]. by rewrite str_app_cons, <-(IH b).
Qed.

Lemma str_cut_shorter sep s before after :
  sep ≠ "" → str_cut sep s = Some (before, after) →
  (String.length after < String.length s)%nat.
Proof.
  intros Hsep H. apply str_cut_Some in H. subst s.
  rewrite !str_length_app. destruct sep; [done | simpl; lia].
Qed.

Lemma split_fuel_nonempty fuel sep s : split_fuel fuel sep s ≠ [].
Proof. destruct fuel; simpl; [done | by repeat case_match]. Qed.

Lemma str_join_cons sep x l :
  l ≠ [] → str_join sep (x :: l) = x +:+ sep +:+ str_join sep l.
Proof. by destruct l. Qed.

(** Joining the chunks of a split gives the string back. *)
Lemma join_split_fuel fuel sep s : str_join sep (split_fuel fuel sep s) = s.
Proof.
  revert s; induction fuel as [|fuel IH]; intros s; simpl; [done|].
  destruct (str_cut sep s) as [[b a]|] eqn:E; [|done].
  rewrite str_join_cons by apply split_fuel_nonempty.
  rewrite IH. symmetry. by apply str_cut_Some.
Qed.

Lemma join_split sep s : str_join sep (str_split sep s) = s.
Proof. apply join_split_fuel. Qed.

(** More fuel than the length of the string changes nothing. *)
Lemma split_fuel_enough fuel sep s :
  sep ≠ "" → (String.length s ≤ fuel)%nat →
  split_fuel fuel sep s = str_split sep s.
Proof.
  intros Hsep. unfold str_split.
  remember (String.length s) as n eqn:Hn.
  assert (String.length s ≤ n)%nat as Hle by lia. clear Hn.
  revert s n Hle. induction fuel as [|fuel IH]; intros s n Hle Hf.
  - assert (n = 0%nat) as -> by lia. done.
  - destruct n as [|n]; simpl.
    + destruct (str_cut sep s) as [[b a]|] eqn:E; [|done].
      apply str_cut_shorter in E; [lia | done].
    + destruct (str_cut sep s) as [[b a]|] eqn:E; [|done].
      pose proof (str_cut_shorter _ _ _ _ Hsep E).
      f_equal. apply IH; lia.
Qed.

(** Every non-empty tail of a split is itself the split of a string. *)
Lemma split_fuel_drop fuel sep s k :
  sep ≠ "" → (String.length s ≤ fuel)%nat →
  (k < length (split_fuel fuel sep s))%nat →
  ∃ s', drop k (split_fuel fuel sep s) = str_split sep s'.
Proof.
  intros Hsep. revert s k. induction fuel as [|fuel IH]; intros s k Hf Hk.
  - simpl in *. assert (k = 0%nat) as -> by lia.
    exists s. simpl. by rewrite <-(split_fuel_enough 0) by done.
  - destruct k as [|k].
    { exists s. rewrite drop_0. by apply split_fuel_enough. }
    simpl in *. destruct (str_cut sep s) as [[b a]|] eqn:E.
    + simpl in *. apply IH; [|lia].
      pose proof (str_cut_shorter _ _ _ _ Hsep E). lia.
    + simpl in Hk. lia.
Qed.

Lemma str_split_drop sep s k :
  sep ≠ "" → (k < length (str_split sep s))%nat →
  ∃ s', drop k (str_split sep s) = str_split sep s'.
Proof. intros. by apply split_fuel_drop. Qed.

Lemma str_split_length_pos sep s : (1 ≤ length (str_split sep s))%nat.
Proof.
  pose proof (split_fuel_nonempty (String.length s) sep s).
  unfold str_split. destruct (split_fuel _ _ _); simpl; [done | lia].
Qed.
End strings.

(** ** Insertion-ordered dictionaries *)

Section odict_lemmas.
Context {K V : Type} `{EqDecision K}.
Implicit Types (k : K) (v : V) (d : list (K * V)).

Lemma od_get_set_eq k v d : od_get k (od_set k v d) = Some v.
Proof.
  induction d as [|[k' v'] d IH]; simpl.
  - by rewrite decide_True.
  - destruct (decide (k' = k)) as [->|Hne]; simpl.
    + by rewrite decide_True.
    + by rewrite decide_False.
Qed.

Lemma od_get_set_ne k k' v d :
  k ≠ k' → od_get k' (od_set k v d) = od_get k' d.
Proof.
  intros Hne. induction d as [|[k0 v0] d IH]; simpl.
  - by rewrite decide_False.
  - destruct (decide (k0 = k)) as [->|Hne0]; simpl.
    + by rewrite !decide_False.
    + by rewrite IH.
Qed.

Lemma od_get_set k k' v d :
  od_get k' (od_set k v d) = if decide (k = k') then Some v else od_get k' d.
Proof.
  destruct (decide (k = k')) as [->|].
  - apply od_get_set_eq.
  - by apply od_get_set_ne.
Qed.

Lemma od_get_None k d : od_get k d = None ↔ k ∉ od_keys d.
Proof.
  unfold od_keys. induction d as [|[k' v'] d IH]; simpl.
  - split; [intros _; apply not_elem_of_nil | done].
  - rewrite not_elem_of_cons. destruct (decide (k' = k)) as [->|Hne].
    + split; [done | by intros [? _]].
    + rewrite IH. split; [by intros ?; split | by intros [_ ?]].
Qed.

Lemma od_get_is_Some k d : is_Some (od_get k d) ↔ k ∈ od_keys d.
Proof.
  rewrite <-not_eq_None_Some, od_get_None.
  destruct (decide (k ∈ od_keys d)); naive_solver.
Qed.

Lemma od_get_elem_of k v d : od_get k d = Some v → (k, v) ∈ d.
Proof.
  induction d as [|[k' v'] d IH]; simpl; [done|].
  destruct (decide (k' = k)) as [->|Hne].
  - intros [= ->]. apply elem_of_cons; by left.
  - intros. apply elem_of_cons; right; by apply IH.
Qed.

Lemma od_elem_of_get k v d :
  NoDup (od_keys d) → (k, v) ∈ d → od_get k d = Some v.
Proof.
  unfold od_keys. induction d as [|[k' v'] d IH]; simpl.
  - by intros _ ?%elem_of_nil.
  - intros [Hk' Hnd]%NoDup_cons [[= -> ->]|Hin]%elem_of_cons.
    + by rewrite decide_True.
    + destruct (decide (k' = k)) as [->|Hne]; [|by apply IH].
      destruct Hk'. apply list_elem_of_fmap. by exists (k, v).
Qed.

Lemma od_keys_set k v d :
  od_keys (od_set k v d)
  = if decide (k ∈ od_keys d) then od_keys d else od_keys d ++ [k].
Proof.
  unfold od_keys. induction d as [|[k' v'] d IH].
  - destruct (decide (k ∈ [].*1)) as [Hin|Hin]; [|done].
    by apply elem_of_nil in Hin.
  - cbn [od_set]. destruct (decide (k' = k)) as [->|Hne].
    + rewrite decide_True; [done | apply elem_of_cons; by left].
    + rewrite fmap_cons, IH. destruct (decide (k ∈ d.*1)) as [Hin|Hin].
      * rewrite decide_True; [done | apply elem_of_cons; by right].
      * rewrite decide_False; [done|].
        rewrite fmap_cons, not_elem_of_cons. cbn. naive_solver.
Qed.

Lemma od_keys_set_NoDup k v d :
  NoDup (od_keys d) → NoDup (od_keys (od_set k v d)).
Proof.
  intros Hnd. rewrite od_keys_set. case_decide; [done|].
  apply NoDup_app. split_and!; [done | | apply NoDup_singleton].
  intros x Hx ->%list_elem_of_singleton. done.
Qed.

End odict_lemmas.

(** ** Grouping strings by a label *)

Section groups.
Import report_utils.
Implicit Types (g : string → string) (P L : list string)
  (d : list (string * list string)).

Lemma groups_of_nil g : groups_of g [] [].
Proof.
  split; [done|]. by intros t ?%elem_of_nil.
Qed.

Lemma groups_of_ext g g' P P' d :
  groups_of g P d →
  (∀ t, t ∈ P ↔ t ∈ P') → (∀ t, t ∈ P → g t = g' t) →
  groups_of g' P' d.
Proof.
  intros [H1 H2] HP Hg. split.
  - intros k L HL. destruct (H1 k L HL) as (? & ? & Hm).
    split_and!; [done..|]. intros t. rewrite Hm, <-HP.
    split; intros [Ht <-]; (split; [done|]); [symmetry|]; by apply Hg.
  - intros t Ht%HP. rewrite <-Hg by done. by apply H2.
Qed.

Lemma groups_of_members g P d k :
  groups_of g P d →
  ∀ t, t ∈ default [] (od_get k d) ↔ t ∈ P ∧ g t = k.
Proof.
  intros [H1 H2] t. destruct (od_get k d) as [L|] eqn:E; simpl.
  - by destruct (H1 k L E) as (_ & _ & ?).
  - split; [by intros ?%elem_of_nil|].
    intros [Ht <-]. apply H2 in Ht. rewrite E in Ht. by destruct Ht.
Qed.

Lemma groups_of_members_NoDup g P d k :
  groups_of g P d → NoDup (default [] (od_get k d)).
Proof.
  intros [H1 _]. destruct (od_get k d) as [L|] eqn:E; simpl.
  - by destruct (H1 k L E) as (_ & ? & _).
  - apply NoDup_nil_2.
Qed.

(** [new_dict[g x].append(x)] *)
Lemma groups_of_append g P d x :
  groups_of g P d → x ∉ P →
  groups_of g (P ++ [x]) (dd_append (g x) x d).
Proof.
  intros Hg Hx. pose proof Hg as [H1 H2]. unfold dd_append. split.
  - intros k L. rewrite od_get_set.
    destruct (decide (g x = k)) as [<-|Hne].
    + intros [= <-]. split_and!.
      * by destruct (default [] (od_get (g x) d)).
      * apply NoDup_app. split_and!.
        -- by eapply groups_of_members_NoDup.
        -- intros t Ht ->%list_elem_of_singleton.
           by apply (groups_of_members _ _ _ _ Hg) in Ht as [? _].
        -- apply NoDup_singleton.
      * intros t. rewrite !elem_of_app, !list_elem_of_singleton.
        rewrite (groups_of_members _ _ _ _ Hg). naive_solver.
    + intros HL. destruct (H1 k L HL) as (? & ? & Hm).
      split_and!; [done..|]. intros t.
      rewrite Hm, elem_of_app, list_elem_of_singleton. naive_solver.
  - intros t [Ht| ->%list_elem_of_singleton]%elem_of_app; rewrite od_get_set.
    + case_decide; [done | by apply H2].
    + by rewrite decide_True.
Qed.

Lemma groups_of_foldl_append g f P d L :
  groups_of g P d → NoDup L → (∀ t, t ∈ L → t ∉ P) →
  (∀ t, t ∈ L → f t = g t) →
  groups_of g (P ++ L) (foldl (λ nd istr, dd_append (f istr) istr nd) d L).
Proof.
  revert P d. induction L as [|x L IH]; intros P d Hg Hnd Hdisj Hf; simpl.
  - by rewrite app_nil_r.
  - apply NoDup_cons in Hnd as [Hx Hnd].
    rewrite (assoc_L (++) P [x] L : P ++ x :: L = (P ++ [x]) ++ L).
    apply IH; [|done| |].
    + rewrite Hf by (apply elem_of_cons; by left).
      apply groups_of_append; [done|]. apply Hdisj, elem_of_cons; by left.
    + intros t Ht [HP| ->%list_elem_of_singleton]%elem_of_app; [|done].
      eapply Hdisj; [|done]. apply elem_of_cons; by right.
    + intros t Ht. apply Hf, elem_of_cons; by right.
Qed.

Lemma foldl_dd_append_keys_NoDup (f : string → string) d L :
  NoDup (od_keys d) →
  NoDup (od_keys (foldl (λ nd istr, dd_append (f istr) istr nd) d L)).
Proof.
  revert d. induction L as [|x L IH]; intros d Hd; simpl; [done|].
  apply IH. by apply od_keys_set_NoDup.
Qed.

(** [new_dict[g x] = [x]] when no string met so far has the label of [x] *)
Lemma groups_of_set_single g P d x :
  groups_of g P d → (∀ t, t ∈ P → g t ≠ g x) →
  groups_of g (P ++ [x]) (od_set (g x) [x] d).
Proof.
  intros [H1 H2] Hx. split.
  - intros k L. rewrite od_get_set.
    destruct (decide (g x = k)) as [<-|Hne].
    + intros [= <-]. split_and!; [done | apply NoDup_singleton |].
      intros t. rewrite elem_of_app, !list_elem_of_singleton. naive_solver.
    + intros HL. destruct (H1 k L HL) as (? & ? & Hm).
      split_and!; [done..|]. intros t.
      rewrite Hm, elem_of_app, list_elem_of_singleton. naive_solver.
  - intros t [Ht| ->%list_elem_of_singleton]%elem_of_app; rewrite od_get_set.
    + case_decide; [done | by apply H2].
    + by rewrite decide_True.
Qed.
End groups.

(** ** Suffixes in chunks *)

Section suffix_chunks.
Import report_utils.
Variable delim : string.
Hypothesis delim_nonempty : delim ≠ "".

Lemma slice_from_neg {A} (n : Z) (l : list A) :
  1 ≤ n → slice_from (- n) l = drop (length l - Z.to_nat n) l.
Proof.
  intros Hn. unfold slice_from.
  destruct (Z.ltb_spec (- n) 0); [|lia]. f_equal. lia.
Qed.

Lemma slice_from_neg_all {A} (n : Z) (l : list A) :
  1 ≤ n → Z.of_nat (length l) ≤ n → slice_from (- n) l = l.
Proof.
  intros Hn Hl. rewrite slice_from_neg by done.
  replace (length l - Z.to_nat n)%nat with 0%nat by lia. done.
Qed.

Lemma slice_from_neg_length {A} (n : Z) (l : list A) :
  1 ≤ n → Z.of_nat (length (slice_from (- n) l)) ≤ n.
Proof. intros Hn. rewrite slice_from_neg, length_drop by done. lia. Qed.

Lemma slice_from_neg_twice {A} (c a : Z) (l : list A) :
  1 ≤ c ≤ a → slice_from (- c) (slice_from (- a) l) = slice_from (- c) l.
Proof.
  intros Hca. rewrite !slice_from_neg by lia.
  rewrite drop_drop, length_drop. f_equal. lia.
Qed.

(** The chunks of the [n]-chunk suffix are the last [n] chunks. *)
Lemma split_suffix_chunks s n :
  1 ≤ n →
  str_split delim (suffix_chunks s delim n)
  = slice_from (- n) (str_split delim s).
Proof.
  intros Hn. unfold suffix_chunks. rewrite slice_from_neg by done.
  pose proof (str_split_length_pos delim s).
  destruct (str_split_drop delim s (length (str_split delim s) - Z.to_nat n))
    as [s' Hs']; [done | lia |].
  by rewrite Hs', join_split.
Qed.

Lemma suffix_chunks_shorter s c a :
  1 ≤ c ≤ a →
  suffix_chunks (suffix_chunks s delim a) delim c = suffix_chunks s delim c.
Proof.
  intros Hca. unfold suffix_chunks at 1.
  rewrite split_suffix_chunks by lia.
  by rewrite slice_from_neg_twice.
Qed.

Lemma suffix_chunks_longer s c a :
  1 ≤ a ≤ c →
  suffix_chunks (suffix_chunks s delim a) delim c = suffix_chunks s delim a.
Proof.
  intros Hac. unfold suffix_chunks at 1.
  rewrite split_suffix_chunks by lia.
  rewrite slice_from_neg_all; [done | lia |].
  pose proof (slice_from_neg_length a (str_split delim s)). lia.
Qed.

Lemma suffix_chunks_all s n :
  1 ≤ n → Z.of_nat (length (str_split delim s)) ≤ n →
  suffix_chunks s delim n = s.
Proof.
  intros Hn Hl. unfold suffix_chunks.
  by rewrite slice_from_neg_all, join_split.
Qed.
End suffix_chunks.

(** ** The suffix resolver *)

Lemma forallb_false_ex {A} (f : A → bool) (l : list A) :
  forallb f l = false → ∃ x, x ∈ l ∧ f x = false.
Proof.
  induction l as [|x l IH]; simpl; [done|].
  destruct (f x) eqn:E; simpl.
  - intros (y & Hy & Hf)%IH. exists y. split; [|done].
    apply elem_of_cons; by right.
  - intros _. exists x. split; [|done]. apply elem_of_cons; by left.
Qed.

Lemma elem_of_concat {A} (x : A) (ls : list (list A)) :
  x ∈ concat ls ↔ ∃ l, l ∈ ls ∧ x ∈ l.
Proof.
  rewrite list_elem_of_In, in_concat. split.
  - intros (l & ? & ?). exists l. by rewrite !list_elem_of_In.
  - intros (l & ? & ?). exists l. by rewrite <-!list_elem_of_In.
Qed.

Lemma remove_dups_NoDup_id {A} `{EqDecision A} (l : list A) :
  NoDup l → remove_dups l = l.
Proof.
  induction 1 as [|x l Hx _ IH]; simpl; [done|].
  destruct (decide_rel _ x l); [done | by rewrite IH].
Qed.

Lemma py_range_cons lo hi :
  lo < hi → report_utils.py_range lo hi = lo :: report_utils.py_range (lo + 1) hi.
Proof.
  intros Hlt. unfold report_utils.py_range.
  replace (Z.to_nat (hi - lo)) with (S (Z.to_nat (hi - (lo + 1)))) by lia.
  cbn [seq fmap list_fmap]. f_equal; [lia|].
  rewrite <-fmap_S_seq, <-list_fmap_compose.
  apply list_fmap_ext. intros _ k _. simpl. lia.
Qed.

Lemma chunk_count_le_longest (l : list string) (delim t : string) :
  t ∈ l →
  1 ≤ Z.of_nat (length (str_split delim t))
    ≤ report_utils.longest_chunk_count l delim.
Proof.
  unfold report_utils.longest_chunk_count. intros Ht.
  pose proof (str_split_length_pos delim t).
  induction l as [|x l IH]; [by apply elem_of_nil in Ht|].
  cbn [fmap list_fmap foldr].
  apply elem_of_cons in Ht as [->|Ht]; [lia|].
  specialize (IH Ht). lia.
Qed.

Lemma py_max_longest (l : list string) (delim : string) :
  l ≠ [] →
  report_utils.py_max ((λ istr, Z.of_nat (length (str_split delim istr))) <$> l)
  = Ok (report_utils.longest_chunk_count l delim).
Proof.
  unfold report_utils.longest_chunk_count.
  destruct l as [|x l]; [done|]. intros _.
  cbn [fmap list_fmap foldr report_utils.py_max]. f_equal.
  assert (0 ≤ Z.of_nat (length (str_split delim x))) as Hx by lia.
  revert Hx. generalize (Z.of_nat (length (str_split delim x))).
  induction l as [|y l IH]; intros a Ha; cbn [fmap list_fmap foldr foldl]; [lia|].
  rewrite IH by lia. lia.
Qed.

Section resolver.
Import report_utils.
Variable input_str_list : list string.
Variable delim : string.
Hypothesis delim_nonempty : delim ≠ "".
Hypothesis inputs_distinct : NoDup input_str_list.

Local Abbreviation suf n s := (suffix_chunks s delim n).
Local Abbreviation ident := (identifies input_str_list delim).
Local Abbreviation level := (level_at input_str_list delim).
Local Abbreviation label := (label_at input_str_list delim).
Local Abbreviation table := (table_at input_str_list delim).

Lemma identifies_spec n s :
  ident n s = true ↔
  ∀ t, t ∈ input_str_list → suf n t = suf n s → t = s.
Proof.
  unfold identifies. rewrite forallb_forall. split.
  - intros H t Ht%list_elem_of_In. apply H in Ht.
    by apply bool_decide_eq_true in Ht.
  - intros H t Ht%list_elem_of_In. apply bool_decide_eq_true. by apply H.
Qed.

Lemma not_identifies n s :
  ident n s = false →
  ∃ t, t ∈ input_str_list ∧ suf n t = suf n s ∧ t ≠ s.
Proof.
  unfold identifies. intros (t & Ht & Hneg)%forallb_false_ex.
  apply bool_decide_eq_false in Hneg.
  exists t. split; [done|].
  destruct (decide (suf n t = suf n s)); [|naive_solver].
  destruct (decide (t = s)); naive_solver.
Qed.

Lemma identifies_mono a c s :
  1 ≤ a ≤ c → ident a s = true → ident c s = true.
Proof.
  rewrite !identifies_spec. intros Hac H t Ht Heq. apply H; [done|].
  rewrite <-(suffix_chunks_shorter delim delim_nonempty t a c) by done.
  rewrite Heq. by apply suffix_chunks_shorter.
Qed.

Lemma identifies_whole n s :
  1 ≤ n → s ∈ input_str_list →
  (∀ t, t ∈ input_str_list → Z.of_nat (length (str_split delim t)) ≤ n) →
  ident n s = true.
Proof.
  intros Hn Hs Hall. apply identifies_spec. intros t Ht.
  rewrite !suffix_chunks_all by auto. done.
Qed.

Lemma find_level_Some s fuel a n :
  find_level input_str_list delim s fuel a = Some n ↔
  a ≤ n < a + Z.of_nat fuel ∧ ident n s = true ∧
  ∀ m, a ≤ m < n → ident m s = false.
Proof.
  revert a. induction fuel as [|fuel IH]; intros a.
  - simpl. split; [done | lia].
  - cbn [find_level]. destruct (ident a s) eqn:E.
    + split.
      * intros [= <-]. split; [lia|]. split; [done | lia].
      * intros (Hr & Hn & Hm). f_equal.
        destruct (decide (a = n)) as [|Hne]; [done|].
        rewrite Hm in E by lia. done.
    + rewrite IH. split.
      * intros (Hr & Hn & Hm). split; [lia|]. split; [done|].
        intros m Hm'. destruct (decide (m = a)) as [->|]; [done|].
        apply Hm. lia.
      * intros (Hr & Hn & Hm). split; [|split; [done|]].
        -- destruct (decide (a = n)) as [->|]; [congruence | lia].
        -- intros m Hm'. apply Hm. lia.
Qed.

Lemma find_level_None s fuel a :
  find_level input_str_list delim s fuel a = None ↔
  ∀ m, a ≤ m < a + Z.of_nat fuel → ident m s = false.
Proof.
  revert a. induction fuel as [|fuel IH]; intros a.
  - simpl. split; [lia | done].
  - cbn [find_level]. destruct (ident a s) eqn:E.
    + split; [done|]. intros H. rewrite H in E by lia. done.
    + rewrite IH. split.
      * intros H m Hm. destruct (decide (m = a)) as [->|]; [done|].
        apply H. lia.
      * intros H m Hm. apply H. lia.
Qed.

Lemma level_range j s : 1 ≤ j → 1 ≤ level j s ≤ j.
Proof.
  intros Hj. unfold level_at.
  destruct (find_level _ _ _ _ _) as [n|] eqn:E; simpl; [|lia].
  apply find_level_Some in E. lia.
Qed.

Lemma level_below j s : level j s < j → ident (level j s) s = true.
Proof.
  unfold level_at.
  destruct (find_level _ _ _ _ _) as [n|] eqn:E; simpl; [|lia].
  apply find_level_Some in E. naive_solver.
Qed.

Lemma level_least j s m : 1 ≤ m < level j s → ident m s = false.
Proof.
  unfold level_at.
  destruct (find_level _ _ _ _ _) as [n|] eqn:E; simpl.
  - apply find_level_Some in E. naive_solver.
  - intros Hm. eapply find_level_None in E; [done | lia].
Qed.

Lemma level_1 s : level 1 s = 1.
Proof. done. Qed.

Lemma level_succ j s :
  1 ≤ j →
  level (j + 1) s = if ident (level j s) s then level j s else j + 1.
Proof.
  intros Hj. pose proof (level_range j s Hj) as Hr.
  destruct (ident (level j s) s) eqn:E.
  - unfold level_at at 1.
    replace (find_level _ _ _ _ _) with (Some (level j s)); [done|].
    symmetry. apply find_level_Some. split; [lia|]. split; [done|].
    intros m Hm. by apply (level_least j).
  - assert (level j s = j) as Hlj.
    { destruct (decide (level j s = j)) as [|Hne]; [done|].
      rewrite level_below in E by lia. done. }
    unfold level_at at 1.
    replace (find_level _ _ _ _ _) with (@None Z); [done|].
    symmetry. apply find_level_None. intros m Hm.
    destruct (decide (m = j)) as [->|]; [congruence|].
    apply (level_least j). lia.
Qed.

(** A string already identified shares its label with no other one. *)
Lemma label_identified_inj j t t' :
  1 ≤ j → t' ∈ input_str_list → t ∈ input_str_list →
  ident (level j t) t = true → label j t' = label j t → t' = t.
Proof.
  intros Hj Ht' Ht Hid Heq. unfold label_at in Heq.
  pose proof (level_range j t Hj). pose proof (level_range j t' Hj).
  destruct (decide (level j t ≤ level j t')) as [Hle|Hgt].
  - apply (proj1 (identifies_spec _ _) Hid); [done|].
    rewrite <-(suffix_chunks_shorter delim delim_nonempty t'
                 (level j t) (level j t')) by lia.
    rewrite Heq. apply suffix_chunks_longer; [done | lia].
  - assert (ident (level j t') t' = true) as Hid'
      by (apply level_below; lia).
    symmetry. apply (proj1 (identifies_spec _ _) Hid'); [done|].
    rewrite <-(suffix_chunks_shorter delim delim_nonempty t
                 (level j t') (level j t)) by lia.
    rewrite <-Heq. apply suffix_chunks_longer; [done | lia].
Qed.

(** A string not yet identified has company under its label. *)
Lemma label_unidentified j t :
  1 ≤ j → t ∈ input_str_list → ident (level j t) t = false →
  level j t = j ∧
  ∃ t', t' ∈ input_str_list ∧ t' ≠ t ∧ label j t' = label j t.
Proof.
  intros Hj Ht Hid. pose proof (level_range j t Hj).
  assert (level j t = j) as Hlj.
  { destruct (decide (level j t = j)) as [|Hne]; [done|].
    rewrite level_below in Hid by lia. done. }
  split; [done|]. rewrite Hlj in Hid.
  destruct (not_identifies _ _ Hid) as (t' & Ht' & Heq & Hne).
  exists t'. split_and!; [done..|].
  unfold label_at. rewrite Hlj.
  assert (level j t' = j) as ->; [|done].
  pose proof (level_range j t' Hj).
  destruct (decide (level j t' = j)) as [|Hne']; [done|].
  assert (ident j t' = true) as Hid'.
  { apply (identifies_mono (level j t')); [lia|]. apply level_below. lia. }
  destruct Hne. symmetry. by apply (proj1 (identifies_spec _ _) Hid').
Qed.
(** *** One round of regrouping *)

Lemma table_group_multi j d k L t :
  1 ≤ j → table j d → od_get k d = Some L → (1 < length L)%nat → t ∈ L →
  ident (level j t) t = false ∧ label (j + 1) t = suf (j + 1) t.
Proof.
  intros Hj [[H1 _] _] HL Hlen Ht.
  destruct (H1 k L HL) as (_ & Hnd & Hm).
  assert (ident (level j t) t = false) as Hid.
  { destruct (ident (level j t) t) eqn:E; [|done]. exfalso.
    assert (∀ t', t' ∈ L → t' = t) as Hall.
    { intros t' Ht'. apply Hm in Ht' as [? ?]. apply Hm in Ht as [? ?].
      apply (label_identified_inj j); [done..|congruence]. }
    destruct L as [|a [|b L]]; simpl in Hlen; [lia..|].
    assert (a = t) as -> by (apply Hall, elem_of_cons; by left).
    assert (b = t) as ->.
    { apply Hall, elem_of_cons; right. apply elem_of_cons; by left. }
    apply NoDup_cons in Hnd as [Hnot _]. destruct Hnot.
    apply elem_of_cons; by left. }
  split; [done|]. unfold label_at. by rewrite level_succ, Hid.
Qed.

Lemma table_group_single j d k t :
  1 ≤ j → table j d → od_get k d = Some [t] →
  ident (level j t) t = true ∧ label (j + 1) t = k ∧
  ident (level (j + 1) t) t = true.
Proof.
  intros Hj [[H1 _] _] HL.
  destruct (H1 k [t] HL) as (_ & _ & Hm).
  assert (t ∈ input_str_list ∧ label j t = k) as [Ht Hk].
  { apply Hm, elem_of_cons; by left. }
  assert (ident (level j t) t = true) as Hid.
  { destruct (ident (level j t) t) eqn:E; [done|]. exfalso.
    destruct (label_unidentified j t Hj Ht E)
      as (_ & t' & Ht' & Hne & Heq).
    assert (t' ∈ [t]) as Hin by (apply Hm; split; congruence).
    by apply list_elem_of_singleton in Hin. }
  unfold label_at in *. rewrite level_succ, Hid by done. done.
Qed.

Lemma regroup_fold j d rest nd au P :
  1 ≤ j → table j d →
  (∀ k L, (k, L) ∈ rest → od_get k d = Some L) →
  NoDup rest.*1 →
  groups_of (label (j + 1)) P nd → NoDup (od_keys nd) →
  (∀ t, t ∈ P → t ∈ input_str_list ∧ label j t ∉ rest.*1) →
  ∃ nd' au',
    foldl (regroup_entry delim (j + 1)) (nd, au) rest = (nd', au') ∧
    groups_of (label (j + 1)) (P ++ concat rest.*2) nd' ∧
    NoDup (od_keys nd') ∧
    (au' = true ↔
     au = true ∧ ∀ k L, (k, L) ∈ rest → (length L ≤ 1)%nat).
Proof.
  intros Hj Htab. revert nd au P.
  induction rest as [|[k L] rest IH]; intros nd au P Hrest Hkeys Hg Hnd HP.
  { exists nd, au. simpl. rewrite app_nil_r. split_and!; [done..|].
    split; [|by intros [? _]]. intros ->. split; [done|].
    by intros ?? ?%elem_of_nil. }
  simpl in Hkeys. apply NoDup_cons in Hkeys as [Hk Hkeys].
  assert (od_get k d = Some L) as HL
    by (apply Hrest, elem_of_cons; by left).
  pose proof Htab as [[H1 _] _].
  destruct (H1 k L HL) as (Hne & HndL & Hm).
  assert (∀ t, t ∈ L → t ∉ P) as Hdisj.
  { intros t Ht HtP. apply Hm in Ht as [_ Hlab].
    apply HP in HtP as [_ Hnot]. destruct Hnot.
    rewrite Hlab. apply elem_of_cons; by left. }
  assert (∀ k' L', (k', L') ∈ rest → od_get k' d = Some L') as Hrest'.
  { intros k' L' Hin. apply Hrest, elem_of_cons; by right. }
  cbn [foldl regroup_entry]. destruct (Nat.ltb_spec 1 (length L)) as [Hlen|Hlen].
  - (* a shared suffix: its strings move to their next suffix *)
    edestruct (IH (foldl (λ nd0 istr,
                    dd_append (suf (j + 1) istr) istr nd0) nd L) false
                 (P ++ L)) as (nd' & au' & Hfold & Hg' & Hnd' & Hau);
      [done | done | | | |].
    + apply groups_of_foldl_append; [done..|].
      intros t Ht. symmetry.
      by apply (table_group_multi j d k L t).
    + by apply foldl_dd_append_keys_NoDup.
    + intros t [Ht|Ht]%elem_of_app.
      * apply HP in Ht as [? Hnot]. split; [done|].
        intros ?. apply Hnot, elem_of_cons; by right.
      * apply Hm in Ht as [? ->]. done.
    + exists nd', au'. split_and!; [done | | done |].
      * simpl. by rewrite (assoc_L (++)).
      * rewrite Hau. split; [by intros [? _]|].
        intros [_ Hall].
        assert (length L ≤ 1)%nat by (apply (Hall k), elem_of_cons; by left).
        lia.
  - (* a suffix of one string stays *)
    destruct L as [|t [|? ?]]; [done | | simpl in Hlen; lia].
    destruct (table_group_single j d k t Hj Htab HL) as (Hid & Hlab & Hid').
    assert (t ∈ input_str_list) as Ht.
    { apply Hm, elem_of_cons; by left. }
    edestruct (IH (od_set k [t] nd) au (P ++ [t]))
      as (nd' & au' & Hfold & Hg' & Hnd' & Hau); [done | done | | | |].
    + rewrite <-Hlab. apply groups_of_set_single; [done|].
      intros t' Ht' Heq.
      assert (t' = t) as ->.
      { apply (label_identified_inj (j + 1)); [lia | | done..].
        by apply HP in Ht' as [? _]. }
      eapply Hdisj; [|done]. apply elem_of_cons; by left.
    + by apply od_keys_set_NoDup.
    + intros t' [Ht'| ->%list_elem_of_singleton]%elem_of_app.
      * apply HP in Ht' as [? Hnot]. split; [done|].
        intros ?. apply Hnot, elem_of_cons; by right.
      * split; [done|].
        assert (label j t = k) as -> by (apply Hm, elem_of_cons; by left).
        done.
    + exists nd', au'. split_and!; [done | | done |].
      * by rewrite <-(assoc_L (++)) in Hg'.
      * rewrite Hau. split.
        -- intros [? Hall]. split; [done|].
           intros k' L' [[= -> ->]|Hin]%elem_of_cons; [simpl; lia|].
           by apply (Hall k').
        -- intros [? Hall]. split; [done|].
           intros k' L' Hin. apply (Hall k'), elem_of_cons; by right.
Qed.

Lemma regroup_round j d :
  1 ≤ j → table j d →
  ∃ d' au,
    foldl (regroup_entry delim (j + 1)) ([], true) d = (d', au) ∧
    table (j + 1) d' ∧
    (au = true ↔ ∀ k L, (k, L) ∈ d → (length L ≤ 1)%nat).
Proof.
  intros Hj Htab. pose proof Htab as [[H1 H2] Hnd].
  destruct (regroup_fold j d d [] true [] Hj Htab)
    as (d' & au & Hfold & Hg & Hnd' & Hau).
  - intros k L. by apply od_elem_of_get.
  - done.
  - apply groups_of_nil.
  - apply NoDup_nil_2.
  - by intros t ?%elem_of_nil.
  - exists d', au. split_and!; [done | | naive_solver].
    split; [|done]. eapply groups_of_ext; [done | | done].
    intros t. rewrite app_nil_l, elem_of_concat. split.
    + intros (L & (kL & -> & Hin)%list_elem_of_fmap & Ht).
      destruct kL as [k L]. simpl in Ht.
      apply od_elem_of_get in Hin; [|done].
      destruct (H1 k L Hin) as (_ & _ & Hm). by apply Hm in Ht as [? _].
    + intros Ht. destruct (H2 t Ht) as [L HL]. exists L. split.
      * apply list_elem_of_fmap. exists (label j t, L).
        split; [done|]. by apply od_get_elem_of.
      * destruct (H1 _ L HL) as (_ & _ & Hm). by apply Hm.
Qed.

Lemma table_first :
  table 1 (foldl (λ d istr, dd_append (suf 1 istr) istr d)
             [] input_str_list).
Proof.
  split.
  - apply (groups_of_foldl_append (label 1) (λ t, suf 1 t) [] []
             input_str_list); [apply groups_of_nil | done | | done].
    by intros t _ ?%elem_of_nil.
  - apply foldl_dd_append_keys_NoDup, NoDup_nil_2.
Qed.

(** *** When every suffix stands for one string *)

Lemma all_single_lookup j d t :
  1 ≤ j → table j d →
  (∀ k L, (k, L) ∈ d → (length L ≤ 1)%nat) → t ∈ input_str_list →
  od_get (label j t) d = Some [t] ∧ ident (level j t) t = true.
Proof.
  intros Hj Htab Hall Ht. pose proof Htab as [[H1 H2] Hnd].
  destruct (H2 t Ht) as [L HL].
  destruct (H1 _ L HL) as (_ & _ & Hm).
  assert (t ∈ L) as HtL by by apply Hm.
  assert (length L ≤ 1)%nat as Hlen.
  { apply (Hall (label j t)). by apply od_get_elem_of. }
  destruct L as [|t' [|? ?]]; [by apply elem_of_nil in HtL| |simpl in Hlen; lia].
  apply list_elem_of_singleton in HtL as ->. split; [done|].
  by destruct (table_group_single j d _ _ Hj Htab HL) as (? & _ & _).
Qed.

Lemma all_single_keys j d :
  1 ≤ j → table j d →
  (∀ k L, (k, L) ∈ d → (length L ≤ 1)%nat) →
  length (od_keys d) = length input_str_list.
Proof.
  intros Hj Htab Hall. pose proof Htab as [[H1 H2] Hnd].
  rewrite <-(length_fmap (label j) input_str_list).
  apply Permutation_length, NoDup_Permutation; [done | |].
  - apply NoDup_fmap_2_strong; [|done].
    intros x y Hx Hy Heq. apply (label_identified_inj j); [done..| |done].
    by apply (all_single_lookup j d).
  - intros k. rewrite list_elem_of_fmap, <-od_get_is_Some. split.
    + intros [L HL]. destruct (H1 k L HL) as (Hne & _ & Hm).
      destruct L as [|t L]; [done|]. exists t.
      assert (t ∈ input_str_list ∧ label j t = k) as [? ?]
        by (apply Hm, elem_of_cons; by left).
      done.
    + intros (t & -> & Ht). by apply H2.
Qed.

Lemma invert_singletons_spec items acc :
  (∀ k L, (k, L) ∈ items → ∃ t, L = [t]) →
  NoDup (od_keys acc) →
  ∃ m, invert_singletons items acc = Ok m ∧
    NoDup (od_keys m) ∧
    (∀ s, s ∈ od_keys m ↔ s ∈ od_keys acc ∨ ∃ k, (k, [s]) ∈ items) ∧
    (∀ s v, od_get s m = Some v →
       od_get s acc = Some v ∨ (v, [s]) ∈ items).
Proof.
  revert acc. induction items as [|[k L] items IH]; intros acc Hall Hnd.
  - exists acc. simpl. split_and!; [done..| |by left].
    intros s. split; [by left|]. intros [?|[k ?%elem_of_nil]]; done.
  - destruct (Hall k L) as [t ->]; [apply elem_of_cons; by left|].
    cbn [invert_singletons].
    destruct (IH (od_set t k acc)) as (m & Hm & Hnd' & Hkeys & Hget).
    { intros k' L' Hin. apply (Hall k'), elem_of_cons; by right. }
    { by apply od_keys_set_NoDup. }
    exists m. split_and!; [done..| |].
    + intros s. rewrite Hkeys, <-!od_get_is_Some, od_get_set. split.
      * intros [Hs|[k' Hin]].
        -- destruct (decide (t = s)) as [->|]; [|by left].
           right. exists k. apply elem_of_cons; by left.
        -- right. exists k'. apply elem_of_cons; by right.
      * intros [Hs|[k' [[= -> ->]|Hin]%elem_of_cons]].
        -- left. by case_decide.
        -- left. by rewrite decide_True.
        -- right. by exists k'.
    + intros s v [Hs|Hin]%Hget.
      * rewrite od_get_set in Hs. case_decide as Hts; [|by left].
        injection Hs as <-. subst s. right. apply elem_of_cons; by left.
      * right. apply elem_of_cons; by right.
Qed.

Lemma label_shortest j t :
  1 ≤ j ≤ longest_chunk_count input_str_list delim →
  ident (level j t) t = true →
  label j t = shortest_unique_suffix input_str_list delim t.
Proof.
  intros Hj Hid. unfold shortest_unique_suffix, label_at.
  pose proof (level_range j t) as Hr.
  replace (find_level _ _ _ _ _) with (Some (level j t)); [done|].
  symmetry. apply find_level_Some. split; [lia|]. split; [done|].
  intros m Hm. by apply (level_least j).
Qed.

(** *** The loop over the rounds *)

Lemma all_single_at_longest d k L :
  table (longest_chunk_count input_str_list delim) d →
  (k, L) ∈ d → (length L ≤ 1)%nat.
Proof.
  set (M := longest_chunk_count input_str_list delim).
  intros Htab Hin. pose proof Htab as [[H1 _] Hnd].
  apply od_elem_of_get in Hin; [|done].
  destruct (H1 k L Hin) as (Hne & _ & Hm).
  destruct (Nat.le_gt_cases (length L) 1) as [|Hlen]; [done|]. exfalso.
  destruct L as [|t L]; [done|].
  assert (t ∈ input_str_list) as Ht by (apply Hm, elem_of_cons; by left).
  pose proof (chunk_count_le_longest _ delim t Ht) as HM. fold M in HM.
  destruct (table_group_multi M d k (t :: L) t) as [Hid _];
    [lia | done.. | apply elem_of_cons; by left |].
  destruct (label_unidentified M t) as [HlM _]; [lia | done..|].
  rewrite HlM, identifies_whole in Hid; [done | lia | done |].
  intros t' Ht'. by apply chunk_count_le_longest.
Qed.


Lemma resolve_loop_ok (n : nat) j d :
  Z.of_nat n = longest_chunk_count input_str_list delim - j →
  1 ≤ j → table j d →
  ∃ m,
    resolve_loop input_str_list delim
      (py_range (j + 1) (longest_chunk_count input_str_list delim + 2)) d
    = Some (Ok m) ∧
    NoDup (od_keys m) ∧
    (∀ s, s ∈ od_keys m ↔ s ∈ input_str_list) ∧
    (∀ s, s ∈ input_str_list →
       od_get s m = Some (shortest_unique_suffix input_str_list delim s)).
Proof.
  set (M := longest_chunk_count input_str_list delim).
  revert j d. induction n as [|n IH]; intros j d Hn Hj Htab.
  all: rewrite py_range_cons by lia; cbn [resolve_loop].
  all: destruct (regroup_round j d Hj Htab) as (d' & au & -> & Htab' & Hau).
  all: destruct au.
  2:{ (* the last round finds every suffix alone *)
      assert (j = M) as -> by lia.
      assert (false = true) as Habs; [|done].
      apply Hau. intros k L. by apply all_single_at_longest. }
  3:{ replace (j + 1 + 1) with ((j + 1) + 1) by lia.
      apply IH; [lia | lia | done]. }
  all: assert (∀ k L, (k, L) ∈ d → (length L ≤ 1)%nat) as Hall
    by by apply Hau.
  all: unfold count_distinct;
    rewrite remove_dups_NoDup_id, (all_single_keys j d), Nat.eqb_refl
      by done; cbn [negb].
  all: pose proof Htab as [[H1 H2] Hnd].
  all: destruct (invert_singletons_spec d [])
    as (m & -> & Hndm & Hkeys & Hget); [|apply NoDup_nil_2|].
  1,3: intros k L Hin; specialize (Hall k L Hin);
    apply od_elem_of_get in Hin; [|done];
    destruct (H1 k L Hin) as (? & _ & _);
    destruct L as [|t [|? ?]]; [done | by exists t | simpl in Hall; lia].
  all: exists m; split; [done|]; split; [done|].
  all: assert (∀ s, s ∈ od_keys m ↔ s ∈ input_str_list) as Hdom.
  1,3: intros s; rewrite Hkeys; split.
  1,3: intros [?%elem_of_nil|[k Hin]]; [done|];
    apply od_elem_of_get in Hin; [|done];
    destruct (H1 k [s] Hin) as (_ & _ & Hm);
    assert (s ∈ input_str_list ∧ label j s = k) as [? _]
      by (apply Hm, elem_of_cons; by left); done.
  1,2: intros Hs; right; exists (label j s);
    apply od_get_elem_of; by apply all_single_lookup.
  all: split; [done|]; intros s Hs.
  all: destruct (proj2 (od_get_is_Some s m)) as [v Hv]; [by apply Hdom|].
  all: rewrite Hv; f_equal.
  all: destruct (Hget s v Hv) as [?|Hin]; [done|].
  all: apply od_elem_of_get in Hin; [|done].
  all: destruct (H1 v [s] Hin) as (_ & _ & Hm).
  all: assert (s ∈ input_str_list ∧ label j s = v) as [_ <-]
    by (apply Hm, elem_of_cons; by left).
  all: apply label_shortest; [fold M; lia|].
  all: by apply (all_single_lookup j d).
Qed.

Lemma identity_dict_spec (l : list string) (acc : list (string * string)) :
  let m := foldl (λ acc istr, od_set istr istr acc) acc l in
  (NoDup (od_keys acc) → NoDup (od_keys m)) ∧
  (∀ s, s ∈ od_keys m ↔ s ∈ od_keys acc ∨ s ∈ l) ∧
  (∀ s, s ∈ l → od_get s m = Some s) ∧
  (∀ s, s ∉ l → od_get s m = od_get s acc).
Proof.
  revert acc. induction l as [|x l IH]; intros acc; simpl.
  - split_and!; [done | | by intros s ?%elem_of_nil | done].
    intros s. split; [by left|]. by intros [?|?%elem_of_nil].
  - destruct (IH (od_set x x acc)) as (IH1 & IH2 & IH3 & IH4).
    split_and!.
    + intros ?. by apply IH1, od_keys_set_NoDup.
    + intros s. rewrite IH2, elem_of_cons, <-!od_get_is_Some, od_get_set.
      destruct (decide (x = s)) as [->|Hne].
      * split; [intros _; right; by left | intros _; by left].
      * split; [intros [?|?]; [by left | right; by right]|].
        intros [?|[?|?]]; [by left | congruence | by right].
    + intros s [Heq|Hs]%elem_of_cons; [|by apply IH3].
      destruct (decide (s ∈ l)); [by apply IH3|].
      rewrite IH4 by done. subst x. apply od_get_set_eq.
    + intros s [Hne Hs]%not_elem_of_cons.
      by rewrite IH4, od_get_set_ne.
Qed.

(** The resolver returns, and maps every input to the suffix the
    specification describes. *)
Lemma resolver_correct :
  input_str_list ≠ [] →
  ∃ m,
    _get_shortest_unique_suffix_dict input_str_list delim = Ok m ∧
    NoDup (od_keys m) ∧
    (∀ s, s ∈ od_keys m ↔ s ∈ input_str_list) ∧
    (∀ s, s ∈ input_str_list →
       od_get s m = Some (shortest_unique_suffix input_str_list delim s)).
Proof.
  intros Hne. unfold _get_shortest_unique_suffix_dict.
  unfold count_distinct. rewrite remove_dups_NoDup_id, Nat.eqb_refl by done.
  cbn [negb]. rewrite decide_False by done.
  rewrite py_max_longest by done. cbn [mbind result_bind Py.bind].
  set (M := longest_chunk_count input_str_list delim).
  assert (1 ≤ M) as HM.
  { destruct input_str_list as [|x l] eqn:E; [done|].
    pose proof (chunk_count_le_longest (x :: l) delim x) as Hx.
    fold M in Hx.
    specialize (Hx ltac:(apply elem_of_cons; by left)). lia. }
  destruct (Z.eqb_spec M 1) as [HM1|HM1].
  - exists (identity_dict input_str_list). split; [done|].
    destruct (identity_dict_spec input_str_list []) as (I1 & I2 & I3 & I4).
    split_and!.
    + apply I1, NoDup_nil_2.
    + intros s. rewrite I2. split; [|by right].
      by intros [?%elem_of_nil|?].
    + intros s Hs. unfold identity_dict. rewrite I3 by done. f_equal.
      unfold shortest_unique_suffix. fold M. rewrite HM1. simpl.
      rewrite identifies_whole; [|done..|].
      * symmetry. apply suffix_chunks_all; [done..|].
        pose proof (chunk_count_le_longest _ delim s Hs) as Hc.
        fold M in Hc. lia.
      * intros t Ht. pose proof (chunk_count_le_longest _ delim t Ht) as Hc.
        fold M in Hc. lia.
  - destruct (resolve_loop_ok (Z.to_nat (M - 1)) 1
                (foldl (λ d istr, dd_append (suf 1 istr) istr d)
                   [] input_str_list))
      as (m & Hloop & Hm); [fold M; lia | done | apply table_first |].
    fold M in Hloop. replace (1 + 1) with 2 in Hloop by done.
    rewrite Hloop. by exists m.
Qed.
(** The suffix the specification describes is the suffix of the least
    number of chunks that no other input shares. *)
Lemma shortest_unique_suffix_least s :
  s ∈ input_str_list →
  ∃ n, 1 ≤ n ∧
    shortest_unique_suffix input_str_list delim s = suf n s ∧
    (∀ t, t ∈ input_str_list → suf n t = suf n s → t = s) ∧
    (∀ k, 1 ≤ k < n →
       ∃ t, t ∈ input_str_list ∧ t ≠ s ∧ suf k t = suf k s).
Proof.
  intros Hs. unfold shortest_unique_suffix.
  set (M := longest_chunk_count input_str_list delim).
  pose proof (chunk_count_le_longest _ delim s Hs) as HM. fold M in HM.
  assert (ident M s = true) as HidM.
  { apply identifies_whole; [lia | done |].
    intros t Ht. by apply chunk_count_le_longest. }
  destruct (find_level _ _ _ _ _) as [n|] eqn:E.
  - apply find_level_Some in E as (Hr & Hid & Hleast).
    exists n. split; [lia|]. split; [done|]. split.
    + by apply identifies_spec.
    + intros k Hk. destruct (not_identifies k s) as (t & ? & ? & ?); eauto.
  - apply (proj1 (find_level_None _ _ _)) with (m := M) in E; [|lia].
    congruence.
Qed.

(** Read with "identifies" as "is a suffix of no other input": the
    suffix returned is a suffix of no other input, at whatever number of
    chunks; or the input is itself a suffix of another one, no suffix of
    it can tell the two apart, and it is returned whole. *)
Lemma shortest_unique_suffix_strict s n :
  s ∈ input_str_list → 1 ≤ n →
  (∀ t, t ∈ input_str_list → suf n t = suf n s → t = s) →
  (∀ k, 1 ≤ k < n →
     ∃ t, t ∈ input_str_list ∧ t ≠ s ∧ suf k t = suf k s) →
  (∀ t k, t ∈ input_str_list → 1 ≤ k → suf k t = suf n s → t = s)
  ∨ (suf n s = s ∧
     ∃ t k, t ∈ input_str_list ∧ t ≠ s ∧ 1 ≤ k ∧ suf k t = s).
Proof.
  intros Hs Hn Huniq Hleast.
  pose proof (str_split_length_pos delim s) as Hpos.
  destruct (Z.le_gt_cases n (Z.of_nat (length (str_split delim s))))
    as [Hle|Hgt].
  - left. intros t k Ht Hk Heq. apply Huniq; [done|].
    assert (n ≤ k) as Hnk.
    { pose proof (f_equal (λ x, length (str_split delim x)) Heq) as Hlen.
      simpl in Hlen.
      rewrite !(split_suffix_chunks delim delim_nonempty) in Hlen by done.
      rewrite !slice_from_neg, !length_drop in Hlen by done. lia. }
    rewrite <-(suffix_chunks_shorter delim delim_nonempty t n k) by lia.
    rewrite Heq. apply (suffix_chunks_longer delim delim_nonempty); lia.
  - right. split; [apply suffix_chunks_all; lia|].
    destruct (Hleast (Z.of_nat (length (str_split delim s))))
      as (t & Ht & Hne & Heq); [lia|].
    exists t, (Z.of_nat (length (str_split delim s))).
    split_and!; [done | done | lia |].
    rewrite Heq. apply suffix_chunks_all; lia.
Qed.

End resolver.

(** ** The arm table of a generator run *)

Lemma elem_of_first_occurrences (l : list string) x :
  x ∈ generator_run.first_occurrences l ↔ x ∈ l.
Proof.
  induction l as [|y l IH]; simpl; [done|].
  rewrite !elem_of_cons, list_elem_of_filter, IH.
  destruct (decide (x = y)); naive_solver.
Qed.

Lemma NoDup_first_occurrences (l : list string) :
  NoDup (generator_run.first_occurrences l).
Proof.
  induction l as [|y l IH]; simpl; [apply NoDup_nil_2|].
  apply NoDup_cons. split; [|by apply NoDup_filter].
  rewrite list_elem_of_filter. naive_solver.
Qed.

Lemma filter_ne_not_elem (l : list string) x :
  x ∉ l → filter (λ y, y ≠ x) l = l.
Proof.
  induction l as [|y l IH]; [done|].
  intros [Hne Hl]%not_elem_of_cons.
  rewrite filter_cons_True by done. by rewrite IH.
Qed.

Lemma first_occurrences_snoc (l : list string) x :
  generator_run.first_occurrences (l ++ [x])
  = if decide (x ∈ l) then generator_run.first_occurrences l
    else generator_run.first_occurrences l ++ [x].
Proof.
  induction l as [|y l IH].
  { destruct (decide (x ∈ [])) as [Hin|]; [by apply elem_of_nil in Hin|done]. }
  cbn [app generator_run.first_occurrences]. rewrite IH.
  destruct (decide (x ∈ y :: l)) as [Hin|Hin];
    destruct (decide (x ∈ l)) as [Hl|Hl]; try done.
  - apply elem_of_cons in Hin as [->|?]; [|done].
    rewrite filter_app, filter_cons_False, filter_nil, app_nil_r; naive_solver.
  - destruct Hin. apply elem_of_cons; by right.
  - apply not_elem_of_cons in Hin as [Hne _].
    rewrite filter_app, filter_cons_True, filter_nil; naive_solver.
Qed.

Section arm_table.
Import generator_run.
Context `{ArmClass}.
Implicit Types (aws : list (Arm * float)) (T : list (string * ArmWeight)).

Lemma weights_of_snoc s aws a w :
  weights_of s (aws ++ [(a, w)])
  = if decide (signature a = s) then weights_of s aws ++ [w]
    else weights_of s aws.
Proof.
  unfold weights_of. rewrite filter_app, fmap_app.
  destruct (decide (signature a = s)) as [Heq|Hne].
  - by rewrite filter_cons_True, filter_nil.
  - by rewrite filter_cons_False, filter_nil, app_nil_r.
Qed.

Lemma weights_of_nil_iff s aws :
  weights_of s aws = [] ↔ s ∉ signature <$> aws.*1.
Proof.
  unfold weights_of. induction aws as [|[a w] aws IH]; simpl.
  - split; [intros _; apply not_elem_of_nil | done].
  - rewrite not_elem_of_cons. destruct (decide (signature a = s)) as [Heq|Hne].
    + rewrite filter_cons_True by done. simpl.
      split; [done | by intros [? _]].
    + rewrite filter_cons_False by done. rewrite IH. naive_solver.
Qed.

Lemma float_sum_snoc ws w :
  ws ≠ [] → float_sum (ws ++ [w]) = float_add (float_sum ws) w.
Proof.
  destruct ws as [|w0 ws]; [done|]. intros _. simpl.
  by rewrite foldl_app.
Qed.

Lemma table_of_add aws T a w :
  table_of aws T → table_of (aws ++ [(a, w)]) (add_arm T (a, w)).
Proof.
  intros [Hkeys Hval].
  assert (NoDup (od_keys T)) as Hnd
    by (rewrite Hkeys; apply NoDup_first_occurrences).
  assert (∀ k cw, od_get k T = Some cw →
            signature (arm cw) = k ∧ weight cw = float_sum (weights_of k aws))
    as Hget by (intros k cw ?%od_get_elem_of; by apply Hval).
  unfold add_arm. split.
  - rewrite !fmap_app. cbn [fmap list_fmap fst].
    rewrite first_occurrences_snoc.
    destruct (od_get (signature a) T) as [cw|] eqn:E.
    + assert (signature a ∈ od_keys T) as Hin
        by (apply od_get_is_Some; eauto).
      rewrite od_keys_set, decide_True by done.
      rewrite decide_True; [done|].
      apply elem_of_first_occurrences. by rewrite <-Hkeys.
    + apply od_get_None in E.
      rewrite od_keys_set, decide_False by done.
      rewrite decide_False; [by rewrite Hkeys|].
      intros Hin. apply E. rewrite Hkeys.
      by apply elem_of_first_occurrences.
  - intros k cw Hin. rewrite weights_of_snoc.
    assert (od_get k (match od_get (signature a) T with
                      | Some existing_cw =>
                          od_set (signature a)
                            {| arm := a;
                               weight := float_add (weight existing_cw) w |} T
                      | None =>
                          od_set (signature a) {| arm := a; weight := w |} T
                      end) = Some cw) as Hk.
    { apply od_elem_of_get; [|done].
      destruct (od_get (signature a) T); by apply od_keys_set_NoDup. }
    clear Hin. destruct (od_get (signature a) T) as [ecw|] eqn:E;
      rewrite od_get_set in Hk;
      destruct (decide (signature a = k)) as [Heq|Hne]; auto.
    + injection Hk as <-. simpl. split; [done|].
      destruct (Hget _ _ E) as [_ ->]. rewrite <-Heq.
      symmetry. apply float_sum_snoc.
      rewrite weights_of_nil_iff.
      rewrite <-(elem_of_first_occurrences (signature <$> aws.*1)), <-Hkeys.
      intros Hnot. apply Hnot, od_get_is_Some. eauto.
    + injection Hk as <-. simpl. split; [done|].
      rewrite <-Heq.
      replace (weights_of (signature a) aws) with (@nil float); [done|].
      symmetry. apply weights_of_nil_iff.
      rewrite <-(elem_of_first_occurrences (signature <$> aws.*1)), <-Hkeys.
      by apply od_get_None.
Qed.

Lemma table_of_foldl aws0 T aws :
  table_of aws0 T → table_of (aws0 ++ aws) (foldl add_arm T aws).
Proof.
  revert aws0 T. induction aws as [|[a w] aws IH]; intros aws0 T HT; simpl.
  - by rewrite app_nil_r.
  - rewrite (assoc_L (++) aws0 [(a, w)] aws
             : aws0 ++ (a, w) :: aws = (aws0 ++ [(a, w)]) ++ aws).
    by apply IH, table_of_add.
Qed.

Lemma build_table_spec arms ws :
  table_of (zip arms ws) (build_table arms ws).
Proof.
  apply (table_of_foldl [] []). split; [done|].
  by intros k cw ?%elem_of_nil.
Qed.

Lemma table_of_signatures aws T :
  table_of aws T → (λ cw, signature (arm cw)) <$> od_values T = od_keys T.
Proof.
  intros [_ Hval]. unfold od_values, od_keys.
  induction T as [|[k cw] T IH]; [done|]. cbn [fmap list_fmap].
  f_equal.
  - simpl. apply Hval, elem_of_cons; by left.
  - apply IH. intros k' cw' Hin. apply Hval, elem_of_cons; by right.
Qed.

Lemma table_of_weights aws T :
  table_of aws T →
  weight <$> od_values T
  = (λ s, float_sum (weights_of s aws)) <$> od_keys T.
Proof.
  intros [_ Hval]. unfold od_values, od_keys.
  induction T as [|[k cw] T IH]; [done|]. cbn [fmap list_fmap].
  f_equal.
  - simpl. apply Hval, elem_of_cons; by left.
  - apply IH. intros k' cw' Hin. apply Hval, elem_of_cons; by right.
Qed.

(** What a successful [__init__] leaves in the object. *)
Lemma init_Ok_inv h now a gr :
  __init__ h now a = Ok gr →
  length (arg_arms a)
  = length (default_weights (arg_arms a) (arg_weights a)) ∧
  _arm_weight_table gr
  = build_table (arg_arms a) (default_weights (arg_arms a) (arg_weights a)) ∧
  _index gr = None ∧ _time_created gr = now ∧
  _model_key gr = arg_model_key a ∧
  _generation_step_index gr = arg_generation_step_index a.
Proof.
  unfold __init__, raise_if, py_assert.
  destruct (Nat.eqb_spec (length (arg_arms a))
              (length (default_weights (arg_arms a) (arg_weights a))))
    as [Hlen|]; [|done].
  cbn [negb mbind result_bind Py.bind].
  repeat (case_match; cbn [negb mbind result_bind Py.bind]; try done).
  all: by intros [= <-].
Qed.
End arm_table.

(** ** Generator runs: construction, index, identity *)

Section generator_run_claims.
Import generator_run.
Context `{ArmClass}.

Lemma table_signatures_elem arms ws k :
  length arms = length ws →
  k ∈ table_signatures (build_table arms ws) ↔ k ∈ signature <$> arms.
Proof.
  intros Hlen. unfold table_signatures.
  pose proof (build_table_spec arms ws) as HT.
  rewrite elem_of_remove_dups, (table_of_signatures _ _ HT).
  destruct HT as [-> _]. rewrite elem_of_first_occurrences.
  by rewrite fst_zip by lia.
Qed.

Local Ltac run_checks :=
  cbn [mbind result_bind Py.bind init_ending is_none negb orb andb].

Lemma init_ending_checks h now a :
  init_ending (__init__ h now a) = init_checks h a.
Proof.
  unfold __init__, init_checks, unknown_candidate_keys, raise_if, py_assert.
  destruct (_ =? _)%nat; run_checks; [|done].
  destruct (arg_bridge_kwargs a), (arg_model_kwargs a), (arg_model_key a);
    run_checks; try done.
  all: destruct (arg_candidate_metadata_by_arm_signature a); run_checks.
  all: try (destruct (negb (bool_decide _)); run_checks; [done|]).
  all: destruct (arg_generation_step_index a) as [i|];
    [destruct (0 <=? i)|]; run_checks; done.
Qed.

Lemma unknown_candidate_keys_spec h a :
  length (arg_arms a)
  = length (default_weights (arg_arms a) (arg_weights a)) →
  unknown_candidate_keys h a = true ↔
  ∃ l k, arg_candidate_metadata_by_arm_signature a = Some l
         ∧ k ∈ od_keys (heap_dict h l)
         ∧ k ∉ signature <$> arg_arms a.
Proof.
  intros Hlen. unfold unknown_candidate_keys.
  destruct (arg_candidate_metadata_by_arm_signature a) as [l|].
  2:{ split; [done | by intros (? & ? & ? & _)]. }
  rewrite negb_true_iff, bool_decide_eq_false. split.
  - intros Hne. destruct (filter _ _) as [|k ks] eqn:Hf; [done|].
    assert (k ∈ k :: ks) as Hk by (apply elem_of_cons; by left).
    rewrite <-Hf in Hk. apply list_elem_of_filter in Hk as [Hk1 Hk2].
    exists l, k. split_and!; [done..|].
    by rewrite <-(table_signatures_elem _ _ _ Hlen).
  - intros (l' & k & [= <-] & Hk & Hnot) Hnil.
    assert (k ∈ filter (λ k, k ∉ table_signatures
                               (build_table (arg_arms a)
                                  (default_weights (arg_arms a)
                                     (arg_weights a))))
                  (od_keys (heap_dict h l))) as Hin.
    { apply list_elem_of_filter. split; [|done].
      by rewrite (table_signatures_elem _ _ _ Hlen). }
    rewrite Hnil in Hin. by apply elem_of_nil in Hin.
Qed.

Lemma init_checks_invalid h a :
  init_checks h a = RaisedValueError ↔ invalid_argument h a.
Proof.
  unfold init_checks, invalid_argument.
  destruct (Nat.eqb_spec (length (arg_arms a))
              (length (default_weights (arg_arms a) (arg_weights a))))
    as [Hlen|Hlen]; cbn [negb].
  2:{ split; [intros _; left; congruence | done]. }
  pose proof (unknown_candidate_keys_spec h a Hlen) as Hc.
  destruct (arg_bridge_kwargs a), (arg_model_kwargs a), (arg_model_key a);
    cbn [is_none negb orb andb].
  all: try (split; [intros _|done];
            first [ right; left; left; split; [done|congruence]
                  | right; left; right; split; [congruence|done]
                  | right; right; left; split; [left; congruence|done] ];
            fail).
  all: destruct (unknown_candidate_keys h a).
  all: try (split; [intros _; do 3 right; by apply Hc | done]; fail).
  all: split; [destruct (arg_generation_step_index a) as [i|];
                 [destruct (0 <=? i)|]; done |].
  all: intros [?|[?|[?|?%Hc]]];
    [congruence | intuition congruence | intuition congruence | done].
Qed.

Lemma init_checks_assertion h a :
  init_checks h a = RaisedAssertionError ↔
  ¬ invalid_argument h a ∧ negative_step_index a.
Proof.
  rewrite <-init_checks_invalid. unfold negative_step_index.
  unfold init_checks. repeat (destruct (_ : bool); [naive_solver|]).
  destruct (arg_generation_step_index a) as [i|];
    [destruct (Z.leb_spec 0 i)|].
  - split; [done|]. intros [_ (i' & [= <-] & ?)]. lia.
  - split; [|done]. intros _. split; [done | by exists i].
  - split; [done|]. by intros [_ (? & ? & _)].
Qed.

Lemma init_checks_built h a :
  init_checks h a = Built ↔
  ¬ invalid_argument h a ∧ ¬ negative_step_index a.
Proof.
  destruct (init_checks h a) eqn:E.
  - split; [intros _|done]. split.
    + rewrite <-init_checks_invalid. congruence.
    + intros Hn. assert (init_checks h a = RaisedAssertionError); [|congruence].
      apply init_checks_assertion. split; [|done].
      rewrite <-init_checks_invalid. congruence.
  - split; [done|]. intros [Hn _]. destruct Hn. by apply init_checks_invalid.
  - split; [done|]. intros [Hi Hn]. destruct Hn.
    by apply (proj1 (init_checks_assertion h a)).
  - exfalso. revert E. unfold init_checks.
    repeat case_match; done.
Qed.

Lemma exec_table c st :
  _arm_weight_table (exec c st).1.2 = _arm_weight_table st.2.
Proof.
  destruct st as [h self]. destruct c; cbn [exec fst snd]; try done.
  - by destruct (clone h now self) as [h' r].
  - unfold set_index. by destruct (_ && _).
Qed.

Lemma run_table cs st :
  _arm_weight_table (run cs st).2 = _arm_weight_table st.2.
Proof.
  revert st. induction cs as [|c cs IH]; intros st; [done|].
  change (run (c :: cs) st) with (run cs (exec c st).1).
  by rewrite IH, exec_table.
Qed.

Lemma length_first_occurrences (l : list string) :
  length (first_occurrences l) = count_distinct l.
Proof.
  unfold count_distinct. apply Permutation_length, NoDup_Permutation.
  - apply NoDup_first_occurrences.
  - apply NoDup_remove_dups.
  - intros x. by rewrite elem_of_first_occurrences, elem_of_remove_dups.
Qed.

(** The table a successful [__init__] builds, through the accessors. *)
Lemma init_table h now a gr :
  __init__ h now a = Ok gr →
  let ws := default_weights (arg_arms a) (arg_weights a) in
  let sigs := first_occurrences (signature <$> arg_arms a) in
  length (arg_arms a) = length ws ∧
  od_keys (_arm_weight_table gr) = sigs ∧
  signature <$> arms gr = sigs ∧
  weights gr
  = (λ s, float_sum (weights_of s (zip (arg_arms a) ws))) <$> sigs.
Proof.
  intros Hinit ws sigs.
  destruct (init_Ok_inv _ _ _ _ Hinit) as (Hlen & Htab & _).
  pose proof (build_table_spec (arg_arms a) ws) as HT. fold ws in Htab, Hlen.
  assert (od_keys (_arm_weight_table gr) = sigs) as Hkeys.
  { rewrite Htab. destruct HT as [-> _]. unfold sigs.
    by rewrite fst_zip by lia. }
  split_and!; [done..| |].
  - unfold arms. rewrite <-list_fmap_compose, <-Hkeys, Htab.
    apply (table_of_signatures _ _ HT).
  - unfold weights. rewrite <-Hkeys, Htab.
    apply (table_of_weights _ _ HT).
Qed.

Lemma init_checks_not_other h a : init_checks h a ≠ RaisedOther.
Proof.
  unfold init_checks. repeat (destruct (_ : bool); [done|]).
  destruct (arg_generation_step_index a) as [i|]; [destruct (0 <=? i)|];
    done.
Qed.

Lemma init_trichotomy h now a :
  (invalid_argument h a ∧ ∃ msg, __init__ h now a = Raise (ValueError msg))
  ∨ (¬ invalid_argument h a ∧ negative_step_index a
     ∧ __init__ h now a = Raise AssertionError)
  ∨ (¬ invalid_argument h a ∧ ¬ negative_step_index a
     ∧ ∃ gr, __init__ h now a = Ok gr).
Proof.
  pose proof (init_ending_checks h now a) as He.
  pose proof (init_checks_not_other h a) as Hno.
  destruct (__init__ h now a) as [gr|[msg| | | |]]; simpl in He;
    symmetry in He; try done.
  - apply init_checks_built in He as [? ?]. right; right. eauto.
  - apply init_checks_invalid in He. left. eauto.
  - apply init_checks_assertion in He as [? ?]. right; left. eauto.
Qed.

(** C1: for arms with parallel weights (all 1.0 when none are given)
    and arguments otherwise valid, [__init__] returns a GeneratorRun;
    and a GeneratorRun it returns holds one table entry per distinct arm
    signature, in the order in which the signatures first occur among
    the input arms, the weight of an entry being the sum (from the left)
    of the input weights of the arms with that signature; [arms] and
    [weights] return the entries in table order. *)
Theorem init_merges_arms_by_signature h now a :
  let ws := default_weights (arg_arms a) (arg_weights a) in
  let sigs := first_occurrences (signature <$> arg_arms a) in
  (arg_weights a = None →
   ws = replicate (length (arg_arms a)) (float_of_Z 1)) ∧
  (¬ invalid_argument h a → ¬ negative_step_index a →
   ∃ gr, __init__ h now a = Ok gr) ∧
  ∀ gr, __init__ h now a = Ok gr →
    length (arg_arms a) = length ws ∧
    length (_arm_weight_table gr)
    = count_distinct (signature <$> arg_arms a) ∧
    od_keys (_arm_weight_table gr) = sigs ∧
    length (arms gr) = length sigs ∧
    length (weights gr) = length sigs ∧
    signature <$> arms gr = sigs ∧
    weights gr
    = (λ s, float_sum (weights_of s (zip (arg_arms a) ws))) <$> sigs.
Proof.
  intros ws sigs. subst ws sigs. split_and!.
  - intros Hw. unfold default_weights. rewrite Hw.
    clear. induction (arg_arms a) as [|x l IH]; [done|].
    cbn [fmap list_fmap length replicate]. by rewrite IH.
  - intros Hvalid Hstep.
    destruct (init_trichotomy h now a) as [[? _]|[(_ & ? & _)|(_ & _ & ?)]];
      done.
  - intros gr Hinit.
    destruct (init_table _ _ _ _ Hinit) as (Hlen & Hkeys & Hsigs & Hws).
    split_and!; [done| |done| | |done|done].
    + transitivity (length (od_keys (_arm_weight_table gr))).
      { unfold od_keys. by rewrite length_fmap. }
      rewrite Hkeys. apply length_first_occurrences.
    + by rewrite <-Hsigs, length_fmap.
    + rewrite Hws. apply length_fmap.
Qed.

(** C3 (amended to what the code does): [__init__] fails exactly when one of the
    five conditions holds and returns an object otherwise; the failure
    is a ValueError (InvalidArgument) when the weights and arms differ
    in length, when exactly one of the two kwargs is given, when a
    kwargs is given without a model key, or when a candidate-metadata
    key is no signature of the arms; it is an AssertionError when none
    of these holds and the generation-step index is negative. *)
Theorem init_fails_exactly_when h now a :
  ((∃ msg, __init__ h now a = Raise (ValueError msg))
   ↔ invalid_argument h a) ∧
  (__init__ h now a = Raise AssertionError
   ↔ ¬ invalid_argument h a ∧ negative_step_index a) ∧
  ((∃ gr, __init__ h now a = Ok gr)
   ↔ ¬ invalid_argument h a ∧ ¬ negative_step_index a) ∧
  ((∃ e, __init__ h now a = Raise e)
   ↔ invalid_argument h a ∨ negative_step_index a).
Proof.
  destruct (init_trichotomy h now a)
    as [(Hi & msg & ->)|[(Hn & Hneg & ->)|(Hn & Hnn & gr & ->)]].
  all: split_and!; split.
  all: first [ done | by eauto | by intros [? [=]] | by intros [_ ?]
             | by intros [? _] | by intros [?|?] ].
Qed.

(** C4: the [index] setter is write-once.  On a run without index the
    assignment succeeds and the index is the value assigned; assigning
    the value the run already has succeeds and changes nothing;
    assigning another value raises the ValueError of the setter
    (InvalidState) and leaves the run, its index included, as it was. *)
Theorem index_is_write_once (self : GeneratorRun) (i : Z) :
  (index self = None →
   (set_index self i).2 = Ok () ∧ index (set_index self i).1 = Some i ∧
   ∀ j, j ≠ i →
     set_index (set_index self i).1 j
     = ((set_index self i).1,
        Raise (ValueError
                 "Cannot change the index of a generator run once set."))) ∧
  (index self = Some i → set_index self i = (self, Ok ())) ∧
  (∀ j, index self = Some j → j ≠ i →
     set_index self i
     = (self,
        Raise (ValueError
                 "Cannot change the index of a generator run once set."))).
Proof.
  unfold index, set_index. destruct self as [? ? ? ? ? ? ? idx ? ? ? ? ? ? ? ? ?].
  cbn [_index]. split_and!.
  - intros ->. rewrite bool_decide_eq_false_2 by naive_solver.
    cbn [andb fst snd _index]. split_and!; [done..|].
    intros j Hj. rewrite !bool_decide_eq_true_2 by congruence. done.
  - intros ->. rewrite (bool_decide_eq_false_2 (Some i ≠ Some i)) by naive_solver.
    by rewrite andb_false_r.
  - intros j -> Hj. by rewrite !bool_decide_eq_true_2 by congruence.
Qed.

(** C5: the unique id of a run is the decimal string of its index when
    the index is set, else the decimal string of its generation-step
    index when that is set, else asking for it raises the ValueError of
    [_unique_id] (InvalidState). *)
Theorem unique_id_by_index_then_step (self : GeneratorRun) :
  (∀ i, index self = Some i → _unique_id self = Ok (str_of_int i)) ∧
  (∀ g, index self = None → _generation_step_index self = Some g →
     _unique_id self = Ok (str_of_int g)) ∧
  (index self = None → _generation_step_index self = None →
   _unique_id self
   = Raise (ValueError
       "GeneratorRuns only have a unique id if attached to a Trial or GenerationStrategy.")).
Proof.
  unfold _unique_id. split_and!.
  - by intros i ->.
  - by intros g -> ->.
  - by intros -> ->.
Qed.

Lemma arm_weights_zip (self : GeneratorRun) :
  NoDup (arms self) → arm_weights self = zip (arms self) (weights self).
Proof.
  unfold arm_weights. intros Hnd.
  assert (length (arms self) = length (weights self)) as Hlen
    by (unfold arms, weights; by rewrite !length_fmap).
  revert Hnd Hlen. generalize (arms self) (weights self).
  intros l ws Hnd Hlen.
  assert (∀ acc : list (Arm * float),
            (∀ x, x ∈ l → x ∉ od_keys acc) →
            foldl (λ d '(a, w), od_set a w d) acc (zip l ws)
            = acc ++ zip l ws) as Hgen.
  { revert ws Hlen. induction Hnd as [|x l Hx Hnd IH]; intros [|w ws] Hlen acc Hacc;
      simpl in *; try lia; [by rewrite app_nil_r|].
    rewrite IH; [|lia|].
    - assert (od_set x w acc = acc ++ [(x, w)]) as ->.
      { assert (x ∉ od_keys acc) as Hxa by (apply Hacc, elem_of_cons; by left).
        clear -Hxa. unfold od_keys in Hxa.
        induction acc as [|[k v] acc IH]; simpl; [done|].
        apply not_elem_of_cons in Hxa as [? ?].
        rewrite decide_False by done. by rewrite IH. }
      by rewrite <-(assoc_L (++)).
    - intros y Hy. rewrite od_keys_set.
      assert (y ∉ od_keys acc) by (apply Hacc, elem_of_cons; by right).
      case_decide; [done|]. rewrite not_elem_of_app, list_elem_of_singleton.
      split; [done|]. intros ->. done. }
  rewrite Hgen; [done|]. intros x _. apply not_elem_of_nil.
Qed.

(** C10: after a successful construction [arms] and [weights] have the
    same length and the arms have pairwise distinct signatures; and
    whatever public operations are then called on the run (the read
    accessors, [clone], assignments to [index], successful or not), the
    arm-weight table stays the one built, so that [arms], [weights] and
    [arm_weights] return what they returned first, with the same
    length and distinctness. *)
Theorem arm_table_is_fixed h now a gr :
  __init__ h now a = Ok gr →
  length (arms gr) = length (weights gr) ∧
  NoDup (signature <$> arms gr) ∧
  arm_weights gr = zip (arms gr) (weights gr) ∧
  ∀ (cs : list call) (h' : heap Arm),
    let self := (run cs (h', gr)).2 in
    _arm_weight_table self = _arm_weight_table gr ∧
    arms self = arms gr ∧ weights self = weights gr ∧
    arm_weights self = arm_weights gr ∧
    length (arms self) = length (weights self) ∧
    NoDup (signature <$> arms self).
Proof.
  intros Hinit.
  destruct (init_table _ _ _ _ Hinit) as (_ & _ & Hsigs & _).
  assert (length (arms gr) = length (weights gr)) as Hlen
    by (unfold arms, weights; by rewrite !length_fmap).
  assert (NoDup (signature <$> arms gr)) as Hnd
    by (rewrite Hsigs; apply NoDup_first_occurrences).
  split_and!; [done..| |].
  - apply arm_weights_zip. by eapply NoDup_fmap_1.
  - intros cs h' self.
    assert (_arm_weight_table self = _arm_weight_table gr) as Htab
      by apply (run_table cs (h', gr)).
    unfold arm_weights, arms, weights in *. rewrite Htab. done.
Qed.

(** *** What [clone] keeps and what it shares *)

Lemma init_Ok_fields h now a gr :
  __init__ h now a = Ok gr →
  _gen_metadata gr = arg_gen_metadata a ∧
  _candidate_metadata_by_arm_signature gr
  = arg_candidate_metadata_by_arm_signature a ∧
  _generation_step_index gr = arg_generation_step_index a.
Proof.
  unfold __init__, raise_if, py_assert.
  destruct (_ =? _)%nat; cbn [negb mbind result_bind Py.bind]; [|done].
  repeat (case_match; cbn [negb mbind result_bind Py.bind]; try done).
  all: by intros [= <-].
Qed.

(** The clone has the creation time, index, model key and
    generation-step index of the original; its [gen_metadata] and its
    candidate metadata are the very dictionaries of the original. *)
Lemma clone_fields h now self h' c :
  clone h now self = (h', Ok c) →
  _time_created c = _time_created self ∧ _index c = _index self ∧
  _model_key c = _model_key self ∧
  _generation_step_index c = _generation_step_index self ∧
  _gen_metadata c = _gen_metadata self ∧
  _candidate_metadata_by_arm_signature c
  = _candidate_metadata_by_arm_signature self.
Proof.
  unfold clone.
  destruct (copy_opt object_clone h _) as [h1 oc].
  destruct (copy_opt object_clone h1 _) as [h2 ss].
  destruct (copy_opt deepcopy h2 _) as [h3 mp].
  destruct (copy_opt deepcopy h3 _) as [h4 bp].
  destruct (__init__ h4 now _) as [g|e] eqn:E; [|done].
  destruct (copy_opt dict_copy h4 _) as [h5 mk].
  destruct (copy_opt dict_copy h5 _) as [h6 bk].
  destruct (copy_opt dict_copy h6 _) as [h7 ms].
  intros [= <- <-]. cbn.
  apply init_Ok_fields in E as (-> & -> & ->). done.
Qed.

End generator_run_claims.

Section generator_run_examples.
Import generator_run examples.

(** C1 on three arms of which the first and the last share a signature:
    two entries, the weights 1.0 + 3.0 and 2.0. *)
Lemma init_merges_arms_by_signature_witness :
  ∃ gr, __init__ [] 5 three_arms = Ok gr ∧
    signature <$> arms gr = ["x=1"; "x=2"] ∧
    weights gr = [float_of_Z 4; float_of_Z 2].
Proof.
  destruct (__init__ [] 5 three_arms) as [gr|e] eqn:E;
    [|by vm_compute in E].
  exists gr. split; [done|].
  destruct (init_merges_arms_by_signature [] 5 three_arms) as (_ & _ & Hgr).
  destruct (Hgr gr E) as (_ & _ & _ & _ & _ & Hs & Hw).
  split; [exact Hs | exact Hw].
Defined.

(** C3 as the specification states it fails: a negative generation-step
    index is one of its five conditions, yet the failure is no
    ValueError (InvalidArgument), it is an AssertionError. *)
Lemma init_negative_step_index_is_no_value_error :
  negative_step_index negative_step ∧
  __init__ [] 5 negative_step = Raise AssertionError ∧
  ¬ ∃ msg, __init__ [] 5 negative_step = Raise (ValueError msg).
Proof.
  split_and!.
  - by exists (-1).
  - done.
  - by intros [msg [=]].
Qed.

Lemma index_is_write_once_witness :
  ∃ gr, __init__ [] 5 three_arms = Ok gr ∧
    (set_index gr 3).2 = Ok () ∧ index (set_index gr 3).1 = Some 3 ∧
    set_index (set_index gr 3).1 3 = ((set_index gr 3).1, Ok ()).
Proof.
  destruct (__init__ [] 5 three_arms) as [gr|e] eqn:E;
    [|by vm_compute in E].
  exists gr. split; [done|].
  assert (index gr = None) as Hnone.
  { by destruct (init_Ok_inv _ _ _ _ E) as (_ & _ & ? & _). }
  destruct (index_is_write_once gr 3) as (H1 & _).
  destruct (H1 Hnone) as (Hok & Hidx & _).
  split_and!; [done..|].
  by apply (index_is_write_once (set_index gr 3).1 3).
Defined.

Lemma unique_id_by_index_then_step_witness :
  ∃ gr, __init__ meta_store 5 with_gen_metadata = Ok gr ∧
    _unique_id gr = Ok "0" ∧ _unique_id (set_index gr 12).1 = Ok "12".
Proof.
  destruct (__init__ meta_store 5 with_gen_metadata) as [gr|e] eqn:E;
    [|by vm_compute in E].
  exists gr. split; [done|].
  assert (gr = {| _arm_weight_table := _arm_weight_table gr;
                  _generator_run_type := None; _time_created := 5;
                  _optimization_config := None; _search_space := None;
                  _model_predictions := None;
                  _best_arm_predictions := None; _index := None;
                  _fit_time := None; _gen_time := None;
                  _model_key := None; _model_kwargs := None;
                  _bridge_kwargs := None; _gen_metadata := Some 0%nat;
                  _model_state_after_gen := None;
                  _candidate_metadata_by_arm_signature := None;
                  _generation_step_index := Some 0 |}) as Hgr.
  { vm_compute in E. by injection E as <-. }
  destruct (unique_id_by_index_then_step gr) as (_ & Hstep & _).
  destruct (unique_id_by_index_then_step (set_index gr 12).1)
    as (Hidx & _ & _).
  split.
  - apply (Hstep 0); by rewrite Hgr.
  - apply (Hidx 12). by rewrite Hgr.
Defined.

Lemma arm_table_is_fixed_witness :
  ∃ gr, __init__ [] 5 three_arms = Ok gr ∧
    let self := (run [assign_index 1; call_clone 9; get_arms;
                      assign_index 2] ([], gr)).2 in
    index self = Some 1 ∧
    arms self = arms gr ∧ weights self = weights gr ∧
    arm_weights self = arm_weights gr.
Proof.
  destruct (__init__ [] 5 three_arms) as [gr|e] eqn:E;
    [|by vm_compute in E].
  exists gr. split; [done|]. intros self.
  destruct (arm_table_is_fixed [] 5 three_arms gr E) as (_ & _ & _ & Hrun).
  destruct (Hrun [assign_index 1; call_clone 9; get_arms; assign_index 2] [])
    as (_ & Ha & Hw & Haw & _).
  split_and!; [|done..].
  vm_compute in E. injection E as <-. by vm_compute.
Defined.

(** C2 on a run with a [gen_metadata] dictionary: the clone is built,
    with the creation time, index and generation-step index of the
    original, but its [gen_metadata] is the dictionary of the original,
    not a copy: an item assigned through the clone is read through the
    original. *)
Theorem clone_shares_gen_metadata :
  ∃ gr c h1 l,
    __init__ meta_store 5 with_gen_metadata = Ok gr ∧
    clone meta_store 9 gr = (h1, Ok c) ∧
    time_created c = time_created gr ∧ index c = index gr ∧
    _generation_step_index c = _generation_step_index gr ∧
    gen_metadata gr = Some l ∧ gen_metadata c = Some l ∧
    heap_dict h1 l = [("seed", VInt 7)] ∧
    let h2 := dict_setitem h1 l "seed" (VInt 8) in
    match gen_metadata gr with
    | Some l0 => heap_dict h2 l0 = [("seed", VInt 8)]
    | None => False
    end.
Proof.
  eexists _, _, _, _. split; [by vm_compute|].
  split; [by vm_compute|]. by vm_compute.
Qed.
(** The kwargs of the clone are new dictionaries with the items of the
    original's: an item assigned through the clone is not seen by the
    original, but a dictionary held as a value is the same one for both. *)
Lemma clone_copies_kwargs_one_level_deep :
  ∃ gr c h1 l l',
    __init__ kwargs_store 5 with_kwargs = Ok gr ∧
    clone kwargs_store 9 gr = (h1, Ok c) ∧
    _model_kwargs gr = Some l ∧ _model_kwargs c = Some l' ∧ l ≠ l' ∧
    heap_dict (dict_setitem h1 l' "depth" (VInt 3)) l
    = heap_dict h1 l ∧
    od_get "options" (heap_dict h1 l) = Some (VRef 0%nat) ∧
    od_get "options" (heap_dict h1 l') = Some (VRef 0%nat).
Proof.
  eexists _, _, _, _, _. split; [by vm_compute|].
  split; [by vm_compute|]. by vm_compute.
Qed.
End generator_run_examples.

(** ** Picking the first row at the optimum *)

Lemma float_ltb_irrefl x : float_ltb x x = false.
Proof.
  unfold float_ltb, SFltb, SFcompare.
  destruct x as [[]|[]| |[] m e]; try done.
  all: rewrite Z.compare_refl;
    change (Pos.compare_cont Eq m m) with (m ?= m)%positive;
    by rewrite Pos.compare_refl.
Qed.

Lemma float_eqb_refl x : float_is_nan x = false → float_eqb x x = true.
Proof.
  unfold float_eqb, SFeqb, SFcompare.
  destruct x as [[]|[]| |[] m e]; try done.
  all: intros _; rewrite Z.compare_refl;
    change (Pos.compare_cont Eq m m) with (m ?= m)%positive;
    by rewrite Pos.compare_refl.
Qed.

Lemma float_ltb_trans x y z :
  float_ltb x y = true → float_ltb y z = true → float_ltb x z = true.
Proof.
  unfold float_ltb, SFltb, SFcompare.
  destruct x as [[]|[]| |[] mx ex], y as [[]|[]| |[] my ey],
    z as [[]|[]| |[] mz ez]; try done.
  all: change (Pos.compare_cont Eq) with Pos.compare.
  all: destruct (Z.compare_spec ex ey), (Z.compare_spec ey ez),
    (Z.compare_spec ex ez); try done; try lia.
  all: subst.
  all: destruct (Pos.compare_spec mx my), (Pos.compare_spec my mz),
    (Pos.compare_spec mx mz); try done; try lia.
Qed.

(** [Series.min()] and [Series.max()] return one of the numbers of the
    series, and none of the numbers is better. *)
Lemma series_extremum_spec (better : float → float → bool) values :
  (∀ a, better a a = false) →
  (∀ a b c, better a b = true → better b c = true → better a c = true) →
  filter (λ x, float_is_nan x = false) values ≠ [] →
  report_utils.series_extremum better values
    ∈ filter (λ x, float_is_nan x = false) values ∧
  ∀ v, v ∈ filter (λ x, float_is_nan x = false) values →
       better v (report_utils.series_extremum better values) = false.
Proof.
  intros Hirr Htrans. unfold report_utils.series_extremum.
  destruct (filter _ values) as [|x xs]; [done|]. intros _.
  assert (∀ seen best,
            best ∈ seen → (∀ v, v ∈ seen → better v best = false) →
            let m := foldl (λ best y, if better y best then y else best)
                       best xs in
            m ∈ seen ++ xs ∧ ∀ v, v ∈ seen ++ xs → better v m = false)
    as Hgen.
  { induction xs as [|y ys IH]; intros seen best Hin Hbest; simpl.
    { by rewrite app_nil_r. }
    rewrite (assoc_L (++) seen [y] ys
             : seen ++ y :: ys = (seen ++ [y]) ++ ys).
    destruct (better y best) eqn:E; apply IH.
    - apply elem_of_app. right. by apply list_elem_of_singleton.
    - intros v [Hv| ->%list_elem_of_singleton]%elem_of_app; [|done].
      destruct (better v y) eqn:E'; [|done].
      by rewrite <-(Hbest v Hv), (Htrans v y best).
    - apply elem_of_app. by left.
    - by intros v [Hv| ->%list_elem_of_singleton]%elem_of_app; [apply Hbest|]. }
  apply (Hgen [x] x).
  - by apply list_elem_of_singleton.
  - by intros v ->%list_elem_of_singleton.
Qed.

(** [df[mask].head(1)] is the first row at which the mask holds. *)
Lemma first_where_spec {A} (rows : list A) (mask : list bool) :
  length rows = length mask →
  match list_find (λ b, b = true) mask with
  | Some (i, _) =>
      ∃ r, rows !! i = Some r ∧
           take 1 (fst <$> filter (λ rm, snd rm = true) (zip rows mask)) = [r]
  | None =>
      take 1 (fst <$> filter (λ rm, snd rm = true) (zip rows mask)) = []
  end.
Proof.
  revert mask. induction rows as [|r rows IH]; intros [|b mask] Hlen;
    simpl in *; try done.
  destruct b.
  - rewrite filter_cons_True by done. rewrite decide_True by done.
    exists r. done.
  - rewrite filter_cons_False by done. rewrite decide_False by done.
    specialize (IH mask ltac:(lia)).
    destruct (list_find (λ b, b = true) mask) as [[i ?]|]; simpl; done.
Qed.

Lemma df_getitem_length df name column :
  report_utils.df_getitem df name = Ok column →
  length column = length (report_utils.df_rows df).
Proof.
  unfold report_utils.df_getitem. case_bool_decide; [|done].
  intros [= <-]. by rewrite length_fmap.
Qed.

(** With a number in the objective column, the last lines of
    [get_best_trial] pick exactly one row: the first whose value equals
    the optimum, which is a number of the column that none is below
    (above, when maximizing). *)
Lemma best_row_one_row trials_df name (minimize : bool) column :
  report_utils.df_getitem trials_df name = Ok column →
  let values := report_utils.cell_float <$> column in
  let optimum := if minimize then report_utils.series_min values
                 else report_utils.series_max values in
  (∃ v, v ∈ values ∧ float_is_nan v = false) →
  ∃ i r,
    report_utils.best_row trials_df name minimize
    = Ok {| report_utils.df_columns := report_utils.df_columns trials_df;
            report_utils.df_rows := [r] |} ∧
    report_utils.df_rows trials_df !! i = Some r ∧
    (∃ v, values !! i = Some v ∧ float_eqb v optimum = true) ∧
    (∀ j v, (j < i)%nat → values !! j = Some v →
            float_eqb v optimum = false) ∧
    float_is_nan optimum = false ∧
    (∀ v, v ∈ values → float_is_nan v = false →
          if minimize then float_ltb v optimum = false
          else float_ltb optimum v = false).
Proof.
  intros Hcol values optimum (v0 & Hv0 & Hnan0).
  assert (filter (λ x, float_is_nan x = false) values ≠ []) as Hkept.
  { intros Hnil. eapply (filter_nil_not_elem_of _ _ v0); done. }
  assert (optimum ∈ filter (λ x, float_is_nan x = false) values ∧
          ∀ v, v ∈ values → float_is_nan v = false →
               if minimize then float_ltb v optimum = false
               else float_ltb optimum v = false) as [Hin Hbest].
  { unfold optimum. destruct minimize.
    - destruct (series_extremum_spec float_ltb values) as [? Hb];
        [apply float_ltb_irrefl | apply float_ltb_trans | done |].
      split; [done|]. intros v ? ?. apply Hb. by apply list_elem_of_filter.
    - destruct (series_extremum_spec (λ y best, float_ltb best y) values)
        as [? Hb]; [apply float_ltb_irrefl | | done |].
      { intros a b c ? ?. by apply (float_ltb_trans c b a). }
      split; [done|]. intros v ? ?. apply Hb. by apply list_elem_of_filter. }
  apply list_elem_of_filter in Hin as [Hnan Hin].
  pose proof (first_where_spec (report_utils.df_rows trials_df)
                ((λ v, float_eqb v optimum) <$> values)) as Hfirst.
  rewrite length_fmap in Hfirst.
  assert (length (report_utils.df_rows trials_df) = length values) as Hlen.
  { unfold values. rewrite length_fmap. symmetry.
    by eapply df_getitem_length. }
  specialize (Hfirst Hlen).
  destruct (list_find _ _) as [[i b]|] eqn:Hfind.
  - apply list_find_Some in Hfind as (Hi & -> & Hbefore).
    destruct Hfirst as (r & Hr & Htake). exists i, r.
    apply list_lookup_fmap_Some in Hi as (v & Hv & Heq).
    split_and!; [|done|by exists v| |done|done].
    + unfold report_utils.best_row. rewrite Hcol.
      cbn [mbind result_bind Py.bind]. fold values. fold optimum.
      unfold report_utils.df_first_where. by rewrite Htake.
    + intros j v' Hj Hv'. destruct (float_eqb v' optimum) eqn:E; [|done].
      destruct (Hbefore j true); [|done..].
      by rewrite list_lookup_fmap, Hv', <-E.
  - apply list_find_None in Hfind. rewrite Forall_forall in Hfind.
    destruct (Hfind true); [|done].
    apply list_elem_of_fmap. exists optimum. split; [|done].
    symmetry. by apply float_eqb_refl.
Qed.

(** Without any number in the objective column they pick none. *)
Lemma best_row_no_row trials_df name (minimize : bool) column :
  report_utils.df_getitem trials_df name = Ok column →
  (∀ v, v ∈ report_utils.cell_float <$> column → float_is_nan v = true) →
  report_utils.best_row trials_df name minimize
  = Ok {| report_utils.df_columns := report_utils.df_columns trials_df;
          report_utils.df_rows := [] |}.
Proof.
  intros Hcol Hall. unfold report_utils.best_row. rewrite Hcol.
  cbn [mbind result_bind Py.bind]. unfold report_utils.df_first_where.
  do 2 f_equal.
  pose proof (first_where_spec (report_utils.df_rows trials_df)
    ((λ v, float_eqb v
             (if minimize
              then report_utils.series_min (report_utils.cell_float <$> column)
              else report_utils.series_max (report_utils.cell_float <$> column)))
       <$> (report_utils.cell_float <$> column))) as Hfirst.
  rewrite !length_fmap in Hfirst.
  specialize (Hfirst (eq_sym (df_getitem_length _ _ _ Hcol))).
  destruct (list_find _ _) as [[i b]|] eqn:Hfind; [|done].
  apply list_find_Some in Hfind as (Hi & -> & _).
  apply list_lookup_fmap_Some in Hi as (v & Hv & Heq).
  assert (float_is_nan v = true) as Hnan.
  { apply Hall, list_elem_of_lookup. eauto. }
  destruct v; done.
Qed.

(** ** Report utilities *)

Section report_utils_claims.
Import generator_run report_utils.

(** C6: on the three paths of the specification's example the resolver
    returns exactly the mapping stated; and for any pairwise distinct
    inputs and non-empty delimiter it returns a mapping whose keys are
    the inputs and which sends each input [s] to its suffix of [n]
    chunks, where [n >= 1] is the least number of chunks at which no
    other input has the same suffix: the shortest unique suffix of the
    specification. *)
Theorem shortest_unique_suffix_dict_correct :
  _get_shortest_unique_suffix_dict ["a.b.x"; "c.d.x"; "a.b.y"] "."
  = Ok [("a.b.x", "b.x"); ("c.d.x", "d.x"); ("a.b.y", "y")] ∧
  ∀ (input_str_list : list string) (delim s : string),
    delim ≠ "" → NoDup input_str_list → s ∈ input_str_list →
    ∃ m n,
      _get_shortest_unique_suffix_dict input_str_list delim = Ok m ∧
      NoDup (od_keys m) ∧ (∀ k, k ∈ od_keys m ↔ k ∈ input_str_list) ∧
      od_get s m = Some (suffix_chunks s delim n) ∧
      1 ≤ n ∧
      (∀ t, t ∈ input_str_list →
         suffix_chunks t delim n = suffix_chunks s delim n → t = s) ∧
      (∀ k, 1 ≤ k < n →
         ∃ t, t ∈ input_str_list ∧ t ≠ s ∧
              suffix_chunks t delim k = suffix_chunks s delim k) ∧
      ((∀ t k, t ∈ input_str_list → 1 ≤ k →
          suffix_chunks t delim k = suffix_chunks s delim n → t = s)
       ∨ (suffix_chunks s delim n = s ∧
          ∃ t k, t ∈ input_str_list ∧ t ≠ s ∧ 1 ≤ k ∧
                 suffix_chunks t delim k = s)) ∧
      shortest_unique_suffix input_str_list delim s
      = suffix_chunks s delim n.
Proof.
  split; [by vm_compute|].
  intros l delim s Hdelim Hnd Hs.
  destruct (resolver_correct l delim Hdelim Hnd) as (m & Hm & Hndm & Hk & Hv).
  { intros ->. by apply elem_of_nil in Hs. }
  destruct (shortest_unique_suffix_least l delim s Hs)
    as (n & Hn & Heq & Huniq & Hleast).
  exists m, n. split_and!; [done..| |done|done|done| |done].
  - by rewrite Hv, Heq.
  - by apply shortest_unique_suffix_strict.
Qed.

Lemma shortest_unique_suffix_dict_correct_witness :
  ∃ m, _get_shortest_unique_suffix_dict ["x"; "a.x"; "b.a.x"; "c.y"] "."
       = Ok m ∧
    od_get "a.x" m = Some "a.x" ∧
    shortest_unique_suffix ["x"; "a.x"; "b.a.x"; "c.y"] "." "a.x" = "a.x".
Proof.
  destruct (proj2 shortest_unique_suffix_dict_correct
              ["x"; "a.x"; "b.a.x"; "c.y"] "." "a.x")
    as (m & n & Hm & _ & _ & Hget & _ & _ & _ & _ & Hs).
  - done.
  - apply (bool_decide_unpack _). by vm_compute.
  - apply (bool_decide_unpack _). by vm_compute.
  - exists m. split; [done|]. rewrite Hget, <-Hs. by vm_compute.
Defined.

(** What the resolver rejects: inputs that are not pairwise distinct, the
    empty delimiter, and the empty list (of which it takes the [max]). *)
Lemma resolver_rejects :
  _get_shortest_unique_suffix_dict ["a.x"; "b.y"; "a.x"] "."
  = Raise AssertionError ∧
  _get_shortest_unique_suffix_dict ["a.x"; "b.y"] ""
  = Raise (ValueError "delim must be a non-empty string.") ∧
  _get_shortest_unique_suffix_dict [] "."
  = Raise (ValueError "max() arg is an empty sequence").
Proof. by vm_compute. Qed.

Context `{ArmClass} `{Collaborators}.

(** C8: when the data fetched has no rows, [exp_to_df] returns the
    fetched table itself, and [get_standard_plots] returns the empty
    list.  Both get to their fetch only past their first guards: the
    experiment is no MultiTypeExperiment for the one, and has an
    optimization config for the other. *)
Theorem empty_data_comes_back_empty (exp : Experiment)
    (metrics : option (list Metric)) (key_components : option (list string))
    (run_metadata_fields : option (list string))
    (generation_strategy : GenerationStrategy) :
  (is_MultiTypeExperiment exp = false →
   df_len (fetch_data exp metrics) = 0%nat →
   exp_to_df exp metrics key_components run_metadata_fields
   = Ok (fetch_data exp metrics)) ∧
  (optimization_config exp ≠ None →
   df_len (fetch_data exp None) = 0%nat →
   get_standard_plots exp generation_strategy = Ok []).
Proof.
  split.
  - intros Hm Hlen. unfold exp_to_df. rewrite Hm. unfold raise_if.
    cbn [mbind result_bind Py.bind]. by rewrite Hlen.
  - intros Hoc Hlen. unfold get_standard_plots.
    destruct (optimization_config exp) as [oc|]; [|done].
    cbn [not_none mbind result_bind Py.bind].
    destruct (objective oc); [|done..].
    unfold df_empty. by rewrite Hlen.
Qed.

(** C9: [get_best_trial] appends the objective metric to the list the
    caller passed as [additional_metrics] when that list does not
    contain it (the objective being a single plain one, whose metric is
    "the objective metric"), whatever happens afterwards; it leaves a
    list that contains the metric as it is, and with [None] there is no
    list to change. *)
Theorem best_trial_appends_objective_metric (exp : Experiment)
    (key_components : option (list string))
    (run_metadata_fields : option (list string)) :
  (get_best_trial exp None key_components run_metadata_fields).1 = None ∧
  ∀ (l : list Metric) (metric : Metric) (minimize : bool),
    optimization_config exp
    = Some {| objective := Objective metric minimize |} →
    (metric ∉ l →
     (get_best_trial exp (Some l) key_components run_metadata_fields).1
     = Some (l ++ [metric])) ∧
    (metric ∈ l →
     (get_best_trial exp (Some l) key_components run_metadata_fields).1
     = Some l).
Proof.
  unfold get_best_trial. split.
  - destruct (not_none (optimization_config exp)) as [oc|e]; [|done].
    by destruct (objective oc).
  - intros l metric minimize ->. cbn [not_none objective fst]. split.
    + intros Hl. by rewrite bool_decide_eq_true_2.
    + intros Hl. rewrite bool_decide_eq_false_2; [done|]. by intros [].
Qed.

(** When [get_best_trial] gives no result. *)
Lemma get_best_trial_no_result (exp : Experiment)
    (additional_metrics : option (list Metric))
    (key_components : option (list string))
    (run_metadata_fields : option (list string)) oc :
  optimization_config exp = Some oc →
  (objective_metric (objective oc) = None →
   get_best_trial exp additional_metrics key_components run_metadata_fields
   = (additional_metrics, Ok None)) ∧
  (∀ trials_df,
     objective_metric (objective oc) ≠ None →
     exp_to_df exp
       (get_best_trial exp additional_metrics key_components
          run_metadata_fields).1
       key_components run_metadata_fields = Ok trials_df →
     df_len trials_df = 0%nat →
     (get_best_trial exp additional_metrics key_components
        run_metadata_fields).2 = Ok None).
Proof.
  intros Hoc. unfold get_best_trial. rewrite Hoc.
  cbn [not_none]. destruct (objective oc); cbn [objective_metric fst snd].
  - split; [done|]. intros df _ -> Hlen.
    cbn [mbind result_bind Py.bind]. by rewrite Hlen.
  - split; [done|]. by intros df ?.
  - split; [done|]. by intros df ?.
Qed.
(** With a plain objective, a table of at least one row and a number
    in the objective column, [get_best_trial] returns one row, the first
    of the table at the optimum. *)
Lemma get_best_trial_one_row (exp : Experiment)
    (additional_metrics : option (list Metric))
    (key_components : option (list string))
    (run_metadata_fields : option (list string))
    metric minimize trials_df column :
  optimization_config exp
  = Some {| objective := Objective metric minimize |} →
  exp_to_df exp
    (get_best_trial exp additional_metrics key_components
       run_metadata_fields).1
    key_components run_metadata_fields = Ok trials_df →
  df_getitem trials_df (metric_name metric) = Ok column →
  (∃ v, v ∈ cell_float <$> column ∧ float_is_nan v = false) →
  ∃ i r,
    (get_best_trial exp additional_metrics key_components
       run_metadata_fields).2
    = Ok (Some {| df_columns := df_columns trials_df; df_rows := [r] |}) ∧
    df_rows trials_df !! i = Some r ∧
    ∃ v, (cell_float <$> column) !! i = Some v ∧
         float_eqb v (if minimize then series_min (cell_float <$> column)
                      else series_max (cell_float <$> column)) = true.
Proof.
  intros Hoc Hdf Hcol Hnum.
  destruct (best_row_one_row trials_df (metric_name metric) minimize column
              Hcol Hnum) as (i & r & Hbest & Hr & Hv & _).
  exists i, r. split_and!; [|done..].
  revert Hdf. unfold get_best_trial. rewrite Hoc.
  cbn [not_none objective fst snd]. intros ->.
  cbn [mbind result_bind Py.bind].
  assert (df_len trials_df ≠ 0%nat) as Hlen.
  { unfold df_len. apply lookup_lt_Some in Hr. lia. }
  destruct (Nat.eqb_spec (df_len trials_df) 0); [done|].
  by rewrite Hbest.
Qed.
End report_utils_claims.

Section report_utils_examples.
Import generator_run report_utils examples.

Lemma empty_data_comes_back_empty_witness :
  exp_to_df (experiment_with (Objective loss true) []) None None None
  = Ok (loss_table []) ∧
  get_standard_plots (experiment_with (Objective loss true) []) no_strategy
  = Ok [].
Proof.
  destruct (empty_data_comes_back_empty
              (experiment_with (Objective loss true) []) None None None
              no_strategy) as [Hdf Hplots].
  split.
  - by apply Hdf.
  - by apply Hplots.
Defined.

Lemma best_trial_appends_objective_metric_witness :
  (get_best_trial (experiment_with (Objective loss true) [float_of_Z 5])
     (Some [accuracy]) None None).1
  = Some [accuracy; loss].
Proof.
  destruct (best_trial_appends_objective_metric
              (experiment_with (Objective loss true) [float_of_Z 5])
              None None) as [_ Happ].
  destruct (Happ [accuracy] loss true eq_refl) as [Hnew _].
  apply Hnew. apply (bool_decide_unpack _). by vm_compute.
Defined.

(** The specification's example for C7: of the losses 5.0, 2.0 and 8.0
    the trial with 2.0 is the best one when minimizing (and the one
    with 8.0 when maximizing); a multi-objective experiment has no best
    trial. *)
Lemma best_trial_of_three :
  (get_best_trial
     (experiment_with (Objective loss true)
        [float_of_Z 5; float_of_Z 2; float_of_Z 8]) None None None).2
  = Ok (Some {| df_columns := ["trial_index"; "arm_name"; "loss";
                               "trial_index-arm_name"; "trial_status"];
                df_rows := [loss_row 1 (float_of_Z 2)
                            ++ [("trial_index-arm_name", CStr "");
                                ("trial_status", CStr "COMPLETED")]] |}) ∧
  (get_best_trial
     (experiment_with (Objective loss false)
        [float_of_Z 5; float_of_Z 2; float_of_Z 8]) None None None).2
  = Ok (Some {| df_columns := ["trial_index"; "arm_name"; "loss";
                               "trial_index-arm_name"; "trial_status"];
                df_rows := [loss_row 2 (float_of_Z 8)
                            ++ [("trial_index-arm_name", CStr "");
                                ("trial_status", CStr "COMPLETED")]] |}) ∧
  (get_best_trial
     (experiment_with (MultiObjective [loss; accuracy] true)
        [float_of_Z 5; float_of_Z 2; float_of_Z 8]) None None None).2
  = Ok None.
Proof. by vm_compute. Qed.

(** C7 on a table whose only objective value is NaN: the transform
    yields one row, the objective is a plain one, and [get_best_trial]
    returns a table, but one without any row. *)
Theorem best_trial_of_nan_has_no_row :
  (trials_df ← exp_to_df (experiment_with (Objective loss true) [float_nan])
                 None None None;
   Ok (df_len trials_df)) = Ok 1%nat ∧
  (get_best_trial (experiment_with (Objective loss true) [float_nan])
     None None None).2
  = Ok (Some {| df_columns := ["trial_index"; "arm_name"; "loss";
                               "trial_index-arm_name"; "trial_status"];
                df_rows := [] |}).
Proof. by vm_compute. Qed.
End report_utils_examples.

(** * Further properties of the code *)

(** ** Suffixes and the suffix resolver *)

Section suffix_properties.
Import report_utils.

Lemma str_app_assoc (s1 s2 s3 : string) :
  s1 +:+ (s2 +:+ s3) = (s1 +:+ s2) +:+ s3.
Proof.
  induction s1 as [|c s1 IH]; [done|]. by rewrite !str_app_cons, IH.
Qed.

Lemma str_app_nil_r (s : string) : s +:+ "" = s.
Proof. induction s as [|c s IH]; [done|]. by rewrite str_app_cons, IH. Qed.

Lemma str_join_app sep (l1 l2 : list string) :
  l1 ≠ [] → l2 ≠ [] →
  str_join sep (l1 ++ l2) = str_join sep l1 +:+ sep +:+ str_join sep l2.
Proof.
  intros H1 H2. induction l1 as [|x l1 IH]; [done|].
  destruct l1 as [|y l1].
  - simpl app. by rewrite str_join_cons.
  - change ((x :: y :: l1) ++ l2) with (x :: ((y :: l1) ++ l2)).
    rewrite !str_join_cons by done. rewrite IH by done.
    by rewrite !str_app_assoc.
Qed.

(** The join of a tail of the chunks is an ending of the join of all. *)
Lemma str_join_drop sep (l : list string) k :
  ∃ p, str_join sep l = p +:+ str_join sep (drop k l).
Proof.
  destruct (decide (drop k l = [])) as [Hd|Hd].
  { rewrite Hd. exists (str_join sep l). by rewrite str_app_nil_r. }
  destruct (decide (take k l = [])) as [Ht|Ht].
  { exists "". rewrite <-(take_drop k l) at 1. by rewrite Ht. }
  exists (str_join sep (take k l) +:+ sep).
  rewrite <-(take_drop k l) at 1. rewrite str_join_app by done.
  by rewrite !str_app_assoc.
Qed.

Lemma suffix_chunks_ending (s delim : string) (n : Z) :
  1 ≤ n → ∃ before, s = before +:+ suffix_chunks s delim n.
Proof.
  intros Hn. unfold suffix_chunks. rewrite slice_from_neg by done.
  destruct (str_join_drop delim (str_split delim s)
              (length (str_split delim s) - Z.to_nat n)) as [p Hp].
  exists p. by rewrite <-Hp, join_split.
Qed.

(** X1: for a non-empty delimiter, [_get_suffix] returns the input
    string unchanged when [n_chunks] is 0 (the slice [[-0:]] is the whole
    list of chunks) and when [n_chunks] is at least the number of chunks
    of the input. *)
Theorem get_suffix_whole_string (input_str delim : string) (n_chunks : Z) :
  delim ≠ "" →
  n_chunks = 0 ∨ Z.of_nat (length (str_split delim input_str)) ≤ n_chunks →
  _get_suffix input_str delim n_chunks = Ok input_str.
Proof.
  intros Hd Hn. unfold _get_suffix. rewrite decide_False by done. f_equal.
  destruct Hn as [->|Hn].
  - unfold suffix_chunks, slice_from. change (- 0 <? 0) with false.
    cbn beta iota. rewrite Z.min_l by lia. apply join_split.
  - pose proof (str_split_length_pos delim input_str).
    apply suffix_chunks_all; lia.
Qed.

Lemma get_suffix_whole_string_witness :
  _get_suffix "a.b.c" "." 0 = Ok "a.b.c" ∧ _get_suffix "a.b.c" "." 7 = Ok "a.b.c".
Proof.
  split.
  - apply get_suffix_whole_string; [done | by left].
  - apply get_suffix_whole_string; [done | right; by vm_compute].
Defined.

(** X2: for a non-empty delimiter and [n_chunks >= 1], [_get_suffix]
    returns an ending of the input string; split at the delimiter, it
    gives the last [n_chunks] chunks of the input, all of them when the
    input has fewer. *)
Theorem get_suffix_is_ending (input_str delim : string) (n_chunks : Z) :
  delim ≠ "" → 1 ≤ n_chunks →
  ∃ suffix,
    _get_suffix input_str delim n_chunks = Ok suffix ∧
    (∃ before, input_str = before +:+ suffix) ∧
    str_split delim suffix
    = drop (length (str_split delim input_str) - Z.to_nat n_chunks)
        (str_split delim input_str) ∧
    length (str_split delim suffix)
    = (length (str_split delim input_str) `min` Z.to_nat n_chunks)%nat.
Proof.
  intros Hd Hn. exists (suffix_chunks input_str delim n_chunks).
  unfold _get_suffix. rewrite decide_False by done. split; [done|].
  assert (str_split delim (suffix_chunks input_str delim n_chunks)
          = drop (length (str_split delim input_str) - Z.to_nat n_chunks)
              (str_split delim input_str)) as Hsplit.
  { rewrite (split_suffix_chunks delim Hd) by done. by apply slice_from_neg. }
  split_and!; [|done|].
  - by apply suffix_chunks_ending.
  - rewrite Hsplit, length_drop. lia.
Qed.

Lemma get_suffix_is_ending_witness :
  ∃ suffix, _get_suffix "a.b.c" "." 2 = Ok suffix ∧
    str_split "." suffix = ["b"; "c"].
Proof.
  destruct (get_suffix_is_ending "a.b.c" "." 2) as (s & Hs & _ & Hsplit & _);
    [done..|].
  exists s. split; [done|]. by rewrite Hsplit.
Defined.

(** X3: for a non-empty delimiter and [m, n >= 1], the [m]-chunk suffix
    of the [n]-chunk suffix of a string is its suffix of [min m n]
    chunks. *)
Theorem get_suffix_of_suffix (input_str delim : string) (m n : Z) :
  delim ≠ "" → 1 ≤ m → 1 ≤ n →
  (suffix ← _get_suffix input_str delim n; _get_suffix suffix delim m)
  = _get_suffix input_str delim (Z.min m n).
Proof.
  intros Hd Hm Hn. unfold _get_suffix.
  destruct (decide (delim = "")) as [|_]; [done|].
  cbn [mbind result_bind Py.bind]. f_equal.
  destruct (Z.le_gt_cases m n).
  - rewrite Z.min_l by done. apply (suffix_chunks_shorter delim Hd); lia.
  - rewrite Z.min_r by lia. apply (suffix_chunks_longer delim Hd); lia.
Qed.

Lemma get_suffix_of_suffix_witness :
  (suffix ← _get_suffix "a.b.c.d" "." 3; _get_suffix suffix "." 2)
  = Ok "c.d".
Proof.
  by rewrite (get_suffix_of_suffix "a.b.c.d" "." 2 3).
Defined.


(** X4: with a negative [n_chunks = -k], [_get_suffix] drops the first
    [k] chunks instead of keeping the last ones: split at the delimiter,
    the result gives the chunks after the first [k]; and it is the empty
    string when the input has no more than [k] chunks. *)
Theorem get_suffix_negative_drops_first_chunks (input_str delim : string)
    (k : nat) :
  delim ≠ "" → (1 ≤ k)%nat →
  ∃ rest,
    _get_suffix input_str delim (- Z.of_nat k) = Ok rest ∧
    ((k < length (str_split delim input_str))%nat →
     str_split delim rest = drop k (str_split delim input_str)) ∧
    ((length (str_split delim input_str) ≤ k)%nat → rest = "").
Proof.
  intros Hd Hk. unfold _get_suffix. rewrite decide_False by done.
  eexists. split; [done|].
  unfold suffix_chunks, slice_from. rewrite Z.opp_involutive.
  destruct (Z.ltb_spec (Z.of_nat k) 0) as [|_]; [lia|].
  split.
  - intros Hlt. rewrite Z.min_l, Nat2Z.id by lia.
    destruct (str_split_drop delim input_str k Hd Hlt) as [s' Hs'].
    by rewrite Hs', join_split.
  - intros Hle. rewrite Z.min_r, Nat2Z.id by lia. by rewrite drop_all.
Qed.

Lemma get_suffix_negative_drops_first_chunks_witness :
  ∃ rest, _get_suffix "a.b.c" "." (- 1) = Ok rest ∧
          str_split "." rest = ["b"; "c"].
Proof.
  destruct (get_suffix_negative_drops_first_chunks "a.b.c" "." 1)
    as (rest & Hrest & Hsplit & _); [done | lia |].
  exists rest. split; [exact Hrest|].
  rewrite Hsplit; [done|]. vm_compute. lia.
Defined.
End suffix_properties.

Section resolver_properties.
Import report_utils.

Lemma length_remove_dups_le {A} `{EqDecision A} (l : list A) :
  (length (remove_dups l) ≤ length l)%nat.
Proof.
  induction l as [|x l IH]; simpl; [done|].
  destruct (decide_rel _ x l); simpl; lia.
Qed.

Lemma count_distinct_NoDup {A} `{EqDecision A} (l : list A) :
  length l = count_distinct l ↔ NoDup l.
Proof.
  unfold count_distinct. split.
  - induction l as [|x l IH]; simpl; [intros _; apply NoDup_nil_2|].
    pose proof (length_remove_dups_le l).
    destruct (decide_rel _ x l) as [Hin|Hin]; simpl; [lia|].
    intros [= Hlen]. apply NoDup_cons. split; [done | by apply IH].
  - intros Hnd. by rewrite remove_dups_NoDup_id.
Qed.

(** What makes the resolver return. *)
Lemma resolver_Ok_inv (input_str_list : list string) (delim : string) m :
  _get_shortest_unique_suffix_dict input_str_list delim = Ok m →
  NoDup input_str_list ∧ delim ≠ "" ∧ input_str_list ≠ [].
Proof.
  unfold _get_shortest_unique_suffix_dict.
  destruct (Nat.eqb_spec (length input_str_list)
              (count_distinct input_str_list)) as [Heq|Hne]; [|done].
  cbn [negb]. destruct (decide (delim = "")) as [|Hd]; [done|].
  intros Hm. split_and!; [by apply count_distinct_NoDup | done |].
  by intros ->.
Qed.

(** X5: a mapping the resolver returns has one entry per input; no two
    inputs have the same abbreviation; and the abbreviation of an input
    is an ending of it. *)
Theorem resolver_abbreviations_distinct (input_str_list : list string)
    (delim : string) (m : list (string * string)) :
  _get_shortest_unique_suffix_dict input_str_list delim = Ok m →
  length m = length input_str_list ∧
  (∀ s t v, od_get s m = Some v → od_get t m = Some v → s = t) ∧
  (∀ s v, od_get s m = Some v →
     s ∈ input_str_list ∧ ∃ before, s = before +:+ v).
Proof.
  intros Hm. destruct (resolver_Ok_inv _ _ _ Hm) as (Hnd & Hd & Hne).
  destruct (resolver_correct input_str_list delim Hd Hnd Hne)
    as (m' & Hm' & Hkeys & Hin & Hget).
  assert (m' = m) as -> by congruence.
  assert (∀ s v, od_get s m = Some v →
            s ∈ input_str_list ∧ ∃ n, 1 ≤ n ∧ v = suffix_chunks s delim n ∧
            ((∀ t k, t ∈ input_str_list → 1 ≤ k →
                suffix_chunks t delim k = v → t = s) ∨ v = s)) as Hval.
  { intros s v Hs.
    assert (s ∈ input_str_list) as Hsl.
    { apply Hin, od_get_is_Some. eauto. }
    split; [done|]. rewrite (Hget s Hsl) in Hs. injection Hs as <-.
    destruct (shortest_unique_suffix_least input_str_list delim s Hsl)
      as (n & Hn & Heq & Huniq & Hleast).
    exists n. split_and!; [done..|]. rewrite Heq.
    destruct (shortest_unique_suffix_strict input_str_list delim Hd s n
                Hsl Hn Huniq Hleast) as [Hstrict|[Hwhole _]];
      [by left | by right]. }
  split_and!.
  - transitivity (length (od_keys m)); [unfold od_keys; by rewrite length_fmap|].
    apply Permutation_length, NoDup_Permutation; done.
  - intros s t v Hs Ht.
    destruct (Hval s v Hs) as (Hsl & ns & Hns & Hvs & Hcs).
    destruct (Hval t v Ht) as (Htl & nt & Hnt & Hvt & Hct).
    destruct Hcs as [Hcs| ->].
    { symmetry. by apply (Hcs t nt). }
    destruct Hct as [Hct| ->]; [|done].
    by apply (Hct s ns).
  - intros s v Hs. destruct (Hval s v Hs) as (Hsl & n & Hn & -> & _).
    split; [done|]. by apply suffix_chunks_ending.
Qed.

Lemma resolver_abbreviations_distinct_witness :
  ∃ m, _get_shortest_unique_suffix_dict ["x"; "a.x"; "b.a.x"; "c.y"] "." = Ok m ∧
    length m = 4%nat.
Proof.
  eexists. split; [by vm_compute|].
  by apply (resolver_abbreviations_distinct ["x"; "a.x"; "b.a.x"; "c.y"] ".").
Defined.

(** X6: the resolver raises AssertionError when the inputs are not
    pairwise distinct, whatever the delimiter; for distinct inputs and
    the empty delimiter, the ValueError about the delimiter; for no input
    at all and a non-empty delimiter, the ValueError of [max] on an empty
    sequence; and in every other case it returns a mapping. *)
Theorem resolver_rejects_bad_input (input_str_list : list string)
    (delim : string) :
  (¬ NoDup input_str_list →
   _get_shortest_unique_suffix_dict input_str_list delim
   = Raise AssertionError) ∧
  (NoDup input_str_list → delim = "" →
   _get_shortest_unique_suffix_dict input_str_list delim
   = Raise (ValueError "delim must be a non-empty string.")) ∧
  (input_str_list = [] → delim ≠ "" →
   _get_shortest_unique_suffix_dict input_str_list delim
   = Raise (ValueError "max() arg is an empty sequence")) ∧
  (NoDup input_str_list → delim ≠ "" → input_str_list ≠ [] →
   ∃ m, _get_shortest_unique_suffix_dict input_str_list delim = Ok m).
Proof.
  unfold _get_shortest_unique_suffix_dict. split_and!.
  - intros Hnd.
    destruct (Nat.eqb_spec (length input_str_list)
                (count_distinct input_str_list)) as [Heq|Hne]; [|done].
    by apply count_distinct_NoDup in Heq.
  - intros Hnd ->. apply count_distinct_NoDup in Hnd. rewrite Hnd.
    by rewrite Nat.eqb_refl.
  - intros -> Hd. cbn. by rewrite decide_False.
  - intros Hnd Hd Hne.
    destruct (resolver_correct input_str_list delim Hd Hnd Hne)
      as (m & Hm & _). by exists m.
Qed.

Lemma resolver_rejects_bad_input_witness :
  _get_shortest_unique_suffix_dict ["a.x"; "b.y"; "a.x"] ""
  = Raise AssertionError.
Proof.
  apply (resolver_rejects_bad_input ["a.x"; "b.y"; "a.x"] "").
  apply (bool_decide_unpack _). by vm_compute.
Defined.

Lemma NoDup_fmap_elem_inj {A B} (f : A → B) (l : list A) x y :
  NoDup (f <$> l) → x ∈ l → y ∈ l → f x = f y → x = y.
Proof.
  induction l as [|z l IH]; [by intros _ ?%elem_of_nil|].
  cbn [fmap list_fmap]. intros [Hz Hnd]%NoDup_cons.
  intros [->|Hx]%elem_of_cons [->|Hy]%elem_of_cons Heq; [done| | |by apply IH].
  - destruct Hz. rewrite Heq. by apply list_elem_of_fmap_2.
  - destruct Hz. rewrite <-Heq. by apply list_elem_of_fmap_2.
Qed.

(** X7: inputs whose last chunks are pairwise distinct are each
    abbreviated to their last chunk. *)
Theorem resolver_distinct_last_chunks (input_str_list : list string)
    (delim : string) :
  delim ≠ "" → input_str_list ≠ [] →
  NoDup ((λ s, last (str_split delim s)) <$> input_str_list) →
  ∃ m,
    _get_shortest_unique_suffix_dict input_str_list delim = Ok m ∧
    ∀ s, s ∈ input_str_list →
      ∃ chunk, last (str_split delim s) = Some chunk ∧
               od_get s m = Some chunk.
Proof.
  intros Hd Hne Hlast.
  assert (NoDup input_str_list) as Hnd by by eapply NoDup_fmap_1.
  assert (∀ s, last (str_split delim s) = Some (suffix_chunks s delim 1))
    as Hchunk.
  { intros s. unfold suffix_chunks. rewrite slice_from_neg by done.
    pose proof (str_split_length_pos delim s) as Hpos.
    destruct (str_split delim s) as [|c cs] using rev_ind; [simpl in Hpos; lia|].
    rewrite last_snoc, length_app. simpl.
    replace (length cs + 1 - Z.to_nat 1)%nat with (length cs + 0)%nat by lia.
    by rewrite drop_app_length'. }
  destruct (resolver_correct input_str_list delim Hd Hnd Hne)
    as (m & Hm & _ & _ & Hget).
  exists m. split; [done|]. intros s Hs.
  exists (suffix_chunks s delim 1). split; [done|].
  rewrite (Hget s Hs). f_equal.
  destruct (shortest_unique_suffix_least input_str_list delim s Hs)
    as (n & Hn & -> & _ & Hleast).
  destruct (decide (n = 1)) as [->|Hn1]; [done|].
  destruct (Hleast 1) as (t & Ht & Hts & Heq); [lia|].
  destruct Hts.
  apply (NoDup_fmap_elem_inj _ _ _ _ Hlast Ht Hs).
  by rewrite !Hchunk, Heq.
Qed.

Lemma resolver_distinct_last_chunks_witness :
  ∃ m, _get_shortest_unique_suffix_dict ["ax.metric.loss"; "ax.metric.accuracy"] "."
       = Ok m ∧ od_get "ax.metric.loss" m = Some "loss".
Proof.
  destruct (resolver_distinct_last_chunks
              ["ax.metric.loss"; "ax.metric.accuracy"] ".")
    as (m & Hm & Hget); [done | done | |].
  { apply (bool_decide_unpack _). by vm_compute. }
  exists m. split; [done|].
  destruct (Hget "ax.metric.loss") as (chunk & Hlast & ->).
  { apply (bool_decide_unpack _). by vm_compute. }
  vm_compute in Hlast. by injection Hlast as <-.
Defined.

End resolver_properties.

(** ** Generator runs *)

Section generator_run_properties.
Import generator_run.
Context `{ArmClass}.

(** *** Dictionaries filled in a loop *)

(** [for x in l: d[key(x)] = val(x)]: one entry per key, in the order
    in which the keys first occur, holding the value of the last [x]
    with that key. *)
Lemma foldl_od_set_last {A V} (key : A → string) (val : A → V) (l : list A) :
  let d := foldl (λ d x, od_set (key x) (val x) d) [] l in
  od_keys d = first_occurrences (key <$> l) ∧
  ∀ k, od_get k d = val <$> last (filter (λ x, key x = k) l).
Proof.
  induction l as [|x l [IHk IHg]] using rev_ind; [done|].
  cbn zeta in *. rewrite foldl_app. cbn [foldl]. split.
  - rewrite od_keys_set, fmap_app. change (key <$> [x]) with [key x].
    rewrite first_occurrences_snoc, IHk.
    destruct (decide (key x ∈ first_occurrences (key <$> l))) as [Hin|Hin];
      rewrite elem_of_first_occurrences in Hin.
    + by rewrite decide_True.
    + by rewrite decide_False.
  - intros k. rewrite od_get_set, filter_app, IHg.
    destruct (decide (key x = k)) as [Heq|Hne].
    + rewrite filter_cons_True, filter_nil by done. by rewrite last_snoc.
    + rewrite filter_cons_False, filter_nil, app_nil_r by done. done.
Qed.

(** X8: the dictionary [param_df] makes its table from has one entry
    per arm name ([name_or_short_signature]), in the order in which the
    names first occur among the arms, holding the parameters of the last
    arm with that name; so the table has at most as many rows as the run
    has arms. *)
Theorem param_df_one_row_per_name (self : GeneratorRun) :
  od_keys (param_df self)
  = first_occurrences (name_or_short_signature <$> arms self) ∧
  (length (param_df self) ≤ length (arms self))%nat ∧
  ∀ name,
    od_get name (param_df self)
    = parameters
      <$> last (filter (λ a, name_or_short_signature a = name) (arms self)).
Proof.
  destruct (foldl_od_set_last name_or_short_signature parameters (arms self))
    as [Hk Hg].
  split_and!; [done| |done].
  transitivity (length (od_keys (param_df self)));
    [unfold od_keys; by rewrite length_fmap|].
  unfold param_df. rewrite Hk, length_first_occurrences.
  unfold count_distinct.
  etransitivity; [apply length_remove_dups_le|]. by rewrite length_fmap.
Qed.

(** *** Which arm the table keeps *)

Lemma od_get_add_arm (T : list (string * ArmWeight)) (a : Arm) (w : float) k :
  arm <$> od_get k (add_arm T (a, w))
  = if decide (signature a = k) then Some a else arm <$> od_get k T.
Proof.
  unfold add_arm. destruct (od_get (signature a) T); rewrite od_get_set;
    by destruct (decide (signature a = k)).
Qed.

Lemma foldl_add_arm_last (aws : list (Arm * float)) k :
  arm <$> od_get k (foldl add_arm [] aws)
  = last (filter (λ x, signature x = k) aws.*1).
Proof.
  induction aws as [|[a w] aws IH] using rev_ind; [done|].
  rewrite foldl_app. cbn [foldl]. rewrite od_get_add_arm, IH.
  rewrite fmap_app, filter_app. change ([(a, w)].*1) with [a].
  destruct (decide (signature a = k)) as [Heq|Hne].
  - rewrite filter_cons_True, filter_nil by done. by rewrite last_snoc.
  - rewrite filter_cons_False, filter_nil, app_nil_r by done. done.
Qed.

Lemma od_values_by_key {V B} (f : V → B) (g : string → option B)
    (T : list (string * V)) :
  NoDup (od_keys T) →
  (∀ k, k ∈ od_keys T → f <$> od_get k T = g k) →
  Some <$> (f <$> od_values T) = g <$> od_keys T.
Proof.
  unfold od_keys, od_values.
  induction T as [|[k v] T IH]; [done|]. cbn [fmap list_fmap fst snd].
  intros [Hk Hnd]%NoDup_cons Hget. f_equal.
  - rewrite <-(Hget k) by (apply elem_of_cons; by left).
    simpl. by rewrite decide_True.
  - apply IH; [done|]. intros k' Hk'.
    rewrite <-(Hget k') by (apply elem_of_cons; by right).
    simpl. rewrite decide_False; [done|]. by intros ->.
Qed.

(** X9: of the input arms that share a signature the run keeps the last
    one: [arms] lists, for each signature in the order of first
    occurrence, the last input arm with that signature. *)
Theorem init_keeps_last_arm_of_signature (h : heap Arm) (now : datetime)
    (a : InitArgs) (gr : GeneratorRun) :
  __init__ h now a = Ok gr →
  Some <$> arms gr
  = (λ s, last (filter (λ x, signature x = s) (arg_arms a)))
    <$> first_occurrences (signature <$> arg_arms a).
Proof.
  intros Hinit.
  destruct (init_table _ _ _ _ Hinit) as (Hlen & Hkeys & _).
  destruct (init_Ok_inv _ _ _ _ Hinit) as (_ & Htab & _).
  rewrite <-Hkeys. unfold arms. apply od_values_by_key.
  - rewrite Hkeys. apply NoDup_first_occurrences.
  - intros k _. rewrite Htab. unfold build_table.
    by rewrite foldl_add_arm_last, fst_zip by lia.
Qed.

(** X10: a run just built has no index; its unique id is the decimal
    string of the generation-step index it was given, and asking for it
    raises when it was given none; assigning it an index succeeds
    whatever the value, a negative one included, and the unique id is
    then the decimal string of that index. *)
Theorem built_run_takes_any_index (h : heap Arm) (now : datetime)
    (a : InitArgs) (gr : GeneratorRun) (i : Z) :
  __init__ h now a = Ok gr →
  index gr = None ∧
  _unique_id gr
  = match arg_generation_step_index a with
    | Some step => Ok (str_of_int step)
    | None =>
        Raise (ValueError
          "GeneratorRuns only have a unique id if attached to a Trial or GenerationStrategy.")
    end ∧
  (set_index gr i).2 = Ok () ∧
  index (set_index gr i).1 = Some i ∧
  _unique_id (set_index gr i).1 = Ok (str_of_int i).
Proof.
  intros Hinit.
  destruct (init_Ok_inv _ _ _ _ Hinit) as (_ & _ & Hidx & _ & _ & Hstep).
  unfold _unique_id, index, set_index. rewrite Hidx, Hstep.
  rewrite bool_decide_eq_false_2 by naive_solver. done.
Qed.

(** *** Predictions per arm *)

Lemma map_result_Ok {A B} (f : A → result B) (l : list A) (ys : list B) :
  map_result f l = Ok ys ↔ Forall2 (λ x y, f x = Ok y) l ys.
Proof.
  revert ys. induction l as [|x l IH]; intros ys; simpl.
  - split; [intros [= <-]; constructor | by intros ->%Forall2_nil_inv_l].
  - destruct (f x) as [y|e] eqn:Ex; cbn [mbind result_bind Py.bind].
    + destruct (map_result f l) as [ys'|e] eqn:El;
        cbn [mbind result_bind Py.bind].
      * split.
        -- intros [= <-]. constructor; [done | by apply IH].
        -- intros (y' & ys'' & Hy & Hys & ->)%Forall2_cons_inv_l.
           apply IH in Hys. congruence.
      * split; [done|].
        intros (y' & ys'' & Hy & Hys & ->)%Forall2_cons_inv_l.
        by apply IH in Hys.
    + split; [done|].
      intros (y' & ys'' & Hy & Hys & ->)%Forall2_cons_inv_l. congruence.
Qed.

Lemma map_result_Raise {A B} (f : A → result B) (l : list A) e :
  map_result f l = Raise e → ∃ x, x ∈ l ∧ f x = Raise e.
Proof.
  induction l as [|x l IH]; simpl; [done|].
  destruct (f x) as [y|e'] eqn:Ex; cbn [mbind result_bind Py.bind].
  - destruct (map_result f l) as [ys'|e'] eqn:El;
      cbn [mbind result_bind Py.bind]; [done|].
    intros [= ->]. destruct IH as (x' & Hx' & Hf); [done|].
    exists x'. split; [apply elem_of_cons; by right | done].
  - intros [= ->]. exists x. split; [apply elem_of_cons; by left | done].
Qed.

Lemma list_getitem_nat {A} (xs : list A) (i : nat) :
  list_getitem xs (Z.of_nat i)
  = match xs !! i with Some x => Ok x | None => Raise IndexError end.
Proof.
  unfold list_getitem. destruct (Z.ltb_spec (Z.of_nat i) 0) as [|_]; [lia|].
  destruct (Z.ltb_spec (Z.of_nat i) 0) as [|_]; [lia|]. cbn [orb].
  rewrite Nat2Z.id.
  destruct (Z.leb_spec (Z.of_nat (length xs)) (Z.of_nat i)) as [Hle|Hlt].
  - rewrite lookup_ge_None_2; [done | lia].
  - done.
Qed.

Lemma extract_arm_predictions_raises (model_predictions : TModelPredict)
    (arm_idx : nat) e :
  extract_arm_predictions model_predictions (Z.of_nat arm_idx) = Raise e →
  e = IndexError.
Proof.
  unfold extract_arm_predictions.
  assert (∀ l e,
            map_result (λ '((metric, vals) : string * list float),
                          v ← list_getitem vals (Z.of_nat arm_idx);
                          Ok (metric, v)) l = Raise e → e = IndexError)
    as Hrow.
  { intros l e' ([metric vals] & _ & Hx)%map_result_Raise.
    rewrite list_getitem_nat in Hx.
    destruct (vals !! arm_idx); cbn [mbind result_bind Py.bind] in Hx;
      congruence. }
  destruct (map_result _ model_predictions.1) as [means|e'] eqn:Em;
    cbn [mbind result_bind Py.bind].
  2:{ intros [= <-]. by apply Hrow in Em. }
  destruct (map_result _ model_predictions.2) as [covs|e'] eqn:Ec;
    cbn [mbind result_bind Py.bind]; [done|].
  intros [= <-].
  apply map_result_Raise in Ec as ([metric row] & _ & Hr).
  destruct (map_result _ row) as [r|e''] eqn:Er;
    cbn [mbind result_bind Py.bind] in Hr; [done|].
  injection Hr as <-. by apply Hrow in Er.
Qed.

(** X11: when every list of means and of covariances has an entry at
    [arm_idx], [extract_arm_predictions] returns, under the same metric
    names in the same order, entry [arm_idx] of each list; when some list
    is too short, it raises IndexError. *)
Theorem extract_arm_predictions_takes_entry (model_predictions : TModelPredict)
    (arm_idx : nat) :
  let covered :=
    (∀ metric vals, (metric, vals) ∈ model_predictions.1 →
       (arm_idx < length vals)%nat) ∧
    (∀ metric row other_metric vals,
       (metric, row) ∈ model_predictions.2 → (other_metric, vals) ∈ row →
       (arm_idx < length vals)%nat) in
  (covered →
   ∃ means covs,
     extract_arm_predictions model_predictions (Z.of_nat arm_idx)
     = Ok (means, covs) ∧
     Forall2 (λ '(metric, vals) '(metric', v),
                metric' = metric ∧ vals !! arm_idx = Some v)
       model_predictions.1 means ∧
     Forall2 (λ '(metric, row) '(metric', row'),
                metric' = metric ∧
                Forall2 (λ '(other, vals) '(other', v),
                           other' = other ∧ vals !! arm_idx = Some v)
                  row row')
       model_predictions.2 covs) ∧
  (¬ covered →
   extract_arm_predictions model_predictions (Z.of_nat arm_idx)
   = Raise IndexError).
Proof.
  destruct model_predictions as [means0 covs0]. cbn [fst snd].
  match goal with |- (?C → _) ∧ _ => set (covered := C) end.
  set (entry := λ '((metric, vals) : string * list float),
         v ← list_getitem vals (Z.of_nat arm_idx); Ok (metric, v)).
  assert (∀ metric vals,
            match vals !! arm_idx with
            | Some v => entry (metric, vals) = Ok (metric, v)
            | None => entry (metric, vals) = Raise IndexError
            end) as Hentry.
  { intros metric vals. unfold entry. rewrite list_getitem_nat.
    by destruct (vals !! arm_idx). }
  assert (∀ l, (∀ metric vals, (metric, vals) ∈ l → (arm_idx < length vals)%nat)
            → ∃ r, map_result entry l = Ok r ∧
                Forall2 (λ '(metric, vals) '(metric', v),
                           metric' = metric ∧ vals !! arm_idx = Some v) l r)
    as Hrow.
  { induction l as [|[metric vals] l IH]; intros Hl.
    { exists []. split; [done | constructor]. }
    destruct IH as (r & Hr & Hall).
    { intros m v Hin. apply (Hl m v). apply elem_of_cons. by right. }
    destruct (lookup_lt_is_Some_2 vals arm_idx) as [v Hv].
    { apply (Hl metric). apply elem_of_cons. by left. }
    exists ((metric, v) :: r). split; [|by constructor].
    pose proof (Hentry metric vals) as He. rewrite Hv in He.
    cbn [map_result]. rewrite He. cbn [mbind result_bind Py.bind].
    by rewrite Hr. }
  assert (∀ l e, map_result entry l = Raise e →
            e = IndexError ∧
            ∃ metric vals, (metric, vals) ∈ l ∧ (length vals ≤ arm_idx)%nat)
    as Hfail.
  { intros l e ([metric vals] & Hin & Hmv)%map_result_Raise.
    pose proof (Hentry metric vals) as He.
    destruct (vals !! arm_idx) eqn:Ev; [congruence|].
    split; [congruence|]. exists metric, vals. split; [done|].
    by apply lookup_ge_None. }
  assert (covered →
          ∃ means covs,
            extract_arm_predictions (means0, covs0) (Z.of_nat arm_idx)
            = Ok (means, covs) ∧
            Forall2 (λ '(metric, vals) '(metric', v),
                       metric' = metric ∧ vals !! arm_idx = Some v)
              means0 means ∧
            Forall2 (λ '(metric, row) '(metric', row'),
                       metric' = metric ∧
                       Forall2 (λ '(other, vals) '(other', v),
                                  other' = other ∧ vals !! arm_idx = Some v)
                         row row')
              covs0 covs) as Hok.
  { intros [Hm Hc]. destruct (Hrow means0 Hm) as (means & Hmeans & Hall).
    assert (∃ covs,
              map_result (λ '(metric, row), r ← map_result entry row;
                                            Ok (metric, r)) covs0 = Ok covs ∧
              Forall2 (λ '(metric, row) '(metric', row'),
                         metric' = metric ∧
                         Forall2 (λ '(other, vals) '(other', v),
                                    other' = other ∧ vals !! arm_idx = Some v)
                           row row')
                covs0 covs) as (covs & Hcovs & Hallc).
    { clear Hm. induction covs0 as [|[metric row] covs0 IH].
      { exists []. split; [done | constructor]. }
      destruct IH as (covs & Hcovs & Hallc).
      { intros m r o v Hin. apply (Hc m r o v). apply elem_of_cons. by right. }
      destruct (Hrow row) as (r & Hr & Hallr).
      { intros o v Hin. apply (Hc metric row o v); [|done].
        apply elem_of_cons. by left. }
      exists ((metric, r) :: covs). split; [|by constructor].
      cbn [map_result]. rewrite Hr. cbn [mbind result_bind Py.bind].
      by rewrite Hcovs. }
    exists means, covs. split; [|done].
    unfold extract_arm_predictions. cbn [fst snd]. fold entry.
    rewrite Hmeans. cbn [mbind result_bind Py.bind].
    by rewrite Hcovs. }
  split; [done|]. intros Hnot.
  unfold extract_arm_predictions. cbn [fst snd]. fold entry.
  destruct (map_result entry means0) as [means|e] eqn:Em;
    cbn [mbind result_bind Py.bind].
  2:{ by destruct (Hfail _ _ Em) as [-> _]. }
  destruct (map_result _ covs0) as [covs|e] eqn:Ec;
    cbn [mbind result_bind Py.bind].
  2:{ apply map_result_Raise in Ec as ([metric row] & Hin & Hr).
      destruct (map_result entry row) as [r|e'] eqn:Er;
        cbn [mbind result_bind Py.bind] in Hr; [done|].
      injection Hr as <-. by destruct (Hfail _ _ Er) as [-> _]. }
  destruct Hnot. split.
  - intros metric vals Hin. apply map_result_Ok in Em.
    apply list_elem_of_lookup in Hin as [i Hi].
    destruct (Forall2_lookup_l _ _ _ _ _ Em Hi) as (y & _ & Hy).
    pose proof (Hentry metric vals) as He.
    destruct (vals !! arm_idx) eqn:Ev; [|congruence].
    by apply lookup_lt_Some in Ev.
  - intros metric row other vals Hin Hin'. apply map_result_Ok in Ec.
    apply list_elem_of_lookup in Hin as [i Hi].
    destruct (Forall2_lookup_l _ _ _ _ _ Ec Hi) as (y & _ & Hy).
    cbn beta iota in Hy.
    destruct (map_result entry row) as [r|e'] eqn:Er;
      cbn [mbind result_bind Py.bind] in Hy; [|done].
    apply map_result_Ok in Er.
    apply list_elem_of_lookup in Hin' as [j Hj].
    destruct (Forall2_lookup_l _ _ _ _ _ Er Hj) as (z & _ & Hz).
    pose proof (Hentry other vals) as He.
    destruct (vals !! arm_idx) eqn:Ev; [|congruence].
    by apply lookup_lt_Some in Ev.
Qed.

Lemma od_set_fresh {V} (k : string) (v : V) (d : list (string * V)) :
  k ∉ od_keys d → od_set k v d = d ++ [(k, v)].
Proof.
  unfold od_keys. induction d as [|[k' v'] d IH]; simpl; [done|].
  intros [? ?]%not_elem_of_cons.
  rewrite decide_False by done. by rewrite IH.
Qed.

Lemma map_result_total {A B} (f : A → result B) (l : list A) :
  (∀ x, x ∈ l → ∃ y, f x = Ok y) → ∃ ys, map_result f l = Ok ys.
Proof.
  induction l as [|x l IH]; intros Hl; [by exists []|].
  destruct (Hl x) as [y Hy]; [apply elem_of_cons; by left|].
  destruct IH as [ys Hys].
  { intros x' Hx'. apply Hl. apply elem_of_cons. by right. }
  exists (y :: ys). simpl. rewrite Hy. cbn [mbind result_bind Py.bind].
  by rewrite Hys.
Qed.

(** The loop of [model_predictions_by_arm] over arms with pairwise
    distinct signatures: the predictions of the arms, one after the
    other, then the dictionary. *)
Lemma predictions_loop (p : TModelPredict) (xs : list Arm) (k : nat)
    (acc : list (string * TModelPredictArm)) :
  NoDup (signature <$> xs) →
  (∀ x, x ∈ xs → signature x ∉ od_keys acc) →
  foldl (λ acc '(idx, cond),
           predictions ← acc;
           q ← extract_arm_predictions p (Z.of_nat idx);
           Ok (od_set (signature cond) q predictions))
    (Ok acc) (imap (λ idx cond, ((k + idx)%nat, cond)) xs)
  = qs ← map_result (λ i, extract_arm_predictions p (Z.of_nat i))
          (seq k (length xs));
    Ok (acc ++ zip (signature <$> xs) qs).
Proof.
  revert k acc. induction xs as [|x xs IH]; intros k acc Hnd Hacc.
  { simpl. by rewrite app_nil_r. }
  cbn [fmap list_fmap] in Hnd. apply NoDup_cons in Hnd as [Hx Hnd].
  rewrite imap_cons. cbn [foldl length seq map_result].
  cbn [mbind result_bind Py.bind]. rewrite Nat.add_0_r.
  destruct (extract_arm_predictions p (Z.of_nat k)) as [q|e] eqn:Eq;
    cbn [mbind result_bind Py.bind].
  - rewrite (imap_ext _ (λ idx cond, ((S k + idx)%nat, cond)));
      [|intros i y _; simpl; f_equal; lia].
    rewrite od_set_fresh by (apply Hacc, elem_of_cons; by left).
    rewrite IH; [|done|].
    + destruct (map_result _ (seq (S k) (length xs))) as [qs|e];
        cbn [mbind result_bind Py.bind]; [|done].
      cbn [fmap list_fmap zip zip_with]. by rewrite <-(assoc_L (++)).
    + intros y Hy. unfold od_keys. rewrite fmap_app, not_elem_of_app.
      split; [apply Hacc, elem_of_cons; by right|].
      cbn [fmap list_fmap fst]. rewrite list_elem_of_singleton.
      intros Heq. apply Hx. rewrite <-Heq. by apply list_elem_of_fmap_2.
  - clear. match goal with |- foldl _ _ ?l = _ => generalize l end.
    intros l. induction l as [|[i c] l IHl]; [done|]. by simpl.
Qed.

Lemma od_get_zip {V} (ks : list string) (vs : list V) i k v :
  NoDup ks → length ks = length vs →
  ks !! i = Some k → vs !! i = Some v → od_get k (zip ks vs) = Some v.
Proof.
  intros Hnd Hlen Hk Hv. apply od_elem_of_get.
  - unfold od_keys. by rewrite fst_zip by lia.
  - apply list_elem_of_lookup. exists i.
    by rewrite lookup_zip_with, Hk, Hv.
Qed.

(** X12: on a run the constructor built, [model_predictions_by_arm] is
    [None] when the run has no model predictions; otherwise, when the
    predictions can be extracted at the position of every arm, it returns
    a dictionary whose keys are the signatures of the arms, in order,
    each holding the predictions extracted at the position of its arm;
    and when the extraction fails at some position, it raises
    IndexError. *)
Theorem model_predictions_by_arm_by_signature (h0 h : heap Arm)
    (now : datetime) (a : InitArgs) (gr : GeneratorRun) :
  __init__ h0 now a = Ok gr →
  match model_predictions gr with
  | None => model_predictions_by_arm h gr = Ok None
  | Some l =>
      let p := heap_predictions h l in
      ((∀ i, (i < length (arms gr))%nat →
          ∃ q, extract_arm_predictions p (Z.of_nat i) = Ok q) →
       ∃ d, model_predictions_by_arm h gr = Ok (Some d) ∧
         od_keys d = signature <$> arms gr ∧
         ∀ i x, arms gr !! i = Some x →
           ∃ q, extract_arm_predictions p (Z.of_nat i) = Ok q ∧
                od_get (signature x) d = Some q) ∧
      (∀ i e, (i < length (arms gr))%nat →
         extract_arm_predictions p (Z.of_nat i) = Raise e →
         model_predictions_by_arm h gr = Raise IndexError)
  end.
Proof.
  intros Hinit. unfold model_predictions, model_predictions_by_arm.
  destruct (_model_predictions gr) as [l|]; [|done].
  set (p := heap_predictions h l).
  destruct (init_table _ _ _ _ Hinit) as (_ & _ & Hsigs & _).
  assert (NoDup (signature <$> arms gr)) as Hnd
    by (rewrite Hsigs; apply NoDup_first_occurrences).
  rewrite (imap_ext _ (λ idx cond, ((0 + idx)%nat, cond))) by done.
  rewrite predictions_loop; [|done|intros x _; apply not_elem_of_nil].
  cbn [app]. split.
  - intros Hall.
    destruct (map_result_total
                (λ i, extract_arm_predictions p (Z.of_nat i))
                (seq 0 (length (arms gr)))) as [qs Hqs].
    { intros i Hi%elem_of_seq. apply Hall. lia. }
    rewrite Hqs. cbn [mbind result_bind Py.bind].
    apply map_result_Ok in Hqs.
    pose proof (Forall2_length _ _ _ Hqs) as Hlen. rewrite length_seq in Hlen.
    eexists. split; [done|]. split.
    + unfold od_keys. rewrite fst_zip; [done|]. rewrite length_fmap. lia.
    + intros i x Hx.
      assert (seq 0 (length (arms gr)) !! i = Some i) as Hi.
      { apply lookup_seq. split; [done|]. by apply lookup_lt_Some in Hx. }
      destruct (Forall2_lookup_l _ _ _ _ _ Hqs Hi) as (q & Hq & Hext).
      exists q. split; [done|].
      apply (od_get_zip _ _ i); [done| |by rewrite list_lookup_fmap, Hx|done].
      rewrite length_fmap. lia.
  - intros i e Hi Hext.
    destruct (map_result _ (seq 0 (length (arms gr)))) as [qs|e'] eqn:Hqs;
      cbn [mbind result_bind Py.bind].
    + apply map_result_Ok in Hqs.
      assert (seq 0 (length (arms gr)) !! i = Some i) as Hi'
        by (apply lookup_seq; split; [done|lia]).
      destruct (Forall2_lookup_l _ _ _ _ _ Hqs Hi') as (q & _ & Hq).
      congruence.
    + apply map_result_Raise in Hqs as (j & _ & Hj).
      by apply extract_arm_predictions_raises in Hj as ->.
Qed.
End generator_run_properties.

(** ** The store, [clone] and sequences of calls *)

Section store.
Context {Arm : Type}.
Implicit Types (h : heap Arm) (l : loc) (r : option loc).

Lemma heap_lookup_prefix h h' l (o : pyobj Arm) :
  h `prefix_of` h' → h !! l = Some o → h' !! l = Some o.
Proof. intros Hpre Ho. exact (prefix_lookup_Some _ _ _ _ Ho Hpre). Qed.

Lemma alloc_lookup h (o : pyobj Arm) :
  (alloc h o).1 !! (alloc h o).2 = Some o ∧ (alloc h o).2 = length h.
Proof. split; [|done]. exact (list_lookup_middle h [] o _ eq_refl). Qed.

Lemma alloc_prefix h (o : pyobj Arm) : h `prefix_of` (alloc h o).1.
Proof. by apply prefix_app_r. Qed.

Lemma deepcopy_prefix h l : h `prefix_of` (deepcopy h l).1.
Proof. unfold deepcopy. destruct (h !! l); [apply alloc_prefix | done]. Qed.

Lemma dict_copy_prefix h l : h `prefix_of` (dict_copy h l).1.
Proof. apply alloc_prefix. Qed.

Lemma copy_opt_prefix (copy : heap Arm → loc → heap Arm * loc) h r :
  (∀ h l, h `prefix_of` (copy h l).1) → h `prefix_of` (copy_opt copy h r).1.
Proof.
  intros Hcopy. unfold copy_opt. destruct r as [l|]; [|done].
  specialize (Hcopy h l). by destruct (copy h l).
Qed.

Lemma heap_dict_prefix h h' l :
  h `prefix_of` h' → is_Some (h !! l) → heap_dict h' l = heap_dict h l.
Proof.
  intros Hpre [o Ho]. unfold heap_dict.
  by rewrite (heap_lookup_prefix _ _ _ _ Hpre Ho), Ho.
Qed.

(** [copy.deepcopy] of a field held in the store [h0], run on a store
    [h] that extends it. *)
Lemma copy_opt_deepcopy h0 h r :
  h0 `prefix_of` h →
  match r with
  | None => (copy_opt deepcopy h r).2 = None
  | Some l =>
      ∀ o, h0 !! l = Some o →
        ∃ l', (copy_opt deepcopy h r).2 = Some l' ∧
              (length h0 ≤ l')%nat ∧
              (copy_opt deepcopy h r).1 !! l' = Some o
  end.
Proof.
  intros Hpre. destruct r as [l|]; [|done]. intros o Ho.
  unfold copy_opt, deepcopy.
  rewrite (heap_lookup_prefix _ _ _ _ Hpre Ho).
  destruct (alloc_lookup h o) as [Hnew Hloc].
  destruct (alloc h o) as [h' l']. cbn [fst snd] in *.
  exists l'. split_and!; [done| |done].
  subst l'. by apply prefix_length.
Qed.

(** [d.copy()] of a dictionary held in [h0], run on a store that extends
    it. *)
Lemma copy_opt_dict_copy h0 h r :
  h0 `prefix_of` h →
  match r with
  | None => (copy_opt dict_copy h r).2 = None
  | Some l =>
      is_Some (h0 !! l) →
      ∃ l', (copy_opt dict_copy h r).2 = Some l' ∧
            (length h0 ≤ l')%nat ∧
            (copy_opt dict_copy h r).1 !! l' = Some (ODict (heap_dict h0 l))
  end.
Proof.
  intros Hpre. destruct r as [l|]; [|done]. intros Hl.
  unfold copy_opt, dict_copy.
  destruct (alloc_lookup h (ODict (heap_dict h l))) as [Hnew Hloc].
  destruct (alloc h _) as [h' l']. cbn [fst snd] in *.
  exists l'. split_and!; [done| |].
  - subst l'. by apply prefix_length.
  - by rewrite Hnew, (heap_dict_prefix h0 h).
Qed.

Lemma heap_dict_setitem_ne h l l' k (v : pyval) :
  l ≠ l' → heap_dict (dict_setitem h l' k v) l = heap_dict h l.
Proof.
  intros Hne.
  assert (dict_setitem h l' k v !! l = h !! l) as E
    by (by apply list_lookup_insert_ne).
  unfold heap_dict at 1. by rewrite E.
Qed.
End store.

Section clone_and_calls.
Import generator_run.
Context `{ArmClass}.

Lemma with_index_id (self : GeneratorRun) : with_index self (_index self) = self.
Proof. by destruct self. Qed.

Lemma set_index_with_index (self : GeneratorRun) (i : Z) :
  (set_index self i).1 = self ∨ (set_index self i).1 = with_index self (Some i).
Proof. unfold set_index. destruct (_ && _); [by left | by right]. Qed.

Lemma set_index_indexed (self : GeneratorRun) (i j : Z) :
  _index self = Some i → (set_index self j).1 = self.
Proof.
  intros Hi. unfold set_index.
  destruct (decide (j = i)) as [->|Hne].
  - rewrite (bool_decide_eq_false_2 (_index self ≠ Some i)) by naive_solver.
    rewrite andb_false_r. cbn [fst]. rewrite <-Hi. apply with_index_id.
  - rewrite !bool_decide_eq_true_2; [done| |]; rewrite Hi; congruence.
Qed.

(** [clone] only adds objects to the store. *)
Lemma clone_prefix (h : heap Arm) (now : datetime) (self : GeneratorRun) :
  h `prefix_of` (clone h now self).1.
Proof.
  unfold clone.
  pose proof (copy_opt_prefix object_clone h (optimization_config self)
                deepcopy_prefix) as H1.
  destruct (copy_opt object_clone h _) as [h1 oc].
  pose proof (copy_opt_prefix object_clone h1 (search_space self)
                deepcopy_prefix) as H2.
  destruct (copy_opt object_clone h1 _) as [h2 ss].
  pose proof (copy_opt_prefix deepcopy h2 (model_predictions self)
                deepcopy_prefix) as H3.
  destruct (copy_opt deepcopy h2 _) as [h3 mp].
  pose proof (copy_opt_prefix deepcopy h3 (best_arm_predictions self)
                deepcopy_prefix) as H4.
  destruct (copy_opt deepcopy h3 _) as [h4 bp]. cbn [fst] in *.
  assert (h `prefix_of` h4) as Hh4 by (by repeat (etransitivity; [eassumption|])).
  destruct (__init__ h4 now _) as [g|e]; [|done].
  pose proof (copy_opt_prefix dict_copy h4 (_model_kwargs self)
                dict_copy_prefix) as H5.
  destruct (copy_opt dict_copy h4 _) as [h5 mk].
  pose proof (copy_opt_prefix dict_copy h5 (_bridge_kwargs self)
                dict_copy_prefix) as H6.
  destruct (copy_opt dict_copy h5 _) as [h6 bk].
  pose proof (copy_opt_prefix dict_copy h6 (_model_state_after_gen self)
                dict_copy_prefix) as H7.
  destruct (copy_opt dict_copy h6 _) as [h7 ms]. cbn [fst] in *.
  by repeat (etransitivity; [eassumption|]).
Qed.

(** One public call: the store grows, the run changes in its index at
    most, and not even there once the index is set. *)
Lemma exec_frame (c : call) (h : heap Arm) (self : GeneratorRun) :
  h `prefix_of` (exec c (h, self)).1.1 ∧
  (∃ idx, (exec c (h, self)).1.2 = with_index self idx) ∧
  (∀ i, _index self = Some i → (exec c (h, self)).1.2 = self).
Proof.
  assert (∃ idx, self = with_index self idx) as Hself
    by (exists (_index self); by rewrite with_index_id).
  destruct c; cbn [exec fst snd]; try done.
  - pose proof (clone_prefix h now self) as Hpre.
    by destruct (clone h now self) as [h' r].
  - pose proof (set_index_with_index self i) as Hset.
    pose proof (λ i0, set_index_indexed self i0 i) as Hidx.
    destruct (set_index self i) as [self' r]. cbn [fst snd] in *.
    split_and!; [done| |by eauto].
    destruct Hset as [->| ->]; eauto.
Qed.

Lemma run_frame (cs : list call) (h : heap Arm) (self : GeneratorRun) :
  h `prefix_of` (run cs (h, self)).1 ∧
  (∃ idx, (run cs (h, self)).2 = with_index self idx) ∧
  (∀ i, _index self = Some i → (run cs (h, self)).2 = self).
Proof.
  revert h self. induction cs as [|c cs IH]; intros h self.
  { cbn. split_and!; [done| |done].
    exists (_index self). by rewrite with_index_id. }
  change (run (c :: cs) (h, self)) with (run cs (exec c (h, self)).1).
  destruct (exec_frame c h self) as (Hpre & [idx Hidx] & Hset).
  destruct (exec c (h, self)).1 as [h1 self1]. cbn [fst snd] in *.
  destruct (IH h1 self1) as (Hpre' & [idx' Hidx'] & Hset').
  split_and!.
  - by etransitivity.
  - exists idx'. by rewrite Hidx', Hidx.
  - intros i Hi. rewrite (Hset i Hi) in *. by apply (Hset' i).
Qed.

(** X13: once the index of a run is set, no sequence of public calls
    (the read accessors, [clone], assignments to [index], refused or
    not) changes any field of the run; its unique id stays the decimal
    string of the index; and every object of the store stays as it
    is. *)
Theorem run_changes_nothing_once_indexed (cs : list call) (h : heap Arm)
    (self : GeneratorRun) (i : Z) :
  index self = Some i →
  (run cs (h, self)).2 = self ∧
  _unique_id (run cs (h, self)).2 = Ok (str_of_int i) ∧
  ∀ l o, h !! l = Some o → (run cs (h, self)).1 !! l = Some o.
Proof.
  intros Hi. destruct (run_frame cs h self) as (Hpre & _ & Hsame).
  rewrite (Hsame i Hi). split_and!; [done| |].
  - unfold _unique_id. by rewrite Hi.
  - intros l o Ho. by apply (heap_lookup_prefix h).
Qed.

(** X14: [clone] leaves every object of the store as it is, it only
    adds objects (the [clone] of an optimization config or of a search
    space being taken to add a copy); and in a clone it returns,
    [model_kwargs], [bridge_kwargs] and [model_state_after_gen] are new
    dictionaries with the items of the original's, so that an item
    assigned through the one is not seen through the other, and
    [model_predictions] and [best_arm_predictions] are new objects with
    the content of the original's. *)
Theorem clone_only_allocates (h : heap Arm) (now : datetime)
    (self : GeneratorRun) (h' : heap Arm) (r : result GeneratorRun) :
  clone h now self = (h', r) →
  (∀ l o, h !! l = Some o → h' !! l = Some o) ∧
  ∀ c, r = Ok c →
    let new_dict (old new : option loc) :=
      match old with
      | None => new = None
      | Some l =>
          is_Some (h !! l) →
          ∃ l', new = Some l' ∧ (length h ≤ l')%nat ∧
                heap_dict h' l' = heap_dict h l ∧
                (∀ k v, heap_dict (dict_setitem h' l' k v) l = heap_dict h l) ∧
                (∀ k v, heap_dict (dict_setitem h' l k v) l' = heap_dict h l)
      end in
    let new_copy (old new : option loc) :=
      match old with
      | None => new = None
      | Some l =>
          ∀ o, h !! l = Some o →
            ∃ l', new = Some l' ∧ (length h ≤ l')%nat ∧ h' !! l' = Some o
      end in
    new_dict (_model_kwargs self) (_model_kwargs c) ∧
    new_dict (_bridge_kwargs self) (_bridge_kwargs c) ∧
    new_dict (_model_state_after_gen self) (_model_state_after_gen c) ∧
    new_copy (model_predictions self) (model_predictions c) ∧
    new_copy (best_arm_predictions self) (best_arm_predictions c).
Proof.
  intros Hclone.
  pose proof (clone_prefix h now self) as Hpre. rewrite Hclone in Hpre.
  cbn [fst] in Hpre. split.
  { intros l o Ho. by apply (heap_lookup_prefix h). }
  intros c ->. revert Hclone. unfold clone.
  pose proof (copy_opt_prefix object_clone h (optimization_config self)
                deepcopy_prefix) as H1.
  destruct (copy_opt object_clone h _) as [h1 oc].
  pose proof (copy_opt_prefix object_clone h1 (search_space self)
                deepcopy_prefix) as H2.
  destruct (copy_opt object_clone h1 _) as [h2 ss]. cbn [fst] in *.
  assert (h `prefix_of` h2) as Hh2 by (by etransitivity).
  pose proof (copy_opt_prefix deepcopy h2 (model_predictions self)
                deepcopy_prefix) as H3.
  pose proof (copy_opt_deepcopy h h2 (model_predictions self) Hh2) as Hmp.
  destruct (copy_opt deepcopy h2 _) as [h3 mp]. cbn [fst snd] in *.
  assert (h `prefix_of` h3) as Hh3 by (by etransitivity).
  pose proof (copy_opt_prefix deepcopy h3 (best_arm_predictions self)
                deepcopy_prefix) as H4.
  pose proof (copy_opt_deepcopy h h3 (best_arm_predictions self) Hh3) as Hbp.
  destruct (copy_opt deepcopy h3 _) as [h4 bp]. cbn [fst snd] in *.
  assert (h `prefix_of` h4) as Hh4 by (by etransitivity).
  destruct (__init__ h4 now _) as [g|e] eqn:Hinit; [|done].
  assert (_model_predictions g = mp ∧ _best_arm_predictions g = bp)
    as [Hgmp Hgbp].
  { revert Hinit. unfold __init__, raise_if, py_assert.
    destruct (_ =? _)%nat; cbn [negb mbind result_bind Py.bind]; [|done].
    repeat (case_match; cbn [negb mbind result_bind Py.bind]; try done).
    all: by intros [= <-]. }
  pose proof (copy_opt_prefix dict_copy h4 (_model_kwargs self)
                dict_copy_prefix) as H5.
  pose proof (copy_opt_dict_copy h h4 (_model_kwargs self) Hh4) as Hmk.
  destruct (copy_opt dict_copy h4 _) as [h5 mk]. cbn [fst snd] in *.
  assert (h `prefix_of` h5) as Hh5 by (by etransitivity).
  pose proof (copy_opt_prefix dict_copy h5 (_bridge_kwargs self)
                dict_copy_prefix) as H6.
  pose proof (copy_opt_dict_copy h h5 (_bridge_kwargs self) Hh5) as Hbk.
  destruct (copy_opt dict_copy h5 _) as [h6 bk]. cbn [fst snd] in *.
  assert (h `prefix_of` h6) as Hh6 by (by etransitivity).
  pose proof (copy_opt_prefix dict_copy h6 (_model_state_after_gen self)
                dict_copy_prefix) as H7.
  pose proof (copy_opt_dict_copy h h6 (_model_state_after_gen self) Hh6)
    as Hms.
  destruct (copy_opt dict_copy h6 _) as [h7 ms]. cbn [fst snd] in *.
  intros [= <- <-]. unfold model_predictions, best_arm_predictions.
  cbn [_model_kwargs _bridge_kwargs _model_state_after_gen
       _model_predictions _best_arm_predictions].
  rewrite Hgmp, Hgbp.
  assert (∀ hk old new,
            hk `prefix_of` h7 →
            match old with
            | None => new = None
            | Some l =>
                is_Some (h !! l) →
                ∃ l', new = Some l' ∧ (length h ≤ l')%nat ∧
                      hk !! l' = Some (ODict (heap_dict h l))
            end →
            match old with
            | None => new = None
            | Some l =>
                is_Some (h !! l) →
                ∃ l', new = Some l' ∧ (length h ≤ l')%nat ∧
                  heap_dict h7 l' = heap_dict h l ∧
                  (∀ k v, heap_dict (dict_setitem h7 l' k v) l = heap_dict h l) ∧
                  (∀ k v, heap_dict (dict_setitem h7 l k v) l' = heap_dict h l)
            end) as Hdict.
  { intros hk [l|] new Hk Hold; [|done]. intros Hl.
    destruct (Hold Hl) as (l' & -> & Hfresh & Hnew).
    exists l'. split; [done|]. split; [done|].
    assert (l ≠ l') as Hne.
    { destruct Hl as [o Ho]. apply lookup_lt_Some in Ho. lia. }
    assert (heap_dict h7 l' = heap_dict h l) as Hl'.
    { unfold heap_dict at 1.
      by rewrite (heap_lookup_prefix _ _ _ _ Hk Hnew). }
    split_and!; [done| |].
    - intros k v. rewrite heap_dict_setitem_ne by done.
      by apply heap_dict_prefix.
    - intros k v. by rewrite heap_dict_setitem_ne. }
  assert (∀ hk old new,
            hk `prefix_of` h7 →
            match old with
            | None => new = None
            | Some l =>
                ∀ o, h !! l = Some o →
                  ∃ l', new = Some l' ∧ (length h ≤ l')%nat ∧
                        hk !! l' = Some o
            end →
            match old with
            | None => new = None
            | Some l =>
                ∀ o, h !! l = Some o →
                  ∃ l', new = Some l' ∧ (length h ≤ l')%nat ∧
                        h7 !! l' = Some o
            end) as Hcopy.
  { intros hk [l|] new Hk Hold; [|done]. intros o Ho.
    destruct (Hold o Ho) as (l' & -> & Hfresh & Hnew).
    exists l'. split_and!; [done..|].
    by apply (heap_lookup_prefix hk). }
  split_and!.
  - apply (Hdict h5); [by repeat (etransitivity; [eassumption|]) | done].
  - apply (Hdict h6); [done | done].
  - by apply (Hdict h7).
  - apply (Hcopy h3); [|done].
    by repeat (etransitivity; [eassumption|]).
  - apply (Hcopy h4); [|done].
    by repeat (etransitivity; [eassumption|]).
Qed.

(** Arms with pairwise distinct signatures are not merged. *)
Lemma foldl_add_arm_distinct (xs : list Arm) (ws : list float)
    (acc : list (string * ArmWeight)) :
  NoDup (signature <$> xs) → length xs = length ws →
  (∀ x, x ∈ xs → signature x ∉ od_keys acc) →
  foldl add_arm acc (zip xs ws)
  = acc ++ zip (signature <$> xs)
             (zip_with (λ a w, {| arm := a; weight := w |}) xs ws).
Proof.
  revert ws acc. induction xs as [|x xs IH]; intros [|w ws] acc Hnd Hlen Hacc;
    simpl in *; try lia; [by rewrite app_nil_r|].
  apply NoDup_cons in Hnd as [Hx Hnd].
  assert (signature x ∉ od_keys acc) as Hxa
    by (apply Hacc, elem_of_cons; by left).
  rewrite (proj2 (od_get_None _ _) Hxa), od_set_fresh by done.
  rewrite IH; [by rewrite <-(assoc_L (++))|done|lia|].
  intros y Hy. unfold od_keys. rewrite fmap_app, not_elem_of_app.
  split; [apply Hacc, elem_of_cons; by right|].
  cbn [fmap list_fmap fst]. rewrite list_elem_of_singleton.
  intros Heq. apply Hx. rewrite <-Heq. by apply list_elem_of_fmap_2.
Qed.

Lemma build_table_distinct (xs : list Arm) (ws : list float) :
  NoDup (signature <$> xs) → length xs = length ws →
  arm <$> od_values (build_table xs ws) = xs ∧
  weight <$> od_values (build_table xs ws) = ws.
Proof.
  intros Hnd Hlen. unfold build_table.
  rewrite foldl_add_arm_distinct;
    [|done..|intros x _; apply not_elem_of_nil].
  rewrite app_nil_l. unfold od_values. clear Hnd.
  revert ws Hlen. induction xs as [|x xs IH]; intros [|w ws] Hlen;
    simpl in *; try lia; [done|].
  destruct (IH ws) as [IH1 IH2]; [lia|]. split; f_equal; assumption.
Qed.

Lemma init_Ok_references (h : heap Arm) (now : datetime) (a : InitArgs)
    (gr : GeneratorRun) :
  __init__ h now a = Ok gr →
  _model_kwargs gr = arg_model_kwargs a ∧
  _bridge_kwargs gr = arg_bridge_kwargs a.
Proof.
  unfold __init__, raise_if, py_assert.
  destruct (_ =? _)%nat; cbn [negb mbind result_bind Py.bind]; [|done].
  repeat (case_match; cbn [negb mbind result_bind Py.bind]; try done).
  all: by intros [= <-].
Qed.

(** When [clone] returns, and with which arms and weights. *)
Lemma clone_Ok (h : heap Arm) (now : datetime) (self : GeneratorRun) :
  (∀ x, signature (Arm_clone x) = signature x) →
  NoDup (signature <$> arms self) →
  (_model_kwargs self = None ↔ _bridge_kwargs self = None) →
  (_model_kwargs self ≠ None → _model_key self ≠ None) →
  (∀ l k, _candidate_metadata_by_arm_signature self = Some l →
     is_Some (h !! l) ∧
     (k ∈ od_keys (heap_dict h l) → k ∈ signature <$> arms self)) →
  (∀ g, _generation_step_index self = Some g → 0 ≤ g) →
  ∃ h' c, clone h now self = (h', Ok c) ∧
    arms c = Arm_clone <$> arms self ∧ weights c = weights self ∧
    _time_created c = _time_created self ∧ _index c = _index self ∧
    _generation_step_index c = _generation_step_index self.
Proof.
  intros Hsig Hnd Hkw Hkey Hcand Hstep. unfold clone.
  pose proof (copy_opt_prefix object_clone h (optimization_config self)
                deepcopy_prefix) as H1.
  destruct (copy_opt object_clone h _) as [h1 oc].
  pose proof (copy_opt_prefix object_clone h1 (search_space self)
                deepcopy_prefix) as H2.
  destruct (copy_opt object_clone h1 _) as [h2 ss].
  pose proof (copy_opt_prefix deepcopy h2 (model_predictions self)
                deepcopy_prefix) as H3.
  destruct (copy_opt deepcopy h2 _) as [h3 mp].
  pose proof (copy_opt_prefix deepcopy h3 (best_arm_predictions self)
                deepcopy_prefix) as H4.
  destruct (copy_opt deepcopy h3 _) as [h4 bp]. cbn [fst] in *.
  assert (h `prefix_of` h4) as Hh4 by (by repeat (etransitivity; [eassumption|])).
  assert (length (Arm_clone <$> arms self) = length (weights self)) as Hlen
    by (unfold arms, weights; by rewrite !length_fmap).
  assert (signature <$> (Arm_clone <$> arms self) = signature <$> arms self)
    as Hsigs.
  { rewrite <-list_fmap_compose. apply list_fmap_ext. intros _ x _. apply Hsig. }
  match goal with |- context [__init__ h4 now ?args] => set (a' := args) end.
  destruct (init_trichotomy h4 now a')
    as [[Hinv _]|[(_ & (g & Hg & Hneg) & _)|(_ & _ & g & Hinit)]].
  - exfalso. destruct Hinv as [Hl|[Hx|[Hk|(l & k & Hl & Hin & Hnot)]]].
    + by apply Hl.
    + cbn [a' arg_model_kwargs arg_bridge_kwargs] in Hx. naive_solver.
    + cbn [a' arg_model_kwargs arg_bridge_kwargs arg_model_key] in Hk.
      naive_solver.
    + cbn [a' arg_candidate_metadata_by_arm_signature arg_arms] in Hl, Hnot.
      unfold candidate_metadata_by_arm_signature in Hl.
      destruct (Hcand l k Hl) as [Hsome Hkeys].
      rewrite (heap_dict_prefix h h4) in Hin by done.
      apply Hnot. rewrite Hsigs. by apply Hkeys.
  - exfalso. cbn [a' arg_generation_step_index] in Hg.
    specialize (Hstep g Hg). lia.
  - rewrite Hinit.
    destruct (init_Ok_inv _ _ _ _ Hinit) as (_ & Htab & _ & _ & _ & Hgstep).
    cbn [a' arg_arms arg_weights default_weights arg_generation_step_index]
      in Htab, Hgstep.
    destruct (copy_opt dict_copy h4 _) as [h5 mk].
    destruct (copy_opt dict_copy h5 _) as [h6 bk].
    destruct (copy_opt dict_copy h6 _) as [h7 ms].
    eexists _, _. split; [done|]. unfold arms at 1, weights at 1.
    cbn [_arm_weight_table _time_created _index _generation_step_index].
    rewrite Htab.
    destruct (build_table_distinct (Arm_clone <$> arms self) (weights self))
      as [-> ->]; [by rewrite Hsigs | done | done].
Qed.

(** X15: when the input arms have pairwise distinct signatures, the run
    holds exactly the arms given, in the order given, with the weights
    given (1.0 each when none are given): nothing is merged. *)
Theorem init_keeps_distinct_arms_as_given (h : heap Arm) (now : datetime)
    (a : InitArgs) (gr : GeneratorRun) :
  NoDup (signature <$> arg_arms a) →
  __init__ h now a = Ok gr →
  arms gr = arg_arms a ∧
  weights gr = default_weights (arg_arms a) (arg_weights a) ∧
  (arg_weights a = None →
   weights gr = replicate (length (arg_arms a)) (float_of_Z 1)).
Proof.
  intros Hnd Hinit.
  destruct (init_Ok_inv _ _ _ _ Hinit) as (Hlen & Htab & _).
  unfold arms, weights. rewrite Htab.
  destruct (build_table_distinct (arg_arms a)
              (default_weights (arg_arms a) (arg_weights a)) Hnd Hlen)
    as [-> ->].
  split_and!; [done..|]. intros ->. unfold default_weights.
  clear. induction (arg_arms a) as [|x l IH]; [done|].
  cbn [fmap list_fmap length replicate]. by rewrite IH.
Qed.

(** X16: [clone] hands the candidate-metadata dictionary of the run to
    the constructor, which checks it as it is then: when an item has
    been assigned in that dictionary since the run was built, under a key
    that is no signature of its arms, [clone] raises the ValueError of
    the constructor ([Arm.clone] keeping the signature). *)
Theorem clone_checks_candidate_metadata_again (h : heap Arm)
    (now : datetime) (a : InitArgs) (gr : GeneratorRun) (l : loc)
    (k : string) (v : pyval) (now' : datetime) :
  (∀ x, signature (Arm_clone x) = signature x) →
  __init__ h now a = Ok gr →
  candidate_metadata_by_arm_signature gr = Some l →
  is_Some (h !! l) →
  k ∉ signature <$> arg_arms a →
  ∃ h' msg,
    clone (dict_setitem h l k v) now' gr = (h', Raise (ValueError msg)).
Proof.
  intros Hsig Hinit Hl Hsome Hk.
  destruct (init_table _ _ _ _ Hinit) as (_ & _ & Hsigs & _).
  set (hm := dict_setitem h l k v).
  assert (hm !! l = Some (ODict (od_set k v (heap_dict h l)))) as E.
  { apply list_lookup_insert_eq. by apply lookup_lt_is_Some. }
  assert (is_Some (hm !! l)) as Hsome' by eauto.
  assert (k ∈ od_keys (heap_dict hm l)) as Hin.
  { unfold heap_dict at 1. rewrite E.
    apply od_get_is_Some. rewrite od_get_set_eq. eauto. }
  unfold clone.
  pose proof (copy_opt_prefix object_clone hm (optimization_config gr)
                deepcopy_prefix) as H1.
  destruct (copy_opt object_clone hm _) as [h1 oc].
  pose proof (copy_opt_prefix object_clone h1 (search_space gr)
                deepcopy_prefix) as H2.
  destruct (copy_opt object_clone h1 _) as [h2 ss].
  pose proof (copy_opt_prefix deepcopy h2 (model_predictions gr)
                deepcopy_prefix) as H3.
  destruct (copy_opt deepcopy h2 _) as [h3 mp].
  pose proof (copy_opt_prefix deepcopy h3 (best_arm_predictions gr)
                deepcopy_prefix) as H4.
  destruct (copy_opt deepcopy h3 _) as [h4 bp]. cbn [fst] in *.
  assert (hm `prefix_of` h4) as Hh4 by (by repeat (etransitivity; [eassumption|])).
  match goal with |- context [__init__ h4 now' ?args] => set (a' := args) end.
  assert (invalid_argument h4 a') as Hinv.
  { do 3 right. exists l, k. split_and!; [done| |].
    - by rewrite (heap_dict_prefix hm h4).
    - cbn [a' arg_arms]. rewrite <-list_fmap_compose.
      rewrite (list_fmap_ext (signature ∘ Arm_clone) signature (arms gr))
        by (intros _ x _; apply Hsig).
      by rewrite Hsigs, elem_of_first_occurrences. }
  destruct (init_trichotomy h4 now' a')
    as [[_ [msg Hr]]|[(Hn & _)|(Hn & _)]]; [|done..].
  rewrite Hr. by exists h4, msg.
Qed.

(** X17: on a run the constructor built, whatever public calls were made
    on it since, [clone] returns a run: its arms are the clones of the
    arms of the original, in order and with the same signatures, its
    weights are the weights of the original (nothing is merged or added
    up again), its creation time is that of the original, and its index
    and unique id are those the original has when it is cloned.
    [Arm.clone] is to keep the signature, and the candidate metadata, if
    any, to be an object of the store. *)
Theorem clone_of_built_run_succeeds (h : heap Arm) (now : datetime)
    (a : InitArgs) (gr : GeneratorRun) (cs : list call) (now' : datetime) :
  (∀ x, signature (Arm_clone x) = signature x) →
  (∀ l, arg_candidate_metadata_by_arm_signature a = Some l →
     is_Some (h !! l)) →
  __init__ h now a = Ok gr →
  ∃ h' c,
    clone (run cs (h, gr)).1 now' (run cs (h, gr)).2 = (h', Ok c) ∧
    arms c = Arm_clone <$> arms gr ∧
    signature <$> arms c = signature <$> arms gr ∧
    weights c = weights gr ∧
    time_created c = now ∧
    index c = index (run cs (h, gr)).2 ∧
    _unique_id c = _unique_id (run cs (h, gr)).2.
Proof.
  intros Hsig Halloc Hinit.
  destruct (run_frame cs h gr) as (Hpre & [idx Hidx] & _).
  destruct (run cs (h, gr)) as [h1 self]. cbn [fst snd] in *. subst self.
  destruct (init_table _ _ _ _ Hinit) as (Hlen & _ & Hsigs & _).
  destruct (init_Ok_inv _ _ _ _ Hinit) as (_ & _ & _ & Htime & Hkey & Hstep).
  destruct (init_Ok_fields _ _ _ _ Hinit) as (_ & Hcand & _).
  destruct (init_Ok_references _ _ _ _ Hinit) as (Hmk & Hbk).
  destruct (init_trichotomy h now a)
    as [[_ [msg Hr]]|[(_ & _ & Hr)|(Hvalid & Hnneg & _)]].
  1-2: by rewrite Hinit in Hr.
  destruct (clone_Ok h1 now' (with_index gr idx)) as (h' & c & Hc & Hrest).
  - done.
  - change (arms (with_index gr idx)) with (arms gr).
    rewrite Hsigs. apply NoDup_first_occurrences.
  - cbn [with_index _model_kwargs _bridge_kwargs]. rewrite Hmk, Hbk.
    split; intros Hnone; destruct (arg_model_kwargs a) eqn:E1,
      (arg_bridge_kwargs a) eqn:E2; try done; destruct Hvalid; right; left;
      [left | right]; split; congruence.
  - cbn [with_index _model_kwargs _model_key]. rewrite Hmk, Hkey.
    intros Hsome Hnone. destruct Hvalid. right; right; left.
    split; [by left | done].
  - cbn [with_index _candidate_metadata_by_arm_signature].
    change (arms (with_index gr idx)) with (arms gr).
    rewrite Hcand. intros l k Hl. specialize (Halloc l Hl).
    split; [destruct Halloc as [o Ho]; exists o;
            by apply (heap_lookup_prefix h)|].
    rewrite (heap_dict_prefix h h1) by done. intros Hin.
    rewrite Hsigs, elem_of_first_occurrences.
    destruct (decide (k ∈ signature <$> arg_arms a)) as [|Hnot]; [done|].
    destruct Hvalid. do 3 right. by exists l, k.
  - cbn [with_index _generation_step_index]. rewrite Hstep.
    intros g Hg. destruct (Z.le_gt_cases 0 g); [done|].
    destruct Hnneg. exists g. split; [done | lia].
  - exists h', c. split; [done|].
    destruct Hrest as (Harms & Hws & Ht & Hi & Hs).
    change (arms (with_index gr idx)) with (arms gr) in Harms.
    change (weights (with_index gr idx)) with (weights gr) in Hws.
    cbn [with_index _time_created _index _generation_step_index] in Ht, Hi, Hs.
    split_and!; [done| |done| | |].
    + rewrite Harms, <-list_fmap_compose. apply list_fmap_ext.
      intros _ x _. apply Hsig.
    + unfold time_created. congruence.
    + done.
    + unfold _unique_id, index. cbn [with_index _index _generation_step_index].
      by rewrite Hi, Hs.
Qed.
End clone_and_calls.

(** ** Report utilities *)

(** Floats that compare equal compare alike with every float. *)
Lemma float_eqb_ltb_l x y z :
  float_eqb x y = true → float_ltb x z = float_ltb y z.
Proof.
  unfold float_eqb, float_ltb, SFeqb, SFltb, SFcompare.
  destruct x as [[]|[]| |[] mx ex], y as [[]|[]| |[] my ey]; try done.
  all: change (Pos.compare_cont Eq) with Pos.compare.
  all: destruct (Z.compare_spec ex ey); try done; subst.
  all: destruct (Pos.compare_spec mx my); try done; subst.
  all: done.
Qed.

Lemma float_eqb_ltb_r x y z :
  float_eqb x y = true → float_ltb z x = float_ltb z y.
Proof.
  unfold float_eqb, float_ltb, SFeqb, SFltb, SFcompare.
  destruct x as [[]|[]| |[] mx ex], y as [[]|[]| |[] my ey]; try done.
  all: change (Pos.compare_cont Eq) with Pos.compare.
  all: destruct (Z.compare_spec ex ey); try done; subst.
  all: destruct (Pos.compare_spec mx my); try done; subst.
  all: by destruct z as [[]|[]| |[] mz ez].
Qed.

Lemma float_eqb_not_nan x y : float_eqb x y = true → float_is_nan x = false.
Proof. by destruct x. Qed.

(** Two numbers are equal or one is below the other. *)
Lemma float_ltb_total x y :
  float_is_nan x = false → float_is_nan y = false →
  float_eqb x y = false → float_ltb x y = false → float_ltb y x = true.
Proof.
  unfold float_eqb, float_ltb, SFeqb, SFltb, SFcompare.
  destruct x as [[]|[]| |[] mx ex], y as [[]|[]| |[] my ey]; try done.
  all: intros _ _.
  all: change (Pos.compare_cont Eq) with Pos.compare.
  all: rewrite (Z.compare_antisym ex ey), (Pos.compare_antisym mx my).
  all: destruct (ex ?= ey); simpl; try done.
  all: by destruct (mx ?= my)%positive.
Qed.

Lemma float_ltb_nan x y :
  float_is_nan x = true → float_ltb x y = false ∧ float_ltb y x = false.
Proof.
  destruct x; try done. intros _. split; [done|].
  by destruct y as [[]|[]| |[]].
Qed.

Lemma float_eqb_sym x y : float_eqb x y = float_eqb y x.
Proof.
  unfold float_eqb, SFeqb, SFcompare.
  destruct x as [[]|[]| |[] mx ex], y as [[]|[]| |[] my ey]; try done.
  all: change (Pos.compare_cont Eq) with Pos.compare.
  all: rewrite (Z.compare_antisym ex ey), (Pos.compare_antisym mx my).
  all: destruct (ex ?= ey); simpl; try done.
  all: by destruct (mx ?= my)%positive.
Qed.

Section report_utils_properties.
Import generator_run report_utils.
Context `{ArmClass} `{Collaborators}.

Lemma od_values_set_Forall {K V} `{EqDecision K} (P : V → Prop) (k : K) v
    (d : list (K * V)) :
  P v → Forall P (od_values d) → Forall P (od_values (od_set k v d)).
Proof.
  intros Hv. unfold od_values. induction d as [|[k' v'] d IH]; simpl.
  - intros _. by apply Forall_cons.
  - intros [Hv' Hd]%Forall_cons. destruct (decide (k' = k)); simpl.
    + by apply Forall_cons.
    + apply Forall_cons. split; [done | by apply IH].
Qed.

(** A field that no trial has a true value for adds no column. *)
Lemma add_absent_run_metadata_field (trials : list (Z * BaseTrial))
    (exp_df : DataFrame) (field : string) :
  (∀ i t, (i, t) ∈ trials →
     cell_truthy (default CNone (od_get field (run_metadata t))) = false) →
  add_run_metadata_field trials exp_df field = Ok exp_df.
Proof.
  intros Hall. unfold add_run_metadata_field.
  assert (∀ acc,
            Forall (λ c, cell_truthy c = false) (od_values acc) →
            Forall (λ c, cell_truthy c = false)
              (od_values
                 (foldl (λ (d : list (Z * cell)) '(index, trial),
                    od_set index
                      (default CNone (od_get field (run_metadata trial))) d)
                    acc trials))) as Hgen.
  { induction trials as [|[i t] trials IH]; intros acc Hacc; [done|].
    simpl. apply IH.
    - intros i' t' Hin. apply (Hall i' t'). apply elem_of_cons. by right.
    - apply od_values_set_Forall; [|done].
      apply (Hall i t). apply elem_of_cons. by left. }
  specialize (Hgen [] (Forall_nil_2 _)).
  destruct (existsb cell_truthy _) eqn:E; [|done].
  apply existsb_exists in E as (c & Hc%list_elem_of_In & Htrue).
  rewrite Forall_forall in Hgen. by rewrite (Hgen c Hc) in Htrue.
Qed.

Local Ltac step_bind :=
  match goal with
  | |- mbind _ ?r = mbind _ ?r =>
      destruct r; cbn [mbind result_bind Py.bind]; [|done]
  | |- (if ?b then _ else _) = (if ?b then _ else _) =>
      destruct b; [done|]
  end.

(** X18: [run_metadata_fields] for which no trial has a true value (the
    field is missing, or is [None], [0], [False] or the empty string, in
    the [run_metadata] of every trial) change nothing: [exp_to_df]
    returns what it returns when no field is asked for. *)
Theorem exp_to_df_skips_fields_without_value (exp : Experiment)
    (metrics : option (list Metric)) (key_components : option (list string))
    (fields : list string) :
  (∀ field i t, field ∈ fields → (i, t) ∈ trials exp →
     cell_truthy (default CNone (od_get field (run_metadata t))) = false) →
  exp_to_df exp metrics key_components (Some fields)
  = exp_to_df exp metrics key_components None.
Proof.
  intros Hall. unfold exp_to_df. cbv zeta.
  repeat step_bind.
  match goal with
  | |- context [foldl ?f (Ok ?df) fields] =>
      assert (foldl f (Ok df) fields = Ok df) as ->; [|done]
  end.
  match goal with |- foldl _ (Ok ?df) _ = _ => generalize df end.
  induction fields as [|field fields IH]; intros df; [done|].
  simpl. cbn [mbind result_bind Py.bind].
  rewrite add_absent_run_metadata_field.
  - apply IH. intros f i t Hf. apply Hall. apply elem_of_cons. by right.
  - intros i t. apply Hall. apply elem_of_cons. by left.
Qed.

(** X19: for an experiment with a plain objective and data with a
    [mean] column, [get_standard_plots] returns the trace plot alone
    when making the second plot raises NotImplementedError; it raises
    whatever else making the second plot raises (a strategy without
    model included), the trace plot being lost; and otherwise it returns
    the trace plot followed by the second plot, if there is one.  So a
    list it returns starts with the trace plot and has at most two
    plots. *)
Theorem standard_plots_begin_with_the_trace (experiment : Experiment)
    (generation_strategy : GenerationStrategy) (metric : Metric)
    (minimize : bool) (mean : list cell) :
  optimization_config experiment
  = Some {| objective := Objective metric minimize |} →
  df_empty (fetch_data experiment None) = false →
  df_getitem (fetch_data experiment None) "mean" = Ok mean →
  let trace :=
    optimization_trace_single_method_plotly [mean]
      "Best objective found vs. # of iterations" (metric_name metric)
      (model_transitions generation_strategy)
      (Some (if minimize then "minimize" else "maximize")) true in
  let second :=
    m ← not_none (model generation_strategy);
    _get_objective_v_param_plot (search_space experiment) m
      (metric_name metric) (trials experiment) in
  (second = Raise NotImplementedError →
   get_standard_plots experiment generation_strategy = Ok [trace]) ∧
  (∀ e, second = Raise e → e ≠ NotImplementedError →
     get_standard_plots experiment generation_strategy = Raise e) ∧
  (∀ plot, second = Ok plot →
     get_standard_plots experiment generation_strategy
     = Ok (trace :: option_list plot)) ∧
  (∀ plots, get_standard_plots experiment generation_strategy = Ok plots →
     ∃ rest, plots = trace :: rest ∧ (length rest ≤ 1)%nat).
Proof.
  intros Hoc Hdata Hmean trace second.
  assert (get_standard_plots experiment generation_strategy
          = match second with
            | Ok plot => Ok (trace :: option_list plot)
            | Raise NotImplementedError => Ok [trace]
            | Raise e => Raise e
            end) as Hplots.
  { unfold get_standard_plots. rewrite Hoc.
    cbn [not_none mbind result_bind Py.bind objective]. rewrite Hdata.
    unfold _get_objective_trace_plot. rewrite Hmean.
    cbn [mbind result_bind Py.bind]. fold trace. fold second.
    destruct second as [[plot|]|[]]; done. }
  rewrite Hplots. split_and!.
  - by intros ->.
  - intros e -> He. by destruct e.
  - by intros plot ->.
  - intros plots. destruct second as [[plot|]|[]]; intros [= <-].
    + exists [plot]. split; [done | simpl; lia].
    + exists []. split; [done | simpl; lia].
    + exists []. split; [done | simpl; lia].
Qed.

(** X20: with a plain objective and a number in the objective column of
    the table [exp_to_df] returns, [get_best_trial] returns exactly one
    row of that table: its objective value is a number, no value of the
    column is better (lower when minimizing, higher when maximizing),
    and every row before it that has a number for objective value is
    strictly worse; among the rows at the optimum it is the first. *)
Theorem best_trial_is_first_row_at_optimum (exp : Experiment)
    (additional_metrics : option (list Metric))
    (key_components : option (list string))
    (run_metadata_fields : option (list string))
    (metric : Metric) (minimize : bool) (trials_df : DataFrame)
    (column : list cell) :
  optimization_config exp
  = Some {| objective := Objective metric minimize |} →
  exp_to_df exp
    (get_best_trial exp additional_metrics key_components
       run_metadata_fields).1
    key_components run_metadata_fields = Ok trials_df →
  df_getitem trials_df (metric_name metric) = Ok column →
  (∃ v, v ∈ cell_float <$> column ∧ float_is_nan v = false) →
  let values := cell_float <$> column in
  let better (x y : float) :=
    if minimize then float_ltb x y else float_ltb y x in
  ∃ i r v,
    (get_best_trial exp additional_metrics key_components
       run_metadata_fields).2
    = Ok (Some {| df_columns := df_columns trials_df; df_rows := [r] |}) ∧
    df_rows trials_df !! i = Some r ∧
    values !! i = Some v ∧ float_is_nan v = false ∧
    (∀ w, w ∈ values → better w v = false) ∧
    (∀ j w, (j < i)%nat → values !! j = Some w → float_is_nan w = false →
       better v w = true).
Proof.
  intros Hoc Hdf Hcol Hnum values better.
  destruct (best_row_one_row trials_df (metric_name metric) minimize column
              Hcol Hnum) as (i & r & Hbest & Hr & (v & Hv & Heq) & Hfirst
                             & Hnan & Hopt).
  exists i, r, v. split_and!; [|done|done| | |].
  - revert Hdf. unfold get_best_trial. rewrite Hoc.
    cbn [not_none objective fst snd]. intros ->.
    cbn [mbind result_bind Py.bind].
    assert (df_len trials_df ≠ 0%nat) as Hlen.
    { unfold df_len. apply lookup_lt_Some in Hr. lia. }
    destruct (Nat.eqb_spec (df_len trials_df) 0); [done|].
    by rewrite Hbest.
  - by eapply float_eqb_not_nan.
  - intros w Hw. unfold better.
    destruct (float_is_nan w) eqn:Ew.
    { destruct (float_ltb_nan w v Ew). by destruct minimize. }
    specialize (Hopt w Hw Ew). destruct minimize.
    + by rewrite (float_eqb_ltb_r _ _ w Heq).
    + by rewrite (float_eqb_ltb_l _ _ w Heq).
  - intros j w Hj Hw Ew. unfold better.
    pose proof (Hfirst j w Hj Hw) as Hne.
    assert (w ∈ values) as Hin by (apply list_elem_of_lookup; eauto).
    specialize (Hopt w Hin Ew). destruct minimize.
    + rewrite (float_eqb_ltb_l _ _ w Heq). by apply float_ltb_total.
    + rewrite (float_eqb_ltb_r _ _ w Heq).
      apply float_ltb_total; [done..| |done]. by rewrite float_eqb_sym.
Qed.
End report_utils_properties.

(** ** Examples *)

Section further_examples.
Import generator_run report_utils examples.

(** X9 on three arms of which the first and the last share a signature:
    the last is the one kept, at the place of the first. *)
Lemma init_keeps_last_arm_of_signature_witness :
  ∃ gr, __init__ [] 5 three_arms = Ok gr ∧
    Some <$> arms gr = [Some arm_a'; Some arm_b].
Proof.
  destruct (__init__ [] 5 three_arms) as [gr|e] eqn:E;
    [|by vm_compute in E].
  exists gr. split; [done|].
  by rewrite (init_keeps_last_arm_of_signature [] 5 three_arms gr E).
Defined.

(** X15 on two arms with different signatures and no weights. *)
Lemma init_keeps_distinct_arms_as_given_witness :
  ∃ gr, __init__ [] 5 two_arms = Ok gr ∧
    arms gr = [arm_a; arm_b] ∧ weights gr = [float_of_Z 1; float_of_Z 1].
Proof.
  destruct (__init__ [] 5 two_arms) as [gr|e] eqn:E;
    [|by vm_compute in E].
  exists gr. split; [done|].
  destruct (init_keeps_distinct_arms_as_given [] 5 two_arms gr)
    as (Ha & Hw & _); [|done|by rewrite Ha, Hw].
  apply (bool_decide_unpack _). by vm_compute.
Defined.

(** X10 on a run built with generation-step index 0, then given the
    index -3. *)
Lemma built_run_takes_any_index_witness :
  ∃ gr, __init__ meta_store 5 with_gen_metadata = Ok gr ∧
    _unique_id gr = Ok "0" ∧ _unique_id (set_index gr (-3)).1 = Ok "-3".
Proof.
  destruct (__init__ meta_store 5 with_gen_metadata) as [gr|e] eqn:E;
    [|by vm_compute in E].
  exists gr. split; [done|].
  destruct (built_run_takes_any_index meta_store 5 with_gen_metadata gr (-3) E)
    as (_ & Hid & _ & _ & Hid').
  split; [exact Hid | exact Hid'].
Defined.

(** X13 on a run with index 1: another index is refused, a clone is
    taken, the same index is assigned again. *)
Lemma run_changes_nothing_once_indexed_witness :
  ∃ gr, __init__ [] 5 three_arms = Ok gr ∧
    let self := (set_index gr 1).1 in
    (run [assign_index 2; call_clone 9; assign_index 1] ([], self)).2 = self.
Proof.
  destruct (__init__ [] 5 three_arms) as [gr|e] eqn:E;
    [|by vm_compute in E].
  exists gr. split; [done|]. intros self.
  apply (run_changes_nothing_once_indexed _ [] self 1).
  destruct (init_Ok_inv _ _ _ _ E) as (_ & _ & Hidx & _).
  unfold self, index, set_index. by rewrite Hidx.
Defined.

(** X11 on predictions for two arms: position 1 is there, position 2 is
    not. *)
Lemma extract_arm_predictions_takes_entry_witness :
  ∃ means covs,
    extract_arm_predictions loss_predictions 1 = Ok (means, covs) ∧
    extract_arm_predictions loss_predictions 2 = Raise IndexError.
Proof.
  destruct (extract_arm_predictions_takes_entry loss_predictions 1)
    as [Hin _].
  destruct Hin as (means & covs & Hok & _).
  { split.
    - intros metric vals [= -> ->]%list_elem_of_singleton. simpl. lia.
    - intros metric row other vals [= -> ->]%list_elem_of_singleton
        [= -> ->]%list_elem_of_singleton. simpl. lia. }
  exists means, covs. split; [exact Hok|].
  apply (extract_arm_predictions_takes_entry loss_predictions 2).
  intros [Hmeans _].
  specialize (Hmeans "loss" [float_of_Z 5; float_of_Z 2]).
  simpl in Hmeans. assert (2 < 2)%nat; [|lia].
  apply Hmeans. by apply list_elem_of_singleton.
Defined.

(** X12 on a run of two arms with predictions for both. *)
Lemma model_predictions_by_arm_by_signature_witness :
  ∃ gr d, __init__ predictions_store 5 with_predictions = Ok gr ∧
    model_predictions_by_arm predictions_store gr = Ok (Some d) ∧
    od_keys d = signature <$> arms gr.
Proof.
  destruct (__init__ predictions_store 5 with_predictions) as [gr|e] eqn:E;
    [|by vm_compute in E].
  pose proof (model_predictions_by_arm_by_signature predictions_store
                predictions_store 5 with_predictions gr E) as Hthm.
  assert (model_predictions gr = Some 0%nat ∧ length (arms gr) = 2%nat)
    as [Hmp Hlen].
  { vm_compute in E. by injection E as <-. }
  rewrite Hmp in Hthm. destruct Hthm as [Hok _].
  assert (∀ i, (i < length (arms gr))%nat →
            ∃ q, extract_arm_predictions
                   (heap_predictions predictions_store 0%nat) (Z.of_nat i)
                 = Ok q) as Hall.
  { rewrite Hlen. intros i Hi.
    destruct (extract_arm_predictions _ (Z.of_nat i)) as [q|e] eqn:Eq;
      [by exists q|].
    destruct i as [|[|i]]; [by vm_compute in Eq.. | lia]. }
  destruct (Hok Hall) as (d & Hd & Hkeys & _).
  exists gr, d. split; [done|]. split; [exact Hd | exact Hkeys].
Defined.

(** X14 on the run with kwargs. *)
Lemma clone_only_allocates_witness :
  ∃ gr h1 c, __init__ kwargs_store 5 with_kwargs = Ok gr ∧
    clone kwargs_store 9 gr = (h1, Ok c) ∧
    ∀ l o, kwargs_store !! l = Some o → h1 !! l = Some o.
Proof.
  destruct (__init__ kwargs_store 5 with_kwargs) as [gr|e] eqn:E;
    [|by vm_compute in E].
  destruct (clone kwargs_store 9 gr) as [h1 [c|e]] eqn:Ec.
  2:{ vm_compute in E. injection E as <-. by vm_compute in Ec. }
  exists gr, h1, c. split; [done|]. split; [done|].
  by destruct (clone_only_allocates kwargs_store 9 gr h1 (Ok c) Ec).
Defined.

(** X16 on a run with candidate metadata for its arm, to which an item
    for another signature is added. *)
Lemma clone_checks_candidate_metadata_again_witness :
  ∃ gr h1 msg, __init__ candidate_store 5 with_candidate_metadata = Ok gr ∧
    clone (dict_setitem candidate_store 0%nat "x=9" VNone) 9 gr
    = (h1, Raise (ValueError msg)).
Proof.
  destruct (__init__ candidate_store 5 with_candidate_metadata)
    as [gr|e] eqn:E; [|by vm_compute in E].
  destruct (clone_checks_candidate_metadata_again candidate_store 5
              with_candidate_metadata gr 0%nat "x=9" VNone 9)
    as (h1 & msg & Hc); [done | done | | by eexists | |].
  - vm_compute in E. by injection E as <-.
  - apply (bool_decide_unpack _). by vm_compute.
  - by exists gr, h1, msg.
Defined.

(** X17 on the run of three arms, cloned after its index was set. *)
Lemma clone_of_built_run_succeeds_witness :
  ∃ gr h1 c, __init__ [] 5 three_arms = Ok gr ∧
    clone (run [assign_index 1] ([], gr)).1 9 (run [assign_index 1] ([], gr)).2
    = (h1, Ok c) ∧
    arms c = Arm_clone <$> arms gr ∧ weights c = weights gr ∧
    time_created c = 5.
Proof.
  destruct (__init__ [] 5 three_arms) as [gr|e] eqn:E;
    [|by vm_compute in E].
  destruct (clone_of_built_run_succeeds [] 5 three_arms gr [assign_index 1] 9)
    as (h1 & c & Hc & Ha & _ & Hw & Ht & _); [done | done | done |].
  by exists gr, h1, c.
Defined.

(** X18 on trials that all record [retries = 0] and no [job_id]. *)
Lemma exp_to_df_skips_fields_without_value_witness :
  exp_to_df retried_experiment None None (Some ["retries"; "job_id"])
  = exp_to_df retried_experiment None None None.
Proof.
  apply exp_to_df_skips_fields_without_value.
  intros field i t Hf Ht.
  assert (run_metadata t = [("retries", CInt 0)]) as ->.
  { simpl in Ht.
    by apply elem_of_cons in Ht
      as [[= -> ->]|[= -> ->]%list_elem_of_singleton]. }
  apply elem_of_cons in Hf as [->| ->%list_elem_of_singleton]; done.
Defined.

(** X19 on an experiment over one range parameter, with a model. *)
Lemma standard_plots_begin_with_the_trace_witness :
  get_standard_plots plotted_experiment fitted_strategy
  = Ok ["trace"; "slice"].
Proof.
  destruct (standard_plots_begin_with_the_trace plotted_experiment
              fitted_strategy loss true
              [CFloat (float_of_Z 5); CFloat (float_of_Z 2)])
    as (_ & _ & Hplot & _); [done..|].
  by rewrite (Hplot (Some "slice")).
Defined.

(** X20 on the losses 5.0, 2.0 and 8.0. *)
Lemma best_trial_is_first_row_at_optimum_witness :
  ∃ trials_df i r,
    exp_to_df (experiment_with (Objective loss true)
                 [float_of_Z 5; float_of_Z 2; float_of_Z 8]) None None None
    = Ok trials_df ∧
    (get_best_trial (experiment_with (Objective loss true)
                       [float_of_Z 5; float_of_Z 2; float_of_Z 8])
       None None None).2
    = Ok (Some {| df_columns := df_columns trials_df; df_rows := [r] |}) ∧
    df_rows trials_df !! i = Some r.
Proof.
  pose proof (best_trial_is_first_row_at_optimum
                (experiment_with (Objective loss true)
                   [float_of_Z 5; float_of_Z 2; float_of_Z 8])
                None None None loss true) as Hthm.
  eexists.
  edestruct Hthm as (i & r & v & Hbest & Hrow & _);
    [done | by vm_compute | by vm_compute | |].
  - exists (float_of_Z 5). split; [|done].
    apply elem_of_cons. by left.
  - exists i, r. split; [by vm_compute|]. split; [exact Hbest | exact Hrow].
Defined.
End further_examples.
